(** * ESP8266-mcp diagnostic clients: framing, sessions and log aggregation

  A shallow embedding of the Python test clients of the repository
  ([test_session_management.py], [test_mcp_client.py],
  [test_session_tools.py]) and of the log aggregator of
  [integrated_test_runner.py], with the properties of their natural
  language specification stated and settled against the code. *)

From Stdlib Require Import String Ascii ZArith NArith Arith Bool Lia.
From Stdlib Require Import Decimal DecimalString DecimalZ.
From Stdlib.Strings Require Import Byte.
From Stdlib Require Import List.
Import ListNotations.

Set Implicit Arguments.
Set Warnings "-register-all".

(* ===================================================================== *)
(** * Bytes, big-endian integers and UTF-8                                *)
(* ===================================================================== *)

Module Bytes.

Definition bytes := list byte.

Definition byte_val (b : byte) : Z := Z.of_N (Byte.to_N b).

(** [int.from_bytes(data, byteorder='big')] *)
Definition from_bytes_big (data : bytes) : Z :=
  fold_left (fun acc b => acc * 256 + byte_val b)%Z data 0%Z.

Definition byte_of_Z (z : Z) : byte :=
  match Byte.of_N (Z.to_N (z mod 256)) with
  | Some b => b
  | None => x00
  end.

(** [n.to_bytes(4, byteorder='big')]: [OverflowError] (here [None]) when
    [n] does not fit in four bytes. *)
Definition to_bytes4_big (n : Z) : option bytes :=
  if ((0 <=? n) && (n <? 4294967296))%Z then
    Some [ byte_of_Z (n / 16777216); byte_of_Z (n / 65536);
           byte_of_Z (n / 256); byte_of_Z n ]
  else None.

Definition in_range (lo hi : Z) (b : byte) : bool :=
  ((lo <=? byte_val b) && (byte_val b <=? hi))%Z.

Definition is_cont : byte -> bool := in_range 128 191.

(** Well-formed UTF-8 byte sequences (Unicode table 3-7), which is what
    the strict decoder behind [bytes.decode('utf-8')] accepts. *)
Fixpoint utf8_valid (bs : bytes) : bool :=
  match bs with
  | [] => true
  | b0 :: r0 =>
      if in_range 0 127 b0 then utf8_valid r0
      else match r0 with
      | [] => false
      | b1 :: r1 =>
          if in_range 194 223 b0 then is_cont b1 && utf8_valid r1
          else match r1 with
          | [] => false
          | b2 :: r2 =>
              if in_range 224 239 b0 then
                (if in_range 224 224 b0 then in_range 160 191 b1
                 else if in_range 237 237 b0 then in_range 128 159 b1
                 else is_cont b1)
                && is_cont b2 && utf8_valid r2
              else match r2 with
              | [] => false
              | b3 :: r3 =>
                  in_range 240 244 b0
                  && (if in_range 240 240 b0 then in_range 144 191 b1
                      else if in_range 244 244 b0 then in_range 128 143 b1
                      else is_cont b1)
                  && is_cont b2 && is_cont b3 && utf8_valid r3
              end
          end
      end
  end.

(** A Python [str] is kept as its UTF-8 encoding. *)
Definition decode_utf8 (bs : bytes) : option string :=
  if utf8_valid bs then Some (string_of_list_byte bs) else None.

Definition encode_utf8 (s : string) : bytes := list_byte_of_string s.

Lemma byte_val_range (b : byte) : (0 <= byte_val b < 256)%Z.
Proof.
  unfold byte_val. pose proof (Byte.to_N_bounded b) as H.
  split; [apply N2Z.is_nonneg|]. lia.
Qed.

Lemma byte_val_of_Z_mod (z : Z) : byte_val (byte_of_Z z) = (z mod 256)%Z.
Proof.
  unfold byte_of_Z.
  pose proof (Z.mod_pos_bound z 256 ltac:(lia)) as Hm.
  destruct (Byte.of_N (Z.to_N (z mod 256))) as [b|] eqn:E.
  - unfold byte_val. apply Byte.to_of_N in E. rewrite E. lia.
  - apply Byte.of_N_None_iff in E. lia.
Qed.

Lemma from_bytes_big_nonneg (data : bytes) : (0 <= from_bytes_big data)%Z.
Proof.
  unfold from_bytes_big.
  assert (H : forall acc, (0 <= acc)%Z ->
            (0 <= fold_left (fun a b => a * 256 + byte_val b) data acc)%Z).
  { induction data as [|b data IH]; intros acc Hacc; simpl; [exact Hacc|].
    apply IH. pose proof (byte_val_range b). lia. }
  apply H. lia.
Qed.

(** The length prefix written by the sender is read back unchanged. *)
Lemma from_to_bytes4 (n : Z) (hdr : bytes) :
  to_bytes4_big n = Some hdr -> from_bytes_big hdr = n /\ length hdr = 4.
Proof.
  unfold to_bytes4_big.
  destruct ((0 <=? n) && (n <? 4294967296))%Z eqn:E; [|discriminate].
  apply andb_true_iff in E as [H0 H1].
  apply Z.leb_le in H0. apply Z.ltb_lt in H1.
  intros [= <-]. split; [|reflexivity].
  unfold from_bytes_big. cbn [fold_left].
  rewrite !byte_val_of_Z_mod.
  assert (Hq : (0 <= n / 16777216 < 256)%Z)
    by (split; [apply Z.div_pos; lia | apply Z.div_lt_upper_bound; lia]).
  rewrite (Z.mod_small (n / 16777216) 256) by exact Hq.
  pose proof (Z.div_mod n 256 ltac:(lia)) as E0.
  pose proof (Z.div_mod (n / 256) 256 ltac:(lia)) as E1.
  pose proof (Z.div_mod (n / 65536) 256 ltac:(lia)) as E2.
  rewrite Z.div_div in E1 by lia. rewrite Z.div_div in E2 by lia.
  change (256 * 256)%Z with 65536%Z in E1.
  change (65536 * 256)%Z with 16777216%Z in E2.
  lia.
Qed.

End Bytes.

(* ===================================================================== *)
(** * Python values decoded from JSON                                     *)
(* ===================================================================== *)

Module Json.

(** A binary floating-point number by its exact value
    [mant * 2 ^ exp2], or one of the special values. *)
Inductive pyfloat :=
| FNan
| FInf (negative : bool)
| FFinite (mant exp2 : Z).

(** What [json.loads] builds: [None], [bool], [int], [float], [str],
    [list] and [dict] (insertion ordered, keys unique). *)
Inductive json :=
| JNull
| JBool (b : bool)
| JInt (z : Z)
| JFloat (f : pyfloat)
| JStr (s : string)
| JArr (items : list json)
| JObj (fields : list (string * json)).

Definition dict := list (string * json).

Fixpoint dict_get (k : string) (d : dict) : option json :=
  match d with
  | [] => None
  | (k', v) :: rest => if String.eqb k k' then Some v else dict_get k rest
  end.

(** [d[k] = v]: an existing key keeps its position. *)
Fixpoint dict_set (k : string) (v : json) (d : dict) : dict :=
  match d with
  | [] => [(k, v)]
  | (k', v') :: rest =>
      if String.eqb k k' then (k, v) :: rest else (k', v') :: dict_set k v rest
  end.

Definition dict_has (k : string) (d : dict) : bool :=
  match dict_get k d with Some _ => true | None => false end.

(** Exact comparison of a float with an integer, as Python does it. *)
Definition float_eq_int (f : pyfloat) (n : Z) : bool :=
  match f with
  | FFinite m e =>
      if (0 <=? e)%Z then (m * 2 ^ e =? n)%Z
      else (m =? n * 2 ^ (- e))%Z
  | _ => false
  end.

(** [v == n] for an [int] [n]; [True == 1] and [1.0 == 1] hold in
    Python. *)
Definition py_eq_int (v : json) (n : Z) : bool :=
  match v with
  | JInt z => (z =? n)%Z
  | JBool b => ((if b then 1 else 0) =? n)%Z
  | JFloat f => float_eq_int f n
  | _ => false
  end.

(** [v == s] for a [str] [s]. *)
Definition py_eq_str (v : json) (s : string) : bool :=
  match v with
  | JStr t => String.eqb t s
  | _ => false
  end.

Definition is_substring (needle hay : string) : bool :=
  match String.index 0 needle hay with Some _ => true | None => false end.

(** [bool(v)] *)
Definition truthy (v : json) : bool :=
  match v with
  | JNull => false
  | JBool b => b
  | JInt z => negb (z =? 0)%Z
  | JFloat (FFinite m _) => negb (m =? 0)%Z
  | JFloat _ => true
  | JStr s => negb (String.eqb s EmptyString)
  | JArr l => match l with [] => false | _ => true end
  | JObj d => match d with [] => false | _ => true end
  end.

(** Exceptions that the clients let escape or catch by class. *)
Inductive exn :=
| TypeError
| KeyError
| AttributeError.

(** The outcome of evaluating a Python expression or call. *)
Inductive outcome (A : Type) :=
| Return (a : A)
| Raise (e : exn).
Arguments Return {A} a.
Arguments Raise {A} e.

Definition bind {A B} (m : outcome A) (k : A -> outcome B) : outcome B :=
  match m with
  | Return a => k a
  | Raise e => Raise e
  end.

(** [key in v] for a [str] key. *)
Definition py_in (key : string) (v : json) : outcome bool :=
  match v with
  | JObj d => Return (dict_has key d)
  | JArr l => Return (existsb (fun x => py_eq_str x key) l)
  | JStr s => Return (is_substring key s)
  | _ => Raise TypeError
  end.

(** [v[key]] for a [str] key. *)
Definition py_getitem (v : json) (key : string) : outcome json :=
  match v with
  | JObj d => match dict_get key d with
              | Some x => Return x
              | None => Raise KeyError
              end
  | _ => Raise TypeError
  end.

End Json.

(* ===================================================================== *)
(** * The TCP socket as a scripted transport                              *)
(* ===================================================================== *)

Module Transport.
Import Bytes.

(** What the peer makes available to one [recv] call: a segment of bytes
    (the empty segment stands for an orderly shutdown, on which [recv]
    returns [b'']), an error such as a connection reset, or nothing
    within the timeout of the socket, in which case the call raises
    [socket.timeout] and what follows arrives later. *)
Inductive rx_event :=
| Segment (data : bytes)
| RecvFault
| RecvTimeout.

(** [rx] is what arrives, in order; once it is exhausted nothing arrives
    any more and a [recv] runs into the socket timeout. [tx_plan] gives
    the outcome of the successive send calls ([false]: the call raises);
    once exhausted every send succeeds. [tx_log] records what was
    written. *)
Record tcp_socket := mkSocket {
  rx : list rx_event;
  tx_plan : list bool;
  tx_log : list bytes;
  timeout_ms : Z;
  close_raises : bool
}.

Definition with_rx (s : tcp_socket) (r : list rx_event) : tcp_socket :=
  mkSocket r (tx_plan s) (tx_log s) (timeout_ms s) (close_raises s).

Inductive recv_result :=
| Chunk (data : bytes)
| Timeout
| Fault.

(** [sock.recv(bufsize)]: at most [bufsize] bytes of what is there. *)
Definition recv (bufsize : nat) (s : tcp_socket) : recv_result * tcp_socket :=
  match rx s with
  | [] => (Timeout, s)
  | RecvFault :: rest => (Fault, with_rx s rest)
  | RecvTimeout :: rest => (Timeout, with_rx s rest)
  | Segment [] :: _ => (Chunk [], s)
  | Segment data :: rest =>
      if length data <=? bufsize then (Chunk data, with_rx s rest)
      else (Chunk (firstn bufsize data),
            with_rx s (Segment (skipn bufsize data) :: rest))
  end.

(** [sock.sendall(data)]; [true] when the call returns normally. *)
Definition sendall (data : bytes) (s : tcp_socket) : bool * tcp_socket :=
  match tx_plan s with
  | false :: plan =>
      (false, mkSocket (rx s) plan (tx_log s) (timeout_ms s) (close_raises s))
  | true :: plan =>
      (true, mkSocket (rx s) plan (tx_log s ++ [data]) (timeout_ms s)
                      (close_raises s))
  | [] =>
      (true, mkSocket (rx s) [] (tx_log s ++ [data]) (timeout_ms s)
                      (close_raises s))
  end.

(** [sock.close()]; [true] when the call returns normally. *)
Definition close (s : tcp_socket) : bool := negb (close_raises s).

(** [sock.settimeout(t)] *)
Definition settimeout (t : Z) (s : tcp_socket) : tcp_socket :=
  mkSocket (rx s) (tx_plan s) (tx_log s) t (close_raises s).

(** The bytes still to come on a socket, whatever their segmentation. *)
Fixpoint stream_bytes (evs : list rx_event) : bytes :=
  match evs with
  | [] => []
  | Segment d :: rest => d ++ stream_bytes rest
  | RecvFault :: rest => stream_bytes rest
  | RecvTimeout :: rest => stream_bytes rest
  end.

(** A peer that is connected and delivers [chunks] one [recv] at a time,
    followed by [rest]. *)
Definition delivers (chunks : list bytes) (rest : list rx_event)
  : list rx_event :=
  map Segment chunks ++ rest.

Definition nonempty (c : bytes) : Prop := c <> [].

Inductive loop_result :=
| Filled (buf : bytes)
| PeerClosed
| TimedOut
| Failed
| OutOfFuel.

(** The loop that [_receive_framed_message] runs twice, for the length
    prefix and for the message data:
<<
    buf = b''
    while len(buf) < n:
        chunk = self.socket.recv(n - len(buf))
        if not chunk:
            return None
        buf += chunk
>>
    Every iteration adds at least one byte, so [n] iterations are
    enough; [fuel] only makes the recursion structural. *)
Fixpoint recv_loop (fuel n : nat) (buf : bytes) (s : tcp_socket)
  : loop_result * tcp_socket :=
  if n <=? length buf then (Filled buf, s)
  else match fuel with
       | O => (OutOfFuel, s)
       | S fuel' =>
           match recv (n - length buf) s with
           | (Chunk [], s') => (PeerClosed, s')
           | (Chunk chunk, s') => recv_loop fuel' n (buf ++ chunk) s'
           | (Timeout, s') => (TimedOut, s')
           | (Fault, s') => (Failed, s')
           end
       end.

Definition recv_exactly (n : nat) (s : tcp_socket) : loop_result * tcp_socket :=
  recv_loop n n [] s.

(** ** Facts about [recv] and the receive loop *)

Lemma recv_keeps_settings (k : nat) (s s' : tcp_socket) (r : recv_result) :
  recv k s = (r, s') -> s' = with_rx s (rx s').
Proof.
  unfold recv. destruct s as [rxs plan log t cr]; cbn [rx].
  destruct rxs as [|[[|b d]| |] rest];
    try destruct (length (b :: d) <=? k);
    intros H; inversion H; subst; reflexivity.
Qed.

Lemma recv_chunk_stream (k : nat) (s s' : tcp_socket) (c : bytes) :
  recv k s = (Chunk c, s') ->
  stream_bytes (rx s) = c ++ stream_bytes (rx s') /\ length c <= k.
Proof.
  unfold recv. destruct (rx s) as [|[[|b d]| |] rest] eqn:E.
  - discriminate.
  - intros [= <- <-]. rewrite E. simpl. split; [reflexivity | lia].
  - destruct (length (b :: d) <=? k) eqn:L; intros [= <- <-]; simpl rx.
    + apply Nat.leb_le in L. split; [reflexivity | exact L].
    + cbn [stream_bytes]. rewrite app_assoc, firstn_skipn.
      split; [reflexivity | apply firstn_le_length].
  - discriminate.
  - discriminate.
Qed.

Lemma with_rx_with_rx (s : tcp_socket) (r r' : list rx_event) :
  with_rx (with_rx s r) r' = with_rx s r'.
Proof. reflexivity. Qed.

Lemma with_rx_same (s : tcp_socket) : with_rx s (rx s) = s.
Proof. destruct s; reflexivity. Qed.

(** The loop never stops for lack of fuel. *)
Lemma recv_loop_fuel (fuel n : nat) (buf : bytes) (s : tcp_socket) :
  n - length buf <= fuel -> fst (recv_loop fuel n buf s) <> OutOfFuel.
Proof.
  revert buf s. induction fuel as [|fuel IH]; intros buf s Hf; simpl.
  - destruct (n <=? length buf) eqn:L; [discriminate|].
    apply Nat.leb_gt in L. lia.
  - destruct (n <=? length buf) eqn:L; [discriminate|].
    apply Nat.leb_gt in L.
    destruct (recv (n - length buf) s) as [[[|b c]| |] s'] eqn:R;
      try discriminate.
    apply IH. rewrite length_app. simpl. lia.
Qed.

(** So [recv_exactly] is total: it fills its buffer, or reports a closed
    connection, a timeout or an error. *)
Lemma recv_exactly_total (n : nat) (s : tcp_socket) :
  fst (recv_exactly n s) <> OutOfFuel.
Proof. apply recv_loop_fuel. simpl. lia. Qed.

(** When the loop fills its buffer, it has taken exactly the missing bytes
    off the stream, in order, and nothing more. *)
Lemma recv_loop_filled (fuel n : nat) (buf out : bytes) (s s' : tcp_socket) :
  recv_loop fuel n buf s = (Filled out, s') ->
  exists got,
    out = buf ++ got /\
    stream_bytes (rx s) = got ++ stream_bytes (rx s') /\
    (length buf <= n -> length out = n) /\
    s' = with_rx s (rx s').
Proof.
  revert buf s. induction fuel as [|fuel IH]; intros buf s; simpl.
  - destruct (n <=? length buf) eqn:L; [|discriminate].
    apply Nat.leb_le in L. intros [= <- <-]. exists [].
    rewrite app_nil_r, with_rx_same. repeat split; [lia].
  - destruct (n <=? length buf) eqn:L.
    + apply Nat.leb_le in L. intros [= <- <-]. exists [].
      rewrite app_nil_r, with_rx_same. repeat split; lia.
    + apply Nat.leb_gt in L.
      destruct (recv (n - length buf) s) as [[[|b c]| |] s1] eqn:R;
        try discriminate.
      intros H. apply IH in H as (got & -> & Hs & Hl & Hk).
      pose proof (recv_chunk_stream _ _ R) as [Hs1 Hc].
      pose proof (recv_keeps_settings _ _ R) as Hk1.
      exists ((b :: c) ++ got). repeat split.
      * now rewrite app_assoc.
      * rewrite Hs1, Hs. now rewrite app_assoc.
      * intros _. apply Hl. rewrite length_app. lia.
      * rewrite Hk, Hk1. reflexivity.
Qed.

(** Whatever the segmentation, when enough bytes arrive the loop fills its
    buffer; what it leaves on the socket is again a sequence of non-empty
    segments. *)
Lemma recv_loop_complete (fuel n : nat) :
  forall (buf : bytes) (chunks : list bytes) (rest : list rx_event)
         (s : tcp_socket),
    Forall nonempty chunks ->
    rx s = delivers chunks rest ->
    n - length buf <= length (concat chunks) ->
    n - length buf <= fuel ->
    exists chunks',
      recv_loop fuel n buf s
      = (Filled (buf ++ firstn (n - length buf) (concat chunks)),
         with_rx s (delivers chunks' rest)) /\
      Forall nonempty chunks' /\
      concat chunks' = skipn (n - length buf) (concat chunks).
Proof.
  induction fuel as [|fuel IH]; intros buf chunks rest s Hne Hrx Hlen Hf.
  - assert (E : n - length buf = 0) by lia.
    simpl. destruct (n <=? length buf) eqn:L;
      [|apply Nat.leb_gt in L; lia].
    exists chunks. rewrite E. simpl. rewrite app_nil_r, <- Hrx, with_rx_same.
    auto.
  - simpl. destruct (n <=? length buf) eqn:L.
    + apply Nat.leb_le in L. assert (E : n - length buf = 0) by lia.
      exists chunks. rewrite E. simpl.
      rewrite app_nil_r, <- Hrx, with_rx_same. auto.
    + apply Nat.leb_gt in L.
      destruct chunks as [|c chunks]; [simpl in Hlen; lia|].
      inversion Hne as [|? ? Hc Hne']; subst.
      destruct c as [|b c]; [now elim Hc|].
      assert (Hpos : 0 < length (b :: c)) by (simpl; lia).
      unfold recv. rewrite Hrx. cbn [delivers map app].
      destruct (length (b :: c) <=? n - length buf) eqn:Lc.
      * apply Nat.leb_le in Lc.
        destruct (IH (buf ++ b :: c) chunks rest
                    (with_rx s (delivers chunks rest)))
          as (chunks' & Hr & Hne'' & Hcat); auto.
        -- rewrite length_app. cbn [concat] in Hlen.
           rewrite length_app in Hlen. lia.
        -- rewrite length_app. lia.
        -- exists chunks'.
           change (map Segment chunks ++ rest) with (delivers chunks rest).
           rewrite Hr, with_rx_with_rx.
           rewrite length_app in *. cbn [concat].
           replace (n - length buf)
             with (length (b :: c) + (n - (length buf + length (b :: c))))
             by lia.
           rewrite firstn_app_2, skipn_app.
           rewrite skipn_all2 by lia.
           replace (length (b :: c) + (n - (length buf + length (b :: c)))
                    - length (b :: c))
             with (n - (length buf + length (b :: c))) by lia.
           rewrite <- app_assoc. simpl app at 3. rewrite Hcat.
           repeat split; auto.
      * apply Nat.leb_gt in Lc.
        set (k := n - length buf) in *.
        assert (Hk : 0 < k) by (unfold k; lia).
        destruct (IH (buf ++ firstn k (b :: c)) (skipn k (b :: c) :: chunks)
                    rest
                    (with_rx s (delivers (skipn k (b :: c) :: chunks) rest)))
          as (chunks' & Hr & Hne'' & Hcat); auto.
        -- constructor; auto. unfold nonempty. intros E.
           apply (f_equal (@length byte)) in E.
           rewrite length_skipn in E. change (length (@nil byte)) with 0 in E.
           lia.
        -- rewrite length_app, length_firstn. unfold k in *. lia.
        -- rewrite length_app, length_firstn. unfold k in *. lia.
        -- exists chunks'.
           assert (Hfull : n - length (buf ++ firstn k (b :: c)) = 0).
           { rewrite length_app, length_firstn. unfold k in *. lia. }
           rewrite Hfull in Hr, Hcat. cbn [firstn skipn] in Hr, Hcat.
           rewrite app_nil_r in Hr.
           destruct (firstn k (b :: c)) as [|b' c'] eqn:Ef.
           { apply (f_equal (@length byte)) in Ef.
             rewrite length_firstn in Ef.
             change (length (@nil byte)) with 0 in Ef. lia. }
           change (Segment (skipn k (b :: c)) :: map Segment chunks ++ rest)
             with (delivers (skipn k (b :: c) :: chunks) rest).
           rewrite Hr, with_rx_with_rx. cbn [concat].
           rewrite firstn_app, skipn_app.
           replace (k - length (b :: c)) with 0 by lia.
           cbn [firstn skipn]. rewrite app_nil_r, <- Ef.
           repeat split; auto.
Qed.

End Transport.

(* ===================================================================== *)
(** * Length-prefixed framing                                             *)
(* ===================================================================== *)

(** [SessionMCPClient] and [SessionToolClient] carry the same two
    methods, [_send_framed_message] and [_receive_framed_message]; what
    they do with the socket is defined once here. *)

Module Framing.
Import Bytes Transport.

Definition MAX_MESSAGE_LENGTH : Z := 1024 * 1024.

(** The frame written for [data]: its length on four bytes, big-endian,
    then its UTF-8 encoding. *)
Definition frame_of (data : string) : option bytes :=
  match to_bytes4_big (Z.of_nat (length (encode_utf8 data))) with
  | Some length_prefix => Some (length_prefix ++ encode_utf8 data)
  | None => None
  end.

(** The body of [_send_framed_message] on a connected client:
<<
    message_bytes = data.encode('utf-8')
    length_prefix = len(message_bytes).to_bytes(4, byteorder='big')
    self.socket.sendall(length_prefix + message_bytes)
    return True
>>
    with [False] for any exception. *)
Definition send_frame (data : string) (s : tcp_socket) : bool * tcp_socket :=
  let message_bytes := encode_utf8 data in
  match to_bytes4_big (Z.of_nat (length message_bytes)) with
  | None => (false, s)
  | Some length_prefix => sendall (length_prefix ++ message_bytes) s
  end.

(** The body of [_receive_framed_message] on a connected client: the
    decoded message, or [None] on a closed connection, an announced
    length above the limit, a timeout or any other exception. *)
Definition receive_frame (timeout : Z) (s : tcp_socket)
  : option string * tcp_socket :=
  match recv_exactly 4 (settimeout timeout s) with
  | (Filled length_data, s1) =>
      let message_length := from_bytes_big length_data in
      if (message_length >? MAX_MESSAGE_LENGTH)%Z then (None, s1)
      else
        match recv_exactly (Z.to_nat message_length) s1 with
        | (Filled message_data, s2) => (decode_utf8 message_data, s2)
        | (_, s2) => (None, s2)
        end
  | (_, s1) => (None, s1)
  end.

Lemma send_frame_true (data : string) (s s' : tcp_socket) :
  send_frame data s = (true, s') ->
  exists frame,
    frame_of data = Some frame /\
    tx_log s' = tx_log s ++ [frame] /\ rx s' = rx s.
Proof.
  unfold send_frame, frame_of.
  destruct (to_bytes4_big _) as [pre|]; [|discriminate].
  unfold sendall.
  destruct (tx_plan s) as [|[|] plan]; intros H; inversion H; subst;
    eexists; repeat split; reflexivity.
Qed.

Lemma recv_exactly_filled (n : nat) (s s' : tcp_socket) (out : bytes) :
  recv_exactly n s = (Filled out, s') ->
  length out = n /\
  stream_bytes (rx s) = out ++ stream_bytes (rx s') /\
  s' = with_rx s (rx s').
Proof.
  unfold recv_exactly. intros H.
  apply recv_loop_filled in H as (got & -> & Hs & Hl & Hk).
  simpl in *. repeat split; auto. apply Hl. lia.
Qed.

Lemma recv_exactly_complete (n : nat) (s : tcp_socket)
      (chunks : list bytes) (rest : list rx_event) (want more : bytes) :
  Forall nonempty chunks ->
  rx s = delivers chunks rest ->
  concat chunks = want ++ more ->
  length want = n ->
  exists chunks',
    recv_exactly n s = (Filled want, with_rx s (delivers chunks' rest)) /\
    Forall nonempty chunks' /\
    concat chunks' = more.
Proof.
  intros Hne Hrx Hcat Hlen. unfold recv_exactly.
  destruct (@recv_loop_complete n n [] chunks rest s Hne Hrx)
    as (chunks' & Hr & Hne' & Hc).
  - rewrite Hcat, length_app. simpl. lia.
  - simpl. lia.
  - exists chunks'. rewrite Hr. simpl. rewrite Nat.sub_0_r in *.
    rewrite Hc, Hcat, <- Hlen.
    rewrite firstn_app, Nat.sub_diag, firstn_all. simpl. rewrite app_nil_r.
    rewrite skipn_app, Nat.sub_diag, skipn_all. simpl. auto.
Qed.

Lemma stream_bytes_delivers (chunks : list bytes) (rest : list rx_event) :
  stream_bytes (delivers chunks rest) = concat chunks ++ stream_bytes rest.
Proof.
  unfold delivers. induction chunks as [|ch chunks IH]; simpl; [reflexivity|].
  now rewrite IH, app_assoc.
Qed.

(** Whenever a message is handed over, the four bytes of the prefix and
    exactly the announced number of payload bytes were taken off the
    stream, and the message is the whole payload. *)
Lemma receive_frame_sound (timeout : Z) (s s' : tcp_socket) (text : string) :
  receive_frame timeout s = (Some text, s') ->
  exists hdr payload,
    length hdr = 4 /\
    Z.of_nat (length payload) = from_bytes_big hdr /\
    (from_bytes_big hdr <= MAX_MESSAGE_LENGTH)%Z /\
    stream_bytes (rx s) = hdr ++ payload ++ stream_bytes (rx s') /\
    decode_utf8 payload = Some text.
Proof.
  unfold receive_frame.
  destruct (recv_exactly 4 (settimeout timeout s)) as [[hdr| | | |] s1] eqn:R1;
    try discriminate.
  destruct (from_bytes_big hdr >? MAX_MESSAGE_LENGTH)%Z eqn:Cap;
    [discriminate|].
  destruct (recv_exactly (Z.to_nat (from_bytes_big hdr)) s1)
    as [[payload| | | |] s2] eqn:R2; try discriminate.
  intros H. inversion H as [[Hd Hc]]. subst s'. clear H.
  apply recv_exactly_filled in R1 as (L1 & S1 & _).
  apply recv_exactly_filled in R2 as (L2 & S2 & _).
  exists hdr, payload.
  pose proof (from_bytes_big_nonneg hdr).
  repeat split; auto.
  - rewrite L2. lia.
  - rewrite Z.gtb_ltb in Cap. apply Z.ltb_ge in Cap. exact Cap.
  - simpl in S1. rewrite S1, S2. reflexivity.
Qed.

(** Whatever the segmentation of the stream, a frame within the limit is
    received whole, and nothing behind it is touched. *)
Lemma receive_frame_complete (timeout : Z) (s : tcp_socket)
      (chunks : list bytes) (rest : list rx_event)
      (hdr payload more : bytes) :
  Forall nonempty chunks ->
  rx s = delivers chunks rest ->
  to_bytes4_big (Z.of_nat (length payload)) = Some hdr ->
  (Z.of_nat (length payload) <= MAX_MESSAGE_LENGTH)%Z ->
  concat chunks = hdr ++ payload ++ more ->
  exists chunks',
    receive_frame timeout s
    = (decode_utf8 payload,
       with_rx (settimeout timeout s) (delivers chunks' rest)) /\
    Forall nonempty chunks' /\ concat chunks' = more.
Proof.
  intros Hne Hrx Hhdr Hcap Hcat.
  apply from_to_bytes4 in Hhdr as [Hval Hlen].
  unfold receive_frame.
  destruct (@recv_exactly_complete 4 (settimeout timeout s) chunks rest hdr
              (payload ++ more) Hne Hrx Hcat Hlen)
    as (chunks1 & R1 & Hne1 & Hcat1).
  rewrite R1, Hval.
  destruct (Z.of_nat (length payload) >? MAX_MESSAGE_LENGTH)%Z eqn:Cap.
  { rewrite Z.gtb_ltb in Cap. apply Z.ltb_lt in Cap. lia. }
  rewrite Nat2Z.id.
  destruct (@recv_exactly_complete (length payload)
              (with_rx (settimeout timeout s) (delivers chunks1 rest))
              chunks1 rest payload more Hne1 eq_refl Hcat1 eq_refl)
    as (chunks2 & R2 & Hne2 & Hcat2).
  rewrite R2. exists chunks2. auto.
Qed.

(** An announced length above the limit ends the call after the four
    header bytes. *)
Lemma receive_frame_oversize (timeout : Z) (s : tcp_socket)
      (chunks : list bytes) (rest : list rx_event) (hdr more : bytes) :
  Forall nonempty chunks ->
  rx s = delivers chunks rest ->
  concat chunks = hdr ++ more ->
  length hdr = 4 ->
  (from_bytes_big hdr > MAX_MESSAGE_LENGTH)%Z ->
  exists chunks',
    receive_frame timeout s
    = (None, with_rx (settimeout timeout s) (delivers chunks' rest)) /\
    Forall nonempty chunks' /\ concat chunks' = more.
Proof.
  intros Hne Hrx Hcat Hlen Hbig. unfold receive_frame.
  destruct (@recv_exactly_complete 4 (settimeout timeout s) chunks rest hdr
              more Hne Hrx Hcat Hlen)
    as (chunks1 & R1 & Hne1 & Hcat1).
  rewrite R1.
  destruct (from_bytes_big hdr >? MAX_MESSAGE_LENGTH)%Z eqn:Cap.
  - exists chunks1. auto.
  - rewrite Z.gtb_ltb in Cap. apply Z.ltb_ge in Cap. lia.
Qed.

Lemma app_same_length {A : Type} (a b x y : list A) :
  length a = length b -> a ++ x = b ++ y -> a = b /\ x = y.
Proof.
  revert b. induction a as [|h a IH]; intros [|h' b] Hl H;
    simpl in *; try discriminate; [auto|].
  inversion H; subst. destruct (IH b) as [-> ->]; auto.
Qed.

(** A frame of which only a part arrives is never handed over. *)
Lemma receive_frame_partial (timeout : Z) (s : tcp_socket)
      (hdr payload missing : bytes) :
  length hdr = 4 ->
  from_bytes_big hdr = Z.of_nat (length payload) ->
  missing <> [] ->
  stream_bytes (rx s) ++ missing = hdr ++ payload ->
  fst (receive_frame timeout s) = None.
Proof.
  intros Hlen Hval Hmiss Hstream.
  destruct (receive_frame timeout s) as [[text|] s'] eqn:R; [|reflexivity].
  exfalso.
  apply receive_frame_sound in R
    as (hdr' & payload' & L & V & _ & St & _).
  rewrite St, <- !app_assoc in Hstream.
  apply app_same_length in Hstream as [-> Hrest]; [|congruence].
  rewrite <- (app_nil_r payload) in Hrest.
  apply app_same_length in Hrest as [_ Hnil]; [|lia].
  apply app_eq_nil in Hnil as [_ Hm]. contradiction.
Qed.

(** ** What receiving leaves alone, and text that survives the codec *)

Lemma recv_loop_keeps_settings (fuel n : nat) (buf : bytes) (s : tcp_socket) :
  snd (recv_loop fuel n buf s)
  = with_rx s (rx (snd (recv_loop fuel n buf s))).
Proof.
  revert buf s. induction fuel as [|fuel IH]; intros buf s; simpl.
  - destruct (n <=? length buf); simpl; now rewrite with_rx_same.
  - destruct (n <=? length buf); [simpl; now rewrite with_rx_same|].
    destruct (recv (n - length buf) s) as [[[|b c]| |] s1] eqn:R;
      pose proof (recv_keeps_settings _ _ R) as Hk; simpl; try exact Hk.
    rewrite IH. rewrite Hk at 1. reflexivity.
Qed.

(** Receiving a frame writes nothing and uses up no send outcome. *)
Lemma receive_frame_keeps_tx (timeout : Z) (s : tcp_socket) :
  tx_log (snd (receive_frame timeout s)) = tx_log s /\
  tx_plan (snd (receive_frame timeout s)) = tx_plan s.
Proof.
  unfold receive_frame, recv_exactly.
  pose proof (recv_loop_keeps_settings 4 4 [] (settimeout timeout s)) as H1.
  destruct (recv_loop 4 4 [] (settimeout timeout s)) as [[hdr| | | |] s1];
    simpl in H1 |- *; try solve [rewrite H1; simpl; auto].
  destruct (from_bytes_big hdr >? MAX_MESSAGE_LENGTH)%Z;
    [simpl; rewrite H1; simpl; auto|].
  set (n := Z.to_nat (from_bytes_big hdr)).
  pose proof (recv_loop_keeps_settings n n [] s1) as H2.
  destruct (recv_loop n n [] s1) as [[payload| | | |] s2];
    simpl in H2 |- *; rewrite H2, H1; simpl; auto.
Qed.

(** Text whose encoding is well-formed UTF-8 is decoded back to itself. *)
Lemma decode_encode_utf8 (text : string) :
  utf8_valid (encode_utf8 text) = true ->
  decode_utf8 (encode_utf8 text) = Some text.
Proof.
  unfold decode_utf8, encode_utf8. intros ->.
  now rewrite string_of_list_byte_of_string.
Qed.

End Framing.

(* ===================================================================== *)
(** * [SessionMCPClient] of test_session_management.py                   *)
(* ===================================================================== *)

Module SessionClient.
Import Bytes Json Transport Framing.

Inductive SessionState :=
| UNINITIALIZED
| INITIALIZING
| INITIALIZED
| ACTIVE
| SHUTTING_DOWN
| SHUTDOWN
| ERROR_STATE.

(** The attributes of the client object that its methods read or write
    ([socket] is [None] until [connect] and after [disconnect]). *)
Record client := mkClient {
  socket : option tcp_socket;
  request_id : Z;
  initialized : bool;
  server_info : json;
  available_tools : json;
  session_state : SessionState
}.

Definition set_socket (c : client) (s : option tcp_socket) : client :=
  mkClient s (request_id c) (initialized c) (server_info c)
           (available_tools c) (session_state c).

Definition set_request_id (c : client) (n : Z) : client :=
  mkClient (socket c) n (initialized c) (server_info c)
           (available_tools c) (session_state c).

Definition set_initialized (c : client) (b : bool) : client :=
  mkClient (socket c) (request_id c) b (server_info c)
           (available_tools c) (session_state c).

Definition set_server_info (c : client) (v : json) : client :=
  mkClient (socket c) (request_id c) (initialized c) v
           (available_tools c) (session_state c).

Definition set_session_state (c : client) (st : SessionState) : client :=
  mkClient (socket c) (request_id c) (initialized c) (server_info c)
           (available_tools c) st.

(** [SessionMCPClient.__init__] *)
Definition new_client : client :=
  mkClient None 0 false (JObj []) (JArr []) UNINITIALIZED.

(** Methods run on the client object and either return or raise. *)
Definition M (A : Type) : Type := client -> outcome A * client.

Definition ret {A} (a : A) : M A := fun c => (Return a, c).

Definition mbind {A B} (m : M A) (k : A -> M B) : M B :=
  fun c => match m c with
           | (Return a, c') => k a c'
           | (Raise e, c') => (Raise e, c')
           end.

Definition lift {A} (o : outcome A) : M A := fun c => (o, c).

Notation "x <- m ;; k" := (mbind m (fun x => k))
  (at level 61, m at next level, right associativity).

(** [_get_next_id] *)
Definition _get_next_id : M Z :=
  fun c => (Return (request_id c + 1)%Z,
            set_request_id c (request_id c + 1)%Z).

(** [_send_framed_message]: [False] without a socket, when the length does
    not fit the prefix, or when [sendall] raises. *)
Definition _send_framed_message (data : string) (c : client)
  : bool * client :=
  match socket c with
  | None => (false, c)
  | Some s =>
      let (sent, s') := send_frame data s in
      (sent, set_socket c (Some s'))
  end.

(** [_receive_framed_message]: the decoded message, or [None] without a
    socket, on a closed connection, an oversized length, a timeout or any
    other exception. *)
Definition _receive_framed_message (timeout : Z) (c : client)
  : option string * client :=
  match socket c with
  | None => (None, c)
  | Some s =>
      let (message, s') := receive_frame timeout s in
      (message, set_socket c (Some s'))
  end.

(** The checks that [send_request] makes on the decoded response:
<<
    if "jsonrpc" not in response or response["jsonrpc"] != "2.0":
        return None
    if "id" in response and response["id"] != request_id:
        return None
    return response
>>
    A response that is no [dict] can make them raise. *)
Definition validate_response (response : json) (request_id : Z)
  : outcome (option json) :=
  bind (py_in "jsonrpc" response) (fun has_version =>
  bind (if has_version
        then bind (py_getitem response "jsonrpc")
                  (fun v => Return (negb (py_eq_str v "2.0")))
        else Return true) (fun invalid =>
  if invalid then Return None else
  bind (py_in "id" response) (fun has_id =>
  bind (if has_id
        then bind (py_getitem response "id")
                  (fun v => Return (negb (py_eq_int v request_id)))
        else Return false) (fun mismatch =>
  if mismatch then Return None else Return (Some response))))).

Definition is_empty (s : string) : bool := String.eqb s EmptyString.

Definition opt_truthy (v : option json) : bool :=
  match v with Some x => truthy x | None => false end.

(** A decoded value as the [Optional] that a method returns: Python's
    [None] is the decoded [null]. *)
Definition optional (v : json) : option json :=
  match v with JNull => None | _ => Some v end.

Section WithCodec.

(** [json.loads] ([None]: [JSONDecodeError]) and [json.dumps]. *)
Variable json_loads : string -> option json.
Variable json_dumps : json -> string.

Definition build_request (method : string) (params : option json)
                         (request_id : Z) : json :=
  let request := [("jsonrpc", JStr "2.0"); ("method", JStr method);
                  ("id", JInt request_id)]%string in
  match params with
  | Some p => if truthy p then JObj (dict_set "params" p request)
              else JObj request
  | None => JObj request
  end.

(** [send_request]: one request, one frame read back. *)
Definition send_request (method : string) (params : option json)
                        (timeout : Z) : M (option json) :=
  request_id <- _get_next_id ;;
  fun c =>
    let request_json := json_dumps (build_request method params request_id) in
    match _send_framed_message request_json c with
    | (false, c1) => (Return None, c1)
    | (true, c1) =>
        match _receive_framed_message timeout c1 with
        | (None, c2) => (Return None, c2)
        | (Some response_json, c2) =>
            if is_empty response_json then (Return None, c2)
            else match json_loads response_json with
                 | None => (Return None, c2)
                 | Some response =>
                     (validate_response response request_id, c2)
                 end
        end
    end.

Definition initialize_params : json :=
  JObj [("protocolVersion", JStr "2024-11-05");
        ("capabilities",
         JObj [("roots", JObj [("listChanged", JBool true)]);
               ("sampling", JObj [])]);
        ("clientInfo",
         JObj [("name", JStr "SessionTestClient");
               ("version", JStr "1.0.0")])]%string.

Definition initialized_notification : json :=
  JObj [("jsonrpc", JStr "2.0");
        ("method", JStr "notifications/initialized")]%string.

(** [initialize] *)
Definition initialize : M bool :=
  fun c =>
    if initialized c then (Return true, c) else
    (response <- send_request "initialize" (Some initialize_params) 15000 ;;
     if negb (opt_truthy response) then ret false else
     let response := match response with Some r => r | None => JNull end in
     has_error <- lift (py_in "error" response) ;;
     if has_error then ret false else
     has_result <- lift (py_in "result" response) ;;
     if negb has_result then ret false else
     result <- lift (py_getitem response "result") ;;
     fun c1 =>
       let c2 := set_session_state (set_server_info c1 result) INITIALIZED in
       match _send_framed_message (json_dumps initialized_notification) c2 with
       | (true, c3) =>
           (Return true, set_session_state (set_initialized c3 true) ACTIVE)
       | (false, c3) => (Return false, c3)
       end) c.

(** The [params] of a [tools/call] request:
<<
    params = {"name": name}
    if arguments:
        params["arguments"] = arguments
>> *)
Definition tool_call_params (name : string) (arguments : option json)
  : json :=
  let params := [("name", JStr name)]%string in
  match arguments with
  | Some a => if truthy a then JObj (dict_set "arguments" a params)
              else JObj params
  | None => JObj params
  end.

(** [call_tool]:
<<
    response = self.send_request("tools/call", params, timeout)
    if response and "result" in response:
        return response["result"]
    return response
>>
    The value returned is [None] when there is no response and also when
    the [result] of the response is [null]. *)
Definition call_tool (name : string) (arguments : option json)
                     (timeout : Z) : M (option json) :=
  fun c =>
    if negb (initialized c) then (Return None, c) else
    (response <- send_request "tools/call"
                   (Some (tool_call_params name arguments)) timeout ;;
     match response with
     | Some r =>
         if truthy r then
           has_result <- lift (py_in "result" r) ;;
           if has_result then
             result <- lift (py_getitem r "result") ;; ret (optional result)
           else ret response
         else ret response
     | None => ret response
     end) c.

End WithCodec.

(** [disconnect]: [close] may raise, which is swallowed; the [finally]
    clause drops the socket and clears [initialized]. *)
Definition disconnect (c : client) : client :=
  match socket c with
  | Some s =>
      let finally := set_initialized (set_socket c None) false in
      if close s then finally else finally
  | None => c
  end.

(** ** Sending, validation and the session handshake *)

(** The last frame written on the client's socket. *)
Definition last_sent (c : client) : option bytes :=
  match socket c with
  | Some s => last (map Some (tx_log s)) None
  | None => None
  end.

Lemma send_framed_true (data : string) (c c' : client) :
  _send_framed_message data c = (true, c') ->
  exists s s' frame,
    socket c = Some s /\ c' = set_socket c (Some s') /\
    frame_of data = Some frame /\
    tx_log s' = tx_log s ++ [frame] /\ rx s' = rx s.
Proof.
  unfold _send_framed_message.
  destruct (socket c) as [s|] eqn:Es; [|discriminate].
  destruct (send_frame data s) as [sent s'] eqn:Hs.
  intros H. inversion H; subst.
  apply send_frame_true in Hs as (frame & Hf & Hlog & Hrx).
  exists s, s', frame. auto.
Qed.

Lemma send_framed_frame (data : string) (c c' : client) (b : bool) :
  _send_framed_message data c = (b, c') ->
  request_id c' = request_id c /\ initialized c' = initialized c /\
  server_info c' = server_info c /\ session_state c' = session_state c /\
  available_tools c' = available_tools c.
Proof.
  unfold _send_framed_message.
  destruct (socket c) as [s|].
  - destruct (send_frame data s) as [sent s'].
    intros H; inversion H; subst. simpl. auto.
  - intros H; inversion H; subst. auto.
Qed.

(** Whether a send succeeds depends on the socket alone. *)
Lemma send_framed_socket_only (data : string) (c1 c2 : client) :
  socket c1 = socket c2 ->
  fst (_send_framed_message data c1) = fst (_send_framed_message data c2) /\
  socket (snd (_send_framed_message data c1))
  = socket (snd (_send_framed_message data c2)).
Proof.
  unfold _send_framed_message. intros H. rewrite <- H.
  destruct (socket c1) as [s|] eqn:E; [|simpl; split; congruence].
  destruct (send_frame data s) as [sent s']. simpl. auto.
Qed.

Lemma receive_framed_frame (timeout : Z) (c c' : client) (r : option string) :
  _receive_framed_message timeout c = (r, c') ->
  request_id c' = request_id c /\ initialized c' = initialized c /\
  server_info c' = server_info c /\ session_state c' = session_state c /\
  available_tools c' = available_tools c.
Proof.
  unfold _receive_framed_message.
  destruct (socket c) as [s|].
  - destruct (receive_frame timeout s) as [message s'].
    intros H; inversion H; subst. simpl. auto.
  - intros H; inversion H; subst. auto.
Qed.

(** Only a [dict] with ["jsonrpc": "2.0"] passes the validation, and then
    it carries no [id] or one equal to the request's. *)
Lemma validate_response_some (r r' : json) (n : Z) :
  validate_response r n = Return (Some r') ->
  r' = r /\
  exists d, r = JObj d /\
    (exists v, dict_get "jsonrpc" d = Some v /\ py_eq_str v "2.0" = true) /\
    (dict_get "id" d = None \/
     exists v, dict_get "id" d = Some v /\ py_eq_int v n = true).
Proof.
  unfold validate_response.
  destruct r as [| b | z | f | t | l | d]; simpl; try discriminate.
  - destruct (is_substring "jsonrpc" t); simpl; discriminate.
  - destruct (existsb _ l); simpl; discriminate.
  - unfold dict_has.
    destruct (dict_get "jsonrpc" d) as [v|] eqn:Ev; simpl; [|discriminate].
    destruct (py_eq_str v "2.0") eqn:Eq; simpl; [|discriminate].
    destruct (dict_get "id" d) as [w|] eqn:Ei; simpl.
    + destruct (py_eq_int w n) eqn:En; simpl; [|discriminate].
      intros H; inversion H; subst. split; [reflexivity|].
      exists d. split; [reflexivity|]. split; [eauto|]. right. eauto.
    + intros H; inversion H; subst. split; [reflexivity|].
      exists d. split; [reflexivity|]. split; [eauto|]. now left.
Qed.

Lemma validated_is_truthy (r r' : json) (n : Z) :
  validate_response r n = Return (Some r') -> truthy r' = true.
Proof.
  intros H.
  apply validate_response_some in H as (-> & d & -> & (v & Hv & _) & _).
  destruct d; [discriminate | reflexivity].
Qed.

(** ** The length-prefixed receive routine *)

Lemma receive_framed_sound (timeout : Z) (c c' : client) (text : string) :
  _receive_framed_message timeout c = (Some text, c') ->
  exists s s' hdr payload,
    socket c = Some s /\ socket c' = Some s' /\
    length hdr = 4 /\
    Z.of_nat (length payload) = from_bytes_big hdr /\
    (from_bytes_big hdr <= MAX_MESSAGE_LENGTH)%Z /\
    stream_bytes (rx s) = hdr ++ payload ++ stream_bytes (rx s') /\
    decode_utf8 payload = Some text.
Proof.
  unfold _receive_framed_message.
  destruct (socket c) as [s|] eqn:Es; [|discriminate].
  destruct (receive_frame timeout s) as [message s'] eqn:R.
  intros H. inversion H; subst.
  apply receive_frame_sound in R as (hdr & payload & H1 & H2 & H3 & H4 & H5).
  exists s, s', hdr, payload. simpl. auto 10.
Qed.

Lemma receive_framed_complete (timeout : Z) (c : client) (s : tcp_socket)
      (chunks : list bytes) (rest : list rx_event)
      (hdr payload more : bytes) :
  socket c = Some s ->
  Forall nonempty chunks ->
  rx s = delivers chunks rest ->
  to_bytes4_big (Z.of_nat (length payload)) = Some hdr ->
  (Z.of_nat (length payload) <= MAX_MESSAGE_LENGTH)%Z ->
  concat chunks = hdr ++ payload ++ more ->
  exists s',
    _receive_framed_message timeout c
    = (decode_utf8 payload, set_socket c (Some s')) /\
    stream_bytes (rx s') = more ++ stream_bytes rest /\
    tx_log s' = tx_log s.
Proof.
  intros Es Hne Hrx Hhdr Hcap Hcat.
  unfold _receive_framed_message. rewrite Es.
  destruct (@receive_frame_complete timeout s chunks rest hdr payload more
              Hne Hrx Hhdr Hcap Hcat) as (chunks' & -> & _ & Hc).
  eexists. split; [reflexivity|]. simpl.
  now rewrite stream_bytes_delivers, Hc.
Qed.

(** C2. In the length-prefixed framing the receive routine hands over a
    message only after it has read the four header bytes and then exactly
    the [S] payload bytes that the header announces: (1) every message it
    returns is the whole payload of a frame that was taken completely off
    the stream; (2) for every payload size [S] within the limit, also [0]
    and [1], and for every way the transport cuts the stream into
    non-empty [recv] results, the frame is reassembled and the bytes after
    it stay unread; (3) when only a part of a frame arrives, the routine
    returns [None], so that its caller has nothing to parse. *)
Theorem framed_receive_reads_exact_frame :
  (forall (timeout : Z) (c c' : client) (text : string),
      _receive_framed_message timeout c = (Some text, c') ->
      exists s s' hdr payload,
        socket c = Some s /\ socket c' = Some s' /\
        length hdr = 4 /\
        Z.of_nat (length payload) = from_bytes_big hdr /\
        stream_bytes (rx s) = hdr ++ payload ++ stream_bytes (rx s') /\
        decode_utf8 payload = Some text) /\
  (forall (timeout : Z) (c : client) (s : tcp_socket)
          (chunks : list bytes) (rest : list rx_event)
          (hdr payload more : bytes),
      socket c = Some s ->
      Forall nonempty chunks ->
      rx s = delivers chunks rest ->
      to_bytes4_big (Z.of_nat (length payload)) = Some hdr ->
      (Z.of_nat (length payload) <= MAX_MESSAGE_LENGTH)%Z ->
      concat chunks = hdr ++ payload ++ more ->
      exists s',
        _receive_framed_message timeout c
        = (decode_utf8 payload, set_socket c (Some s')) /\
        stream_bytes (rx s') = more ++ stream_bytes rest) /\
  (forall (timeout : Z) (c : client) (s : tcp_socket)
          (hdr payload missing : bytes),
      socket c = Some s ->
      length hdr = 4 ->
      from_bytes_big hdr = Z.of_nat (length payload) ->
      missing <> [] ->
      stream_bytes (rx s) ++ missing = hdr ++ payload ->
      fst (_receive_framed_message timeout c) = None).
Proof.
  split; [|split].
  - intros timeout c c' text H.
    destruct (receive_framed_sound _ _ H)
      as (s & s' & hdr & payload & H1 & H2 & H3 & H4 & _ & H5 & H6).
    exists s, s', hdr, payload. auto 10.
  - intros timeout c s chunks rest hdr payload more H1 H2 H3 H4 H5 H6.
    destruct (@receive_framed_complete timeout c s chunks rest hdr payload
                more H1 H2 H3 H4 H5 H6) as (s' & Hr & Hs & _).
    exists s'. auto.
  - intros timeout c s hdr payload missing Es Hlen Hval Hmiss Hstream.
    unfold _receive_framed_message. rewrite Es.
    pose proof (@receive_frame_partial timeout s hdr payload missing
                  Hlen Hval Hmiss Hstream) as Hp.
    destruct (receive_frame timeout s) as [message s']. simpl in *.
    exact Hp.
Qed.

(** C3. A frame whose header announces more than 1 MiB makes the receive
    routine return [None] after the four header bytes: whatever follows
    the header is still unread on the socket. *)
Theorem oversize_frame_fails_closed
        (timeout : Z) (c : client) (s : tcp_socket)
        (chunks : list bytes) (rest : list rx_event) (hdr more : bytes) :
  socket c = Some s ->
  Forall nonempty chunks ->
  rx s = delivers chunks rest ->
  concat chunks = hdr ++ more ->
  length hdr = 4 ->
  (from_bytes_big hdr > 1024 * 1024)%Z ->
  exists s',
    _receive_framed_message timeout c = (None, set_socket c (Some s')) /\
    stream_bytes (rx s') = more ++ stream_bytes rest.
Proof.
  intros Es Hne Hrx Hcat Hlen Hbig.
  unfold _receive_framed_message. rewrite Es.
  destruct (@receive_frame_oversize timeout s chunks rest hdr more
              Hne Hrx Hcat Hlen Hbig) as (chunks' & -> & _ & Hc).
  eexists. split; [reflexivity|]. simpl.
  now rewrite stream_bytes_delivers, Hc.
Qed.

(** ** [send_request], [initialize], [call_tool] and [disconnect] *)

Section SessionFacts.

Variable json_loads : string -> option json.
Variable json_dumps : json -> string.

Abbreviation send_request := (send_request json_loads json_dumps).
Abbreviation initialize := (initialize json_loads json_dumps).
Abbreviation call_tool := (call_tool json_loads json_dumps).

(** A request touches the socket and the identifier counter only. *)
Lemma send_request_frame (method : string) (params : option json)
      (timeout : Z) (c c' : client) (o : outcome (option json)) :
  send_request method params timeout c = (o, c') ->
  request_id c' = (request_id c + 1)%Z /\
  initialized c' = initialized c /\
  server_info c' = server_info c /\
  session_state c' = session_state c.
Proof.
  unfold SessionClient.send_request, mbind, _get_next_id.
  destruct (_send_framed_message _ _) as [[|] c1] eqn:Es.
  - apply send_framed_frame in Es as (E1 & E2 & E3 & E4 & _). simpl in *.
    destruct (_receive_framed_message timeout c1) as [[text|] c2] eqn:Er;
      apply receive_framed_frame in Er as (F1 & F2 & F3 & F4 & _).
    + destruct (is_empty text); [|destruct (json_loads text)];
        intros H; inversion H; subst; repeat split; congruence.
    + intros H; inversion H; subst; repeat split; congruence.
  - apply send_framed_frame in Es as (E1 & E2 & E3 & E4 & _). simpl in *.
    intros H; inversion H; subst; repeat split; congruence.
Qed.

(** What [send_request] returns has passed the validation against the
    identifier that it allocated. *)
Lemma send_request_some (method : string) (params : option json)
      (timeout : Z) (c c' : client) (r : json) :
  send_request method params timeout c = (Return (Some r), c') ->
  validate_response r (request_id c + 1) = Return (Some r).
Proof.
  unfold SessionClient.send_request, mbind, _get_next_id.
  destruct (_send_framed_message _ _) as [[|] c1]; [|discriminate].
  destruct (_receive_framed_message timeout c1) as [[text|] c2];
    [|discriminate].
  destruct (is_empty text); [discriminate|].
  destruct (json_loads text) as [resp|]; [|discriminate].
  intros H. injection H as Hv Hc.
  pose proof (validate_response_some _ _ Hv) as [E _]. subst r. exact Hv.
Qed.

(** [initialize], case by case on the outcome of the request. *)
Lemma initialize_cases (c : client) :
  initialized c = false ->
  match send_request "initialize" (Some initialize_params) 15000 c with
  | (Raise e, c1) => initialize c = (Raise e, c1)
  | (Return None, c1) => initialize c = (Return false, c1)
  | (Return (Some r), c1) =>
      exists d, r = JObj d /\
        if dict_has "error" d then initialize c = (Return false, c1)
        else match dict_get "result" d with
             | None => initialize c = (Return false, c1)
             | Some result =>
                 let c2 := set_session_state (set_server_info c1 result)
                                             INITIALIZED in
                 match _send_framed_message
                         (json_dumps initialized_notification) c2 with
                 | (true, c3) =>
                     initialize c
                     = (Return true,
                        set_session_state (set_initialized c3 true) ACTIVE)
                 | (false, c3) => initialize c = (Return false, c3)
                 end
             end
  end.
Proof.
  intros Hi. unfold SessionClient.initialize. rewrite Hi.
  unfold mbind, lift, ret.
  destruct (send_request "initialize" (Some initialize_params) 15000 c)
    as [[[r|]|e] c1] eqn:Er; try reflexivity.
  pose proof (send_request_some _ _ _ _ Er) as Hv.
  pose proof (validated_is_truthy _ _ Hv) as Ht.
  apply validate_response_some in Hv as (_ & d & -> & _).
  exists d. split; [reflexivity|].
  cbn [opt_truthy]. rewrite Ht. cbn [negb py_in py_getitem].
  destruct (dict_has "error" d) eqn:He; [reflexivity|].
  unfold dict_has. destruct (dict_get "result" d) as [result|] eqn:Eres;
    cbn [negb]; [|reflexivity].
  cbv zeta.
  destruct (_send_framed_message _ _) as [[|] c3]; reflexivity.
Qed.

(** When the [initialized] notification cannot be sent, [initialize]
    returns [False] and leaves the session [INITIALIZED]. *)
Lemma initialize_notification_not_sent (c c1 : client) (response : json) :
  initialized c = false ->
  send_request "initialize" (Some initialize_params) 15000 c
  = (Return (Some response), c1) ->
  py_in "error" response = Return false ->
  py_in "result" response = Return true ->
  fst (_send_framed_message (json_dumps initialized_notification) c1)
  = false ->
  exists c',
    initialize c = (Return false, c') /\
    session_state c' = INITIALIZED /\
    session_state c' <> ACTIVE /\
    initialized c' = false.
Proof.
  intros Hi Er Herr Hres Hfail.
  pose proof (initialize_cases c Hi) as Hc. rewrite Er in Hc.
  destruct Hc as (d & -> & Hc). simpl in Herr, Hres.
  inversion Herr as [He]. inversion Hres as [Hr]. rewrite He in Hc.
  unfold dict_has in Hr.
  destruct (dict_get "result" d) as [result|]; [|discriminate].
  cbv zeta in Hc.
  pose proof (@send_framed_socket_only
                (json_dumps initialized_notification)
                (set_session_state (set_server_info c1 result) INITIALIZED)
                c1 eq_refl) as [Hfst _].
  destruct (_send_framed_message _
              (set_session_state (set_server_info c1 result) INITIALIZED))
    as [[|] c3] eqn:Es.
  - simpl in Hfst. congruence.
  - exists c3. apply send_framed_frame in Es as (_ & Hin & _ & Hs3 & _).
    simpl in Hs3, Hin.
    pose proof (send_request_frame _ _ _ _ Er) as (_ & Hi1 & _ & _).
    repeat split; auto; congruence.
Qed.

(** C4. [initialize] makes the session [ACTIVE] only on the path where
    the [initialize] response carried no [error] and the [initialized]
    notification was written to the socket (it is the last frame sent);
    and when that notification cannot be sent, [initialize] returns
    [False] with the session left [INITIALIZED], not [ACTIVE]. *)
Theorem initialize_active_only_after_notification :
  (forall (c c' : client) (o : outcome bool),
      initialize c = (o, c') ->
      session_state c' = ACTIVE ->
      session_state c <> ACTIVE ->
      o = Return true /\ initialized c' = true /\
      exists response c1 frame,
        send_request "initialize" (Some initialize_params) 15000 c
        = (Return (Some response), c1) /\
        py_in "error" response = Return false /\
        frame_of (json_dumps initialized_notification) = Some frame /\
        last_sent c' = Some frame) /\
  (forall (c c1 : client) (response : json),
      initialized c = false ->
      send_request "initialize" (Some initialize_params) 15000 c
      = (Return (Some response), c1) ->
      py_in "error" response = Return false ->
      py_in "result" response = Return true ->
      fst (_send_framed_message (json_dumps initialized_notification) c1)
      = false ->
      exists c',
        initialize c = (Return false, c') /\
        session_state c' = INITIALIZED /\
        session_state c' <> ACTIVE /\
        initialized c' = false).
Proof.
  split.
  - intros c c' o Hrun Hact Hpre.
    destruct (initialized c) eqn:Hi.
    { unfold SessionClient.initialize in Hrun. rewrite Hi in Hrun.
      inversion Hrun; subst. contradiction. }
    pose proof (initialize_cases c Hi) as Hc.
    destruct (send_request "initialize" (Some initialize_params) 15000 c)
      as [[[r|]|e] c1] eqn:Er;
      pose proof (send_request_frame _ _ _ _ Er) as (_ & _ & _ & Hst).
    + destruct Hc as (d & -> & Hc).
      destruct (dict_has "error" d) eqn:He.
      { rewrite Hc in Hrun. inversion Hrun; subst. congruence. }
      destruct (dict_get "result" d) as [result|] eqn:Eres.
      2:{ rewrite Hc in Hrun. inversion Hrun; subst. congruence. }
      cbv zeta in Hc.
      destruct (_send_framed_message _ _) as [[|] c3] eqn:Es.
      * rewrite Hc in Hrun. inversion Hrun; subst. clear Hrun.
        split; [reflexivity|]. split; [reflexivity|].
        apply send_framed_true in Es
          as (s & s' & frame & Hs & -> & Hf & Hlog & _).
        exists (JObj d), c1, frame. repeat split; auto.
        -- simpl. now rewrite He.
        -- unfold last_sent. simpl. rewrite Hlog, map_app. simpl.
           now rewrite last_last.
      * rewrite Hc in Hrun. inversion Hrun; subst.
        apply send_framed_frame in Es as (_ & _ & _ & Hs3 & _).
        simpl in Hs3. congruence.
    + rewrite Hc in Hrun. inversion Hrun; subst. congruence.
    + rewrite Hc in Hrun. inversion Hrun; subst. congruence.
  - intros c c1 response Hi Er Herr Hres Hfail.
    now apply initialize_notification_not_sent
      with (c1 := c1) (response := response).
Qed.

(** [initialize] never writes [ERROR_STATE]. *)
Lemma initialize_never_sets_error_state (c c' : client) (o : outcome bool) :
  initialize c = (o, c') ->
  session_state c' = ERROR_STATE -> session_state c = ERROR_STATE.
Proof.
  intros Hrun Herr.
  destruct (initialized c) eqn:Hi.
  { unfold SessionClient.initialize in Hrun. rewrite Hi in Hrun.
    inversion Hrun; subst. exact Herr. }
  pose proof (initialize_cases c Hi) as Hc.
  destruct (send_request "initialize" (Some initialize_params) 15000 c)
    as [[[r|]|e] c1] eqn:Er;
    pose proof (send_request_frame _ _ _ _ Er) as (_ & _ & _ & Hst).
  - destruct Hc as (d & -> & Hc).
    destruct (dict_has "error" d).
    { rewrite Hc in Hrun. inversion Hrun; subst. congruence. }
    destruct (dict_get "result" d) as [result|].
    2:{ rewrite Hc in Hrun. inversion Hrun; subst. congruence. }
    cbv zeta in Hc.
    destruct (_send_framed_message _ _) as [[|] c3] eqn:Es;
      rewrite Hc in Hrun; inversion Hrun; subst.
    + discriminate.
    + apply send_framed_frame in Es as (_ & _ & _ & Hs3 & _).
      simpl in Hs3. congruence.
  - rewrite Hc in Hrun. inversion Hrun; subst. congruence.
  - rewrite Hc in Hrun. inversion Hrun; subst. congruence.
Qed.

(** C5, as the code has it. When a step of [initialize] fails,
    [initialize] returns [False] and does not raise; the session state is
    left as it was when there is no response or the response carries an
    [error], it is [INITIALIZED] when the [initialized] notification could
    not be sent, and [initialize] never writes [ERROR_STATE]. *)
Theorem initialize_failure_returns_false
        (c c1 : client) (o : option json) :
  initialized c = false ->
  send_request "initialize" (Some initialize_params) 15000 c
  = (Return o, c1) ->
  (o = None ->
   initialize c = (Return false, c1) /\
   session_state c1 = session_state c) /\
  (forall r, o = Some r -> py_in "error" r = Return true ->
   initialize c = (Return false, c1) /\
   session_state c1 = session_state c) /\
  (forall r, o = Some r -> py_in "error" r = Return false ->
   py_in "result" r = Return true ->
   fst (_send_framed_message (json_dumps initialized_notification) c1)
   = false ->
   exists c', initialize c = (Return false, c') /\
              session_state c' = INITIALIZED) /\
  (forall o' c', initialize c = (o', c') ->
   session_state c' = ERROR_STATE -> session_state c = ERROR_STATE).
Proof.
  intros Hi Er.
  pose proof (initialize_cases c Hi) as Hc. rewrite Er in Hc.
  pose proof (send_request_frame _ _ _ _ Er) as (_ & _ & _ & Hst).
  split; [|split; [|split]].
  - intros ->. split; [exact Hc | exact Hst].
  - intros r -> Herr. split; [|exact Hst].
    destruct Hc as (d & -> & Hc). simpl in Herr.
    inversion Herr as [He]. now rewrite He in Hc.
  - intros r -> Herr Hres Hfail.
    destruct (initialize_notification_not_sent c Hi Er Herr Hres Hfail)
      as (c' & H1 & H2 & _).
    exists c'. auto.
  - intros o' c'. apply initialize_never_sets_error_state.
Qed.

(** [call_tool] on a response without [result]: the response itself,
    whole, is what the caller gets. *)
Lemma call_tool_returns_response (name : string) (arguments : option json)
      (timeout : Z) (c c1 : client) (r : json) :
  initialized c = true ->
  send_request "tools/call" (Some (tool_call_params name arguments)) timeout c
  = (Return (Some r), c1) ->
  py_in "result" r = Return false ->
  call_tool name arguments timeout c = (Return (Some r), c1).
Proof.
  intros Hi Er Hres. unfold SessionClient.call_tool. rewrite Hi. cbn [negb].
  unfold mbind, lift, ret. rewrite Er.
  pose proof (send_request_some _ _ _ _ Er) as Hv.
  rewrite (validated_is_truthy _ _ Hv), Hres. reflexivity.
Qed.

Lemma call_tool_no_response (name : string) (arguments : option json)
      (timeout : Z) (c c1 : client) :
  initialized c = true ->
  send_request "tools/call" (Some (tool_call_params name arguments)) timeout c
  = (Return None, c1) ->
  call_tool name arguments timeout c = (Return None, c1).
Proof.
  intros Hi Er. unfold SessionClient.call_tool. rewrite Hi. cbn [negb].
  unfold mbind, lift, ret. now rewrite Er.
Qed.

(** [send_request] reads one frame: when the request was sent and a whole
    frame within the limit arrives first, the outcome is decided by that
    frame alone, and what follows it stays unread on the socket. *)
Lemma send_request_first_frame (method : string) (params : option json)
      (timeout : Z) (c c1 : client) (s : tcp_socket)
      (chunks : list bytes) (rest : list rx_event)
      (hdr payload more : bytes) (text : string) :
  socket c = Some s ->
  _send_framed_message
    (json_dumps (build_request method params (request_id c + 1)))
    (set_request_id c (request_id c + 1)) = (true, c1) ->
  Forall nonempty chunks ->
  rx s = delivers chunks rest ->
  to_bytes4_big (Z.of_nat (length payload)) = Some hdr ->
  (Z.of_nat (length payload) <= MAX_MESSAGE_LENGTH)%Z ->
  concat chunks = hdr ++ payload ++ more ->
  decode_utf8 payload = Some text ->
  text <> EmptyString ->
  exists c',
    send_request method params timeout c
    = (match json_loads text with
       | Some response => validate_response response (request_id c + 1)
       | None => Return None
       end, c') /\
    exists s', socket c' = Some s' /\
               stream_bytes (rx s') = more ++ stream_bytes rest.
Proof.
  intros Es Hsend Hne Hrx Hhdr Hcap Hcat Hdec Htext.
  unfold SessionClient.send_request, mbind, _get_next_id.
  rewrite Hsend.
  apply send_framed_true in Hsend
    as (s0 & s2 & frame & Es0 & -> & _ & _ & Hrx2).
  simpl in Es0. rewrite Es in Es0. inversion Es0; subst s0.
  destruct (@receive_framed_complete timeout
              (set_socket (set_request_id c (request_id c + 1)) (Some s2))
              s2 chunks rest hdr payload more eq_refl Hne)
    as (s' & Hr & Hstream & _); auto.
  { congruence. }
  rewrite Hr, Hdec.
  destruct (is_empty text) eqn:Hem.
  { apply String.eqb_eq in Hem. contradiction. }
  eexists. split.
  - destruct (json_loads text); reflexivity.
  - exists s'. split; [reflexivity | exact Hstream].
Qed.

End SessionFacts.

(** ** [disconnect] *)

Lemma disconnect_drops_socket (c : client) : socket (disconnect c) = None.
Proof.
  unfold disconnect. destruct (socket c) as [s|] eqn:E; [|exact E].
  destruct (close s); reflexivity.
Qed.

Lemma disconnect_idempotent (c : client) :
  disconnect (disconnect c) = disconnect c.
Proof.
  unfold disconnect at 1. now rewrite disconnect_drops_socket.
Qed.

Lemma disconnect_clears_initialized (c : client) :
  socket c <> None -> initialized (disconnect c) = false.
Proof.
  unfold disconnect. destruct (socket c) as [s|]; [|congruence].
  destruct (close s); reflexivity.
Qed.

Lemma disconnect_keeps_session_state (c : client) :
  session_state (disconnect c) = session_state c.
Proof.
  unfold disconnect. destruct (socket c) as [s|]; [|reflexivity].
  destruct (close s); reflexivity.
Qed.

(** ** [list_tools], [ping] and runs of several requests *)

Definition set_available_tools (c : client) (v : json) : client :=
  mkClient (socket c) (request_id c) (initialized c) (server_info c)
           v (session_state c).

(** One call of [send_request]: method, params and timeout. *)
Definition request_call : Type := (string * option json * Z)%type.

Section MoreMethods.

Variable json_loads : string -> option json.
Variable json_dumps : json -> string.

(** [list_tools]:
<<
    if not self.initialized:
        return []
    response = self.send_request("tools/list")
    if response and "result" in response and "tools" in response["result"]:
        self.available_tools = response["result"]["tools"]
        return self.available_tools
    return []
>> *)
Definition list_tools : M json :=
  fun c =>
    if negb (initialized c) then (Return (JArr []), c) else
    (response <- send_request json_loads json_dumps "tools/list" None 10000 ;;
     if negb (opt_truthy response) then ret (JArr []) else
     let response := match response with Some r => r | None => JNull end in
     has_result <- lift (py_in "result" response) ;;
     if negb has_result then ret (JArr []) else
     result <- lift (py_getitem response "result") ;;
     has_tools <- lift (py_in "tools" result) ;;
     if negb has_tools then ret (JArr []) else
     result <- lift (py_getitem response "result") ;;
     tools <- lift (py_getitem result "tools") ;;
     fun c1 => (Return tools, set_available_tools c1 tools)) c.

(** [ping]:
<<
    if not self.initialized:
        return False
    response = self.send_request("ping", timeout=5.0)
    return response is not None and "result" in response
>> *)
Definition ping : M bool :=
  fun c =>
    if negb (initialized c) then (Return false, c) else
    (response <- send_request json_loads json_dumps "ping" None 5000 ;;
     match response with
     | None => ret false
     | Some r => lift (py_in "result" r)
     end) c.

(** [send_request] called once for each element of [calls], in order, by
    a caller that looks at every outcome. *)
Fixpoint send_requests (calls : list request_call) (c : client)
  : list (outcome (option json)) * client :=
  match calls with
  | [] => ([], c)
  | (method, params, timeout) :: calls' =>
      let (o, c1) :=
        send_request json_loads json_dumps method params timeout c in
      let (os, c2) := send_requests calls' c1 in
      (o :: os, c2)
  end.

End MoreMethods.

(** X1. A message written by [_send_framed_message] is what
    [_receive_framed_message] hands over at the other end: when the text
    is well-formed UTF-8 of at most 1 MiB and the send succeeded, then
    for every way the transport cuts the written frame into non-empty
    [recv] results the receiver returns the very text that was sent and
    leaves what follows the frame unread. *)
Theorem framed_message_round_trip
        (data : string) (sender sender' : client) :
  _send_framed_message data sender = (true, sender') ->
  utf8_valid (encode_utf8 data) = true ->
  (Z.of_nat (length (encode_utf8 data)) <= MAX_MESSAGE_LENGTH)%Z ->
  exists frame,
    last_sent sender' = Some frame /\
    forall (timeout : Z) (receiver : client) (s : tcp_socket)
           (chunks : list bytes) (rest : list rx_event) (more : bytes),
      socket receiver = Some s ->
      Forall nonempty chunks ->
      rx s = delivers chunks rest ->
      concat chunks = frame ++ more ->
      exists s',
        _receive_framed_message timeout receiver
        = (Some data, set_socket receiver (Some s')) /\
        stream_bytes (rx s') = more ++ stream_bytes rest.
Proof.
  intros Hsend Hutf Hcap.
  apply send_framed_true in Hsend
    as (s0 & s1 & frame & Es0 & -> & Hf & Hlog & _).
  exists frame. split.
  { unfold last_sent. simpl. rewrite Hlog, map_app. simpl.
    now rewrite last_last. }
  intros timeout receiver s chunks rest more Es Hne Hrx Hcat.
  unfold frame_of in Hf.
  destruct (to_bytes4_big (Z.of_nat (length (encode_utf8 data))))
    as [hdr|] eqn:Hhdr; [|discriminate].
  inversion Hf; subst frame. rewrite <- app_assoc in Hcat.
  destruct (@receive_framed_complete timeout receiver s chunks rest hdr
              (encode_utf8 data) more Es Hne Hrx Hhdr Hcap Hcat)
    as (s' & Hr & Hs & _).
  exists s'. rewrite Hr, (decode_encode_utf8 _ Hutf). auto.
Qed.

(** X21. [_send_framed_message] has no limit of its own below the four
    bytes of the prefix: a message of more than 1 MiB is written as one
    frame, and [_receive_framed_message] refuses that frame after its
    header, so that the whole payload is left on the socket, where the
    next call will read its first four bytes as a length prefix. *)
Theorem oversize_message_is_sent_but_refused
        (data : string) (sender sender' : client) :
  _send_framed_message data sender = (true, sender') ->
  (Z.of_nat (length (encode_utf8 data)) > MAX_MESSAGE_LENGTH)%Z ->
  exists frame,
    last_sent sender' = Some frame /\
    forall (timeout : Z) (receiver : client) (s : tcp_socket)
           (chunks : list bytes) (rest : list rx_event) (more : bytes),
      socket receiver = Some s ->
      Forall nonempty chunks ->
      rx s = delivers chunks rest ->
      concat chunks = frame ++ more ->
      exists s',
        _receive_framed_message timeout receiver
        = (None, set_socket receiver (Some s')) /\
        stream_bytes (rx s')
        = encode_utf8 data ++ more ++ stream_bytes rest.
Proof.
  intros Hsend Hbig.
  apply send_framed_true in Hsend
    as (s0 & s1 & frame & Es0 & -> & Hf & Hlog & _).
  exists frame. split.
  { unfold last_sent. simpl. rewrite Hlog, map_app. simpl.
    now rewrite last_last. }
  intros timeout receiver s chunks rest more Es Hne Hrx Hcat.
  unfold frame_of in Hf.
  destruct (to_bytes4_big (Z.of_nat (length (encode_utf8 data))))
    as [hdr|] eqn:Hhdr; [|discriminate].
  inversion Hf; subst frame. rewrite <- app_assoc in Hcat.
  apply from_to_bytes4 in Hhdr as [Hval Hlen].
  unfold _receive_framed_message. rewrite Es.
  destruct (@receive_frame_oversize timeout s chunks rest hdr
              (encode_utf8 data ++ more) Hne Hrx Hcat Hlen)
    as (chunks' & -> & _ & Hc).
  { rewrite Hval. exact Hbig. }
  eexists. split; [reflexivity|]. simpl.
  now rewrite stream_bytes_delivers, Hc, <- app_assoc.
Qed.

Section MoreSessionFacts.

Variable json_loads : string -> option json.
Variable json_dumps : json -> string.

Abbreviation send_request := (send_request json_loads json_dumps).
Abbreviation initialize := (initialize json_loads json_dumps).
Abbreviation call_tool := (call_tool json_loads json_dumps).
Abbreviation list_tools := (list_tools json_loads json_dumps).
Abbreviation ping := (ping json_loads json_dumps).
Abbreviation send_requests := (send_requests json_loads json_dumps).


(** X2. Whatever [send_request] returns as a response is a [dict] with
    ["jsonrpc"] equal to ["2.0"] whose ["id"], when it has one, equals
    the identifier allocated for this request; and a response is returned
    only after the request itself was written to the socket, as one
    frame. *)
Theorem send_request_result_matches_request
        (method : string) (params : option json) (timeout : Z)
        (c c' : client) (r : json) :
  send_request method params timeout c = (Return (Some r), c') ->
  (exists d, r = JObj d /\
     (exists v, dict_get "jsonrpc" d = Some v /\ py_eq_str v "2.0" = true) /\
     (dict_get "id" d = None \/
      exists v, dict_get "id" d = Some v /\
                py_eq_int v (request_id c + 1) = true)) /\
  exists s s' frame,
    socket c = Some s /\ socket c' = Some s' /\
    frame_of (json_dumps (build_request method params (request_id c + 1)))
    = Some frame /\
    tx_log s' = (tx_log s ++ [frame])%list.
Proof.
  intros H. split.
  { pose proof (send_request_some _ _ _ _ _ _ H) as Hv.
    apply validate_response_some in Hv as (_ & Hd). exact Hd. }
  revert H. unfold SessionClient.send_request, mbind, _get_next_id.
  destruct (_send_framed_message _ _) as [[|] c1] eqn:Es; [|discriminate].
  apply send_framed_true in Es as (s & s1 & frame & Hs & -> & Hf & Hlog & _).
  unfold _receive_framed_message. cbn [socket set_socket].
  pose proof (receive_frame_keeps_tx timeout s1) as [Hk _].
  destruct (receive_frame timeout s1) as [[text|] s2]; [|discriminate].
  destruct (is_empty text); [discriminate|].
  destruct (json_loads text); [|discriminate].
  intros H. inversion H; subst. exists s, s2, frame. simpl in *.
  repeat split; auto. congruence.
Qed.

(** X3. A response frame whose JSON text is [null], a boolean or a
    number makes [send_request] raise [TypeError] (the membership test on
    it is outside what the [except json.JSONDecodeError] clause catches),
    and [initialize] and [call_tool] let that exception through. *)
Theorem scalar_response_raises_type_error
        (method : string) (params : option json) (timeout : Z)
        (c c1 : client) (s : tcp_socket)
        (chunks : list bytes) (rest : list rx_event)
        (hdr payload more : bytes) (text : string) (v : json) :
  socket c = Some s ->
  _send_framed_message
    (json_dumps (build_request method params (request_id c + 1)))
    (set_request_id c (request_id c + 1)) = (true, c1) ->
  Forall nonempty chunks ->
  rx s = delivers chunks rest ->
  to_bytes4_big (Z.of_nat (length payload)) = Some hdr ->
  (Z.of_nat (length payload) <= MAX_MESSAGE_LENGTH)%Z ->
  concat chunks = (hdr ++ payload ++ more)%list ->
  decode_utf8 payload = Some text ->
  text <> EmptyString ->
  json_loads text = Some v ->
  (v = JNull \/ (exists b, v = JBool b) \/ (exists z, v = JInt z) \/
   exists f, v = JFloat f) ->
  exists c',
    send_request method params timeout c = (Raise TypeError, c') /\
    (initialized c = false -> method = "initialize"%string ->
     params = Some initialize_params -> timeout = 15000%Z ->
     initialize c = (Raise TypeError, c')) /\
    (initialized c = true ->
     forall name arguments,
       method = "tools/call"%string ->
       params = Some (tool_call_params name arguments) ->
       call_tool name arguments timeout c = (Raise TypeError, c')).
Proof.
  intros Es Hsend Hne Hrx Hhdr Hcap Hcat Hdec Htext Hload Hv.
  destruct (@send_request_first_frame json_loads json_dumps method params
              timeout c c1 s chunks rest hdr payload more text
              Es Hsend Hne Hrx Hhdr Hcap Hcat Hdec Htext)
    as (c' & Hr & _).
  rewrite Hload in Hr.
  assert (Hraise : validate_response v (request_id c + 1) = Raise TypeError).
  { destruct Hv as [-> | [[b ->] | [[z ->] | [f ->]]]]; reflexivity. }
  rewrite Hraise in Hr. exists c'. split; [exact Hr|]. split.
  - intros Hi -> -> ->.
    pose proof (initialize_cases json_loads json_dumps c Hi) as Hc.
    rewrite Hr in Hc. exact Hc.
  - intros Hi name arguments -> ->.
    unfold SessionClient.call_tool. rewrite Hi. cbn [negb].
    unfold mbind. now rewrite Hr.
Qed.

(** X4. Every call of [send_request] uses up exactly one identifier,
    whatever its outcome (not connected, send failure, timeout, invalid
    response, exception): after [n] calls the counter has advanced by
    [n], and there is one outcome per call. *)
Theorem send_requests_consume_identifiers (calls : list request_call) :
  forall c : client,
    request_id (snd (send_requests calls c))
    = (request_id c + Z.of_nat (length calls))%Z /\
    length (fst (send_requests calls c)) = length calls /\
    initialized (snd (send_requests calls c)) = initialized c /\
    session_state (snd (send_requests calls c)) = session_state c.
Proof.
  induction calls as [|[[method params] timeout] calls IH]; intros c.
  - simpl. repeat split; auto. lia.
  - cbn [SessionClient.send_requests].
    destruct (send_request method params timeout c) as [o c1] eqn:E1.
    apply send_request_frame in E1 as (Hid & Hin & _ & Hst).
    specialize (IH c1).
    destruct (send_requests calls c1) as [os c2]. simpl in *.
    destruct IH as (I1 & I2 & I3 & I4).
    repeat split; try congruence; lia.
Qed.

(** X5. [initialize] takes effect once: when it has returned [True] the
    client is marked initialized, and calling it again returns [True]
    without sending anything and without changing the client; on the
    call that did the handshake the session became [ACTIVE] and
    [server_info] is the [result] member of the response. *)
Theorem initialize_succeeds_once (c c' : client) :
  initialize c = (Return true, c') ->
  initialized c' = true /\
  initialize c' = (Return true, c') /\
  (initialized c = false ->
   session_state c' = ACTIVE /\
   request_id c' = (request_id c + 1)%Z /\
   exists d c1,
     send_request "initialize" (Some initialize_params) 15000 c
     = (Return (Some (JObj d)), c1) /\
     dict_get "result" d = Some (server_info c')).
Proof.
  intros Hrun.
  destruct (initialized c) eqn:Hi.
  { unfold SessionClient.initialize in Hrun. rewrite Hi in Hrun.
    inversion Hrun; subst c'. split; [exact Hi|]. split; [|discriminate].
    unfold SessionClient.initialize. now rewrite Hi. }
  pose proof (initialize_cases json_loads json_dumps c Hi) as Hc.
  destruct (send_request "initialize" (Some initialize_params) 15000 c)
    as [[[r|]|e] c1] eqn:Er;
    try (rewrite Hc in Hrun; discriminate).
  pose proof (send_request_frame _ _ _ _ _ _ Er) as (Hid & _ & _ & _).
  destruct Hc as (d & -> & Hc).
  destruct (dict_has "error" d); [rewrite Hc in Hrun; discriminate|].
  destruct (dict_get "result" d) as [result|] eqn:Eres;
    [|rewrite Hc in Hrun; discriminate].
  cbv zeta in Hc.
  destruct (_send_framed_message _ _) as [[|] c3] eqn:Es;
    rewrite Hc in Hrun; [|discriminate].
  inversion Hrun; subst c'. clear Hrun.
  apply send_framed_frame in Es as (E1 & _ & E3 & _ & _). simpl in E1, E3.
  split; [reflexivity|]. split.
  { unfold SessionClient.initialize. reflexivity. }
  intros _. split; [reflexivity|]. split; [simpl; congruence|].
  exists d, c1. split; [reflexivity|]. simpl. congruence.
Qed.

(** X6. After [disconnect] on a connected client every operation fails
    without raising and without touching a socket: [send_request] and
    [initialize] return [None] and [False] (having used up one
    identifier), [call_tool], [list_tools] and [ping] return [None], [[]]
    and [False] and leave the client as it is. *)
Theorem operations_after_disconnect_fail_cleanly (c : client) :
  socket c <> None ->
  (forall method params timeout,
      send_request method params timeout (disconnect c)
      = (Return None,
         set_request_id (disconnect c) (request_id c + 1))) /\
  initialize (disconnect c)
  = (Return false, set_request_id (disconnect c) (request_id c + 1)) /\
  (forall name arguments timeout,
      call_tool name arguments timeout (disconnect c)
      = (Return None, disconnect c)) /\
  list_tools (disconnect c) = (Return (JArr []), disconnect c) /\
  ping (disconnect c) = (Return false, disconnect c).
Proof.
  intros Hs. unfold disconnect.
  destruct (socket c) as [s|] eqn:Es; [|congruence].
  destruct (close s); repeat split; intros; reflexivity.
Qed.

(** What [list_tools] does with a response from the server. *)
Lemma list_tools_cases (c c1 : client) (r : json) :
  initialized c = true ->
  send_request "tools/list" None 10000 c = (Return (Some r), c1) ->
  exists d, r = JObj d /\
    list_tools c
    = match dict_get "result" d with
      | None => (Return (JArr []), c1)
      | Some result =>
          match py_in "tools" result with
          | Raise e => (Raise e, c1)
          | Return false => (Return (JArr []), c1)
          | Return true =>
              match py_getitem result "tools" with
              | Raise e => (Raise e, c1)
              | Return tools => (Return tools, set_available_tools c1 tools)
              end
          end
      end.
Proof.
  intros Hi Er.
  pose proof (send_request_some _ _ _ _ _ _ Er) as Hv.
  pose proof (validated_is_truthy _ _ Hv) as Ht.
  apply validate_response_some in Hv as (_ & d & -> & _).
  exists d. split; [reflexivity|].
  unfold SessionClient.list_tools. rewrite Hi. cbn [negb].
  unfold mbind, lift, ret. rewrite Er.
  cbn [opt_truthy]. rewrite Ht. cbn [negb py_in py_getitem].
  unfold dict_has. destruct (dict_get "result" d) as [result|]; cbn [negb];
    [|reflexivity].
  destruct (py_in "tools" result) as [[|]|e]; cbn [negb]; reflexivity.
Qed.

(** X7. [list_tools] replaces the cached tool list only by the [tools]
    member of a response's [result]: whenever it returns, either it
    returned [result["tools"]] and that value is now [available_tools],
    or it returned the empty list and [available_tools] is what it was
    before the call, so a failed listing leaves the earlier list in
    place. A [result] that is [null] makes it raise [TypeError]. *)
Theorem list_tools_keeps_cache_on_failure :
  (forall (c c' : client) (tools : json),
      list_tools c = (Return tools, c') ->
      (available_tools c' = tools /\
       exists d rd c1,
         send_request "tools/list" None 10000 c
         = (Return (Some (JObj d)), c1) /\
         dict_get "result" d = Some (JObj rd) /\
         dict_get "tools" rd = Some tools) \/
      (tools = JArr [] /\ available_tools c' = available_tools c)) /\
  (forall (c c1 : client) (d : dict),
      initialized c = true ->
      send_request "tools/list" None 10000 c
      = (Return (Some (JObj d)), c1) ->
      dict_get "result" d = Some JNull ->
      list_tools c = (Raise TypeError, c1)).
Proof.
  split.
  - intros c c' tools Hrun.
    destruct (initialized c) eqn:Hi.
    2:{ unfold SessionClient.list_tools in Hrun. rewrite Hi in Hrun.
        inversion Hrun; subst. now right. }
    destruct (send_request "tools/list" None 10000 c)
      as [[[r|]|e] c1] eqn:Er.
    + assert (Hav : available_tools c1 = available_tools c).
      { revert Er. unfold SessionClient.send_request, mbind, _get_next_id.
        destruct (_send_framed_message _ _) as [[|] c2] eqn:Es;
          [|discriminate].
        apply send_framed_frame in Es as (_ & _ & _ & _ & A1).
        destruct (_receive_framed_message 10000 c2) as [[text|] c3] eqn:Rr;
          [|discriminate].
        apply receive_framed_frame in Rr as (_ & _ & _ & _ & A2).
        destruct (is_empty text); [discriminate|].
        destruct (json_loads text); [|discriminate].
        intros H; inversion H; subst. simpl in A1. congruence. }
      destruct (list_tools_cases c Hi Er) as (d & -> & Hc).
      rewrite Hc in Hrun.
      destruct (dict_get "result" d) as [result|] eqn:Eres.
      2:{ inversion Hrun; subst. right. auto. }
      destruct (py_in "tools" result) as [[|]|e] eqn:Ein;
        [| inversion Hrun; subst; right; auto | discriminate].
      destruct (py_getitem result "tools") as [t|e] eqn:Eg; [|discriminate].
      inversion Hrun; subst. left. split; [reflexivity|].
      destruct result as [| | | | | |rd]; try discriminate.
      simpl in Eg. destruct (dict_get "tools" rd) as [t'|] eqn:Et;
        [|discriminate].
      inversion Eg; subst. exists d, rd, c1. auto.
    + assert (Hav : available_tools c1 = available_tools c).
      { revert Er. unfold SessionClient.send_request, mbind, _get_next_id.
        destruct (_send_framed_message _ _) as [[|] c2] eqn:Es.
        - apply send_framed_frame in Es as (_ & _ & _ & _ & A1).
          destruct (_receive_framed_message 10000 c2) as [[text|] c3] eqn:Rr;
            apply receive_framed_frame in Rr as (_ & _ & _ & _ & A2).
          + destruct (is_empty text); [|destruct (json_loads text)];
              intros H; inversion H; subst; simpl in A1; congruence.
          + intros H; inversion H; subst; simpl in A1; congruence.
        - apply send_framed_frame in Es as (_ & _ & _ & _ & A1).
          intros H; inversion H; subst; simpl in A1; congruence. }
      unfold SessionClient.list_tools in Hrun. rewrite Hi in Hrun.
      cbn [negb] in Hrun. unfold mbind, ret in Hrun. rewrite Er in Hrun.
      simpl in Hrun. inversion Hrun; subst. right. auto.
    + unfold SessionClient.list_tools in Hrun. rewrite Hi in Hrun.
      cbn [negb] in Hrun. unfold mbind in Hrun. rewrite Er in Hrun.
      discriminate.
  - intros c c1 d Hi Er Hnull.
    destruct (list_tools_cases c Hi Er) as (d' & Hd & Hc).
    inversion Hd; subst d'. rewrite Hc, Hnull. reflexivity.
Qed.

(** A request whose frame fits the prefix, sent on a socket on which
    every send succeeds, with a whole frame arriving first: the outcome
    is decided by that frame, and the socket is left with the rest of
    the stream and with every later send still succeeding. *)
Lemma send_request_reads_one_frame
      (method : string) (params : option json) (timeout : Z)
      (c : client) (s : tcp_socket)
      (chunks : list bytes) (rest : list rx_event)
      (hdr payload more : bytes) (text : string) :
  socket c = Some s ->
  tx_plan s = [] ->
  frame_of (json_dumps (build_request method params (request_id c + 1)))
  <> None ->
  Forall nonempty chunks ->
  rx s = delivers chunks rest ->
  to_bytes4_big (Z.of_nat (length payload)) = Some hdr ->
  (Z.of_nat (length payload) <= MAX_MESSAGE_LENGTH)%Z ->
  concat chunks = (hdr ++ payload ++ more)%list ->
  decode_utf8 payload = Some text ->
  text <> EmptyString ->
  exists s' chunks',
    send_request method params timeout c
    = (match json_loads text with
       | Some response => validate_response response (request_id c + 1)
       | None => Return None
       end,
       set_socket (set_request_id c (request_id c + 1)) (Some s')) /\
    tx_plan s' = [] /\ rx s' = delivers chunks' rest /\
    Forall nonempty chunks' /\ concat chunks' = more.
Proof.
  intros Es Hplan Hfit Hne Hrx Hhdr Hcap Hcat Hdec Htext.
  unfold SessionClient.send_request, mbind, _get_next_id.
  remember (json_dumps (build_request method params (request_id c + 1)))
    as data eqn:Hdata.
  unfold _send_framed_message at 1. cbn [socket set_request_id].
  rewrite Es. unfold send_frame. unfold frame_of in Hfit.
  destruct (to_bytes4_big (Z.of_nat (length (encode_utf8 data))))
    as [pre|]; [|congruence].
  unfold sendall. rewrite Hplan. cbv beta iota.
  unfold _receive_framed_message. cbn [socket set_socket].
  match goal with
  | |- context [receive_frame timeout ?x] => set (s1 := x)
  end.
  destruct (@receive_frame_complete timeout s1 chunks rest hdr payload more
              Hne Hrx Hhdr Hcap Hcat) as (chunks' & Hr & Hne' & Hc).
  rewrite Hr, Hdec.
  destruct (is_empty text) eqn:Hem.
  { apply String.eqb_eq in Hem. contradiction. }
  exists (with_rx (settimeout timeout s1) (delivers chunks' rest)), chunks'.
  split; [|auto].
  destruct (json_loads text); reflexivity.
Qed.

(** Requests each of which finds on the wire a frame that answers
    another request: [stale] is the concatenation of one such frame per
    call, the first call having the identifier [id + 1]. *)
Inductive answered_late : Z -> list request_call -> bytes -> Prop :=
| late_nil (id : Z) : answered_late id [] []
| late_cons (id : Z) (method : string) (params : option json)
            (timeout : Z) (calls : list request_call)
            (hdr payload stale : bytes) (text : string)
            (d : dict) (v : json) :
    frame_of (json_dumps (build_request method params (id + 1))) <> None ->
    to_bytes4_big (Z.of_nat (length payload)) = Some hdr ->
    (Z.of_nat (length payload) <= MAX_MESSAGE_LENGTH)%Z ->
    decode_utf8 payload = Some text ->
    text <> EmptyString ->
    json_loads text = Some (JObj d) ->
    dict_get "id" d = Some v ->
    py_eq_int v (id + 1) = false ->
    answered_late (id + 1) calls stale ->
    answered_late id ((method, params, timeout) :: calls)
                  (hdr ++ payload ++ stale).

(** X8. [send_request] reads one frame per call and never looks for the
    frame that carries its identifier, so the client does not recover
    from responses that arrive out of step: when each call of a run
    finds on the wire a well-formed response with another identifier
    (for instance every response arriving one request late), every call
    of the run returns [None], each one having consumed exactly one
    frame. *)
Theorem late_responses_fail_every_request
        (calls : list request_call) (stale : bytes) (id : Z) :
  answered_late id calls stale ->
  forall (c : client) (s : tcp_socket)
         (chunks : list bytes) (rest : list rx_event) (more : bytes),
    request_id c = id ->
    socket c = Some s ->
    tx_plan s = [] ->
    Forall nonempty chunks ->
    rx s = delivers chunks rest ->
    concat chunks = (stale ++ more)%list ->
    exists c' s',
      send_requests calls c = (map (fun _ => Return None) calls, c') /\
      socket c' = Some s' /\
      stream_bytes (rx s') = (more ++ stream_bytes rest)%list.
Proof.
  induction 1 as [id | id method params timeout calls hdr payload stale
                       text d v Hfit Hhdr Hcap Hdec Htext Hload Hid Hneq
                       Hlate IH];
    intros c s chunks rest more Hrid Es Hplan Hne Hrx Hcat.
  - exists c, s. simpl. split; [reflexivity|]. split; [exact Es|].
    rewrite Hrx, stream_bytes_delivers, Hcat. reflexivity.
  - subst id. rewrite <- !app_assoc in Hcat.
    destruct (@send_request_reads_one_frame method params timeout c s chunks
                rest hdr payload (stale ++ more) text
                Es Hplan Hfit Hne Hrx Hhdr Hcap Hcat Hdec Htext)
      as (s1 & chunks1 & Hr & Hplan1 & Hrx1 & Hne1 & Hcat1).
    rewrite Hload in Hr.
    assert (Hnone : validate_response (JObj d) (request_id c + 1)
                    = Return None).
    { unfold validate_response. cbn [py_in py_getitem bind].
      unfold dict_has. rewrite Hid.
      destruct (dict_get "jsonrpc" d) as [w|]; cbn [bind]; [|reflexivity].
      destruct (py_eq_str w "2.0"); cbn [negb bind]; [|reflexivity].
      now rewrite Hneq. }
    rewrite Hnone in Hr.
    destruct (IH (set_socket (set_request_id c (request_id c + 1)) (Some s1))
                 s1 chunks1 rest more eq_refl eq_refl Hplan1 Hne1 Hrx1 Hcat1)
      as (c' & s' & Hrun & Hs' & Hstream).
    exists c', s'. cbn [SessionClient.send_requests map].
    rewrite Hr, Hrun. auto.
Qed.

End MoreSessionFacts.

End SessionClient.

(* ===================================================================== *)
(** * [MCPClient] of test_mcp_client.py (newline framing)                 *)
(* ===================================================================== *)

Module LineClient.
Import Bytes Json Transport Framing.

Record client := mkClient {
  socket : option tcp_socket;
  request_id : Z;
  initialized : bool;
  server_info : json;
  available_tools : json
}.

(** [MCPClient.__init__] *)
Definition new_client : client := mkClient None 0 false (JObj []) (JArr []).

Definition set_socket (c : client) (s : option tcp_socket) : client :=
  mkClient s (request_id c) (initialized c) (server_info c)
           (available_tools c).

Definition set_request_id (c : client) (n : Z) : client :=
  mkClient (socket c) n (initialized c) (server_info c) (available_tools c).

(** [str(n)] for an [int]. *)
Definition str_of_int (n : Z) : string := NilZero.string_of_int (Z.to_int n).

Definition newline : string := String (ascii_of_nat 10) EmptyString.

Definition is_newline (a : ascii) : bool := Ascii.eqb a (ascii_of_nat 10).

(** ['\n' in s] *)
Fixpoint has_newline (s : string) : bool :=
  match s with
  | EmptyString => false
  | String a rest => is_newline a || has_newline rest
  end.

(** [s.split('\n')[0]] *)
Fixpoint first_line (s : string) : string :=
  match s with
  | EmptyString => EmptyString
  | String a rest =>
      if is_newline a then EmptyString else String a (first_line rest)
  end.

Definition is_empty (s : string) : bool := String.eqb s EmptyString.

Inductive line_result :=
| Line (response_line : string)
| NoLine
| Raised
| OutOfFuel.

(** The receive loop of [send_request]:
<<
    while True:
        try:
            chunk = self.socket.recv(4096).decode('utf-8')
            if not chunk:
                break
            response_data += chunk
            if '\n' in response_data:
                response_line = response_data.split('\n')[0]
                break
        except socket.timeout:
            break
>>
    [NoLine] is leaving the loop with [response_line] still empty;
    [Raised] is an exception other than the timeout, which the enclosing
    [try] of [send_request] catches. Every further iteration has taken at
    least one byte off the stream, which is what [fuel] counts. *)
Fixpoint receive_line (fuel : nat) (response_data : string) (s : tcp_socket)
  : line_result * tcp_socket :=
  match fuel with
  | O => (OutOfFuel, s)
  | S fuel' =>
      match recv 4096 s with
      | (Timeout, s') => (NoLine, s')
      | (Fault, s') => (Raised, s')
      | (Chunk data, s') =>
          match decode_utf8 data with
          | None => (Raised, s')
          | Some chunk =>
              if is_empty chunk then (NoLine, s')
              else
                let response_data := (response_data ++ chunk)%string in
                if has_newline response_data
                then (Line (first_line response_data), s')
                else receive_line fuel' response_data s'
          end
      end
  end.

Definition line_fuel (s : tcp_socket) : nat :=
  S (length (stream_bytes (rx s))).

(** [sock.send(data)]; the call is taken to write all of [data]. *)
Definition send (data : bytes) (s : tcp_socket) : bool * tcp_socket :=
  sendall data s.

(** [dict.get(key, default)] *)
Definition py_get (v : json) (key : string) (default : json) : outcome json :=
  match v with
  | JObj d => match dict_get key d with
              | Some x => Return x
              | None => Return default
              end
  | _ => Raise AttributeError
  end.

Definition is_dict (v : json) : bool :=
  match v with JObj _ => true | _ => false end.

(** The loop over the content of a tool result, which prints the items:
<<
    for item in content:
        content_type = item.get("type", "unknown")
        ...
>>
    It raises on content that cannot be iterated and on an item that is
    no [dict]. *)
Definition print_content (content : json) : outcome unit :=
  match content with
  | JArr items =>
      if forallb is_dict items then Return tt else Raise AttributeError
  | JStr t => if is_empty t then Return tt else Raise AttributeError
  | JObj d => match d with [] => Return tt | _ => Raise AttributeError end
  | _ => Raise TypeError
  end.

Section WithCodec.

Variable json_loads : string -> option json.
Variable json_dumps : json -> string.

Definition build_request (method : string) (params : option json)
                         (request_id : Z) : json :=
  let request := [("jsonrpc", JStr "2.0");
                  ("id", JStr (str_of_int request_id));
                  ("method", JStr method)]%string in
  match params with
  | Some p => if truthy p then JObj (dict_set "params" p request)
              else JObj request
  | None => JObj request
  end.

(** [send_request]: the first line that arrives, decoded. Every exception
    is caught inside. *)
Definition send_request (method : string) (params : option json)
                        (c : client) : option json * client :=
  match socket c with
  | None => (None, c)
  | Some s =>
      let c1 := set_request_id c (request_id c + 1) in
      let request_json :=
        json_dumps (build_request method params (request_id c1)) in
      match send (encode_utf8 (request_json ++ newline)%string) s with
      | (false, s1) => (None, set_socket c1 (Some s1))
      | (true, s1) =>
          match receive_line (line_fuel s1) EmptyString s1 with
          | (Line response_line, s2) =>
              if is_empty response_line then (None, set_socket c1 (Some s2))
              else (json_loads response_line, set_socket c1 (Some s2))
          | (_, s2) => (None, set_socket c1 (Some s2))
          end
      end
  end.

Definition tool_call_params (tool_name : string) (arguments : json) : json :=
  JObj [("name", JStr tool_name); ("arguments", arguments)]%string.

(** [call_tool]: [True] when the tool ran, [False] otherwise. *)
Definition call_tool (tool_name : string) (arguments : json) (c : client)
  : outcome bool * client :=
  if negb (initialized c) then (Return false, c) else
  let (response, c1) :=
    send_request "tools/call" (Some (tool_call_params tool_name arguments)) c
  in
  match response with
  | None => (Return false, c1)
  | Some response =>
      if negb (truthy response) then (Return false, c1) else
      (bind (py_in "error" response) (fun has_error =>
       if has_error then
         bind (py_getitem response "error") (fun error =>
         bind (py_getitem error "code") (fun _ =>
         bind (py_getitem error "message") (fun _ =>
         Return false)))
       else
         bind (py_in "result" response) (fun has_result =>
         if negb has_result then Return false else
         bind (py_getitem response "result") (fun result =>
         bind (py_get result "content" (JArr [])) (fun content =>
         bind (print_content content) (fun _ =>
         Return true))))),
       c1)
  end.

End WithCodec.

(** [disconnect] *)
Definition disconnect (c : client) : client :=
  match socket c with
  | Some s => if close s then set_socket c None else set_socket c None
  | None => c
  end.

(** ** Facts about the newline-framed client *)

Lemma line_disconnect_drops_socket (c : client) : socket (disconnect c) = None.
Proof.
  unfold disconnect. destruct (socket c) as [s|] eqn:E; [|exact E].
  destruct (close s); reflexivity.
Qed.

Lemma line_disconnect_idempotent (c : client) :
  disconnect (disconnect c) = disconnect c.
Proof.
  unfold disconnect at 1. now rewrite line_disconnect_drops_socket.
Qed.

Lemma line_disconnect_keeps_initialized (c : client) :
  initialized (disconnect c) = initialized c.
Proof.
  unfold disconnect. destruct (socket c) as [s|]; [|reflexivity].
  destruct (close s); reflexivity.
Qed.

Lemma string_app_assoc (a b c : string) :
  ((a ++ b) ++ c = a ++ (b ++ c))%string.
Proof. induction a as [|x a IH]; simpl; [reflexivity | now rewrite IH]. Qed.

Lemma string_app_empty (a : string) : (a ++ EmptyString)%string = a.
Proof. induction a as [|x a IH]; simpl; [reflexivity | now rewrite IH]. Qed.

Lemma has_newline_app (a b : string) :
  has_newline (a ++ b) = has_newline a || has_newline b.
Proof.
  induction a as [|x a IH]; simpl; [reflexivity|].
  now rewrite IH, orb_assoc.
Qed.

Lemma first_line_no_newline (a b : string) :
  has_newline a = false -> first_line (a ++ b) = (a ++ first_line b)%string.
Proof.
  induction a as [|x a IH]; simpl; [reflexivity|].
  destruct (is_newline x); simpl; [discriminate|].
  intros H. now rewrite IH.
Qed.

(** A chunk that one [recv(4096)] returns whole and that decodes to text
    without a newline. *)
Definition quiet_chunk (ch : bytes) : Prop :=
  ch <> [] /\ length ch <= 4096 /\ utf8_valid ch = true /\
  has_newline (string_of_list_byte ch) = false.

(** The text of chunks received one after the other. *)
Definition joined (chunks : list bytes) : string :=
  fold_right (fun ch t => (string_of_list_byte ch ++ t)%string)
             EmptyString chunks.

Lemma joined_quiet (chunks : list bytes) :
  Forall quiet_chunk chunks -> has_newline (joined chunks) = false.
Proof.
  induction 1 as [|ch chunks (_ & _ & _ & Hq) _ IH]; simpl; [reflexivity|].
  now rewrite has_newline_app, Hq, IH.
Qed.

Lemma string_of_list_byte_empty (ch : bytes) :
  ch <> [] -> is_empty (string_of_list_byte ch) = false.
Proof. destruct ch; [congruence | reflexivity]. Qed.

Lemma recv_whole_chunk (s : tcp_socket) (ch : bytes) (rest : list rx_event) :
  rx s = Segment ch :: rest -> ch <> [] -> length ch <= 4096 ->
  recv 4096 s = (Chunk ch, with_rx s rest).
Proof.
  intros Hrx Hne Hlen. unfold recv. rewrite Hrx.
  destruct ch as [|b ch]; [congruence|].
  apply Nat.leb_le in Hlen. now rewrite Hlen.
Qed.

(** The loop stops at the first chunk that brings a newline: the line is
    the text before the first newline, and what remains to be received
    is what came after that chunk. The rest of the chunk is dropped. *)
Lemma receive_line_first_newline (before : list bytes) :
  forall (fuel : nat) (acc : string) (s : tcp_socket) (data : bytes)
         (rest : list rx_event),
    rx s = delivers (before ++ [data]) rest ->
    Forall quiet_chunk before ->
    data <> [] -> length data <= 4096 -> utf8_valid data = true ->
    has_newline (string_of_list_byte data) = true ->
    has_newline acc = false ->
    length before < fuel ->
    receive_line fuel acc s
    = (Line (first_line
               (acc ++ joined before ++ string_of_list_byte data)%string),
       with_rx s rest).
Proof.
  induction before as [|ch before IH];
    intros fuel acc s data rest Hrx Hq Hne Hlen Hval Hnl Hacc Hfuel.
  - destruct fuel as [|fuel]; [simpl in Hfuel; lia|].
    cbn [receive_line]. simpl in Hrx.
    rewrite (@recv_whole_chunk s data rest Hrx Hne Hlen).
    unfold decode_utf8. rewrite Hval.
    rewrite (string_of_list_byte_empty Hne).
    rewrite has_newline_app, Hnl, orb_true_r. reflexivity.
  - destruct fuel as [|fuel]; [simpl in Hfuel; lia|].
    inversion Hq as [|? ? (Hne1 & Hlen1 & Hval1 & Hnl1) Hq']; subst.
    cbn [receive_line]. simpl in Hrx.
    rewrite (@recv_whole_chunk s ch (delivers (before ++ [data]) rest)
               Hrx Hne1 Hlen1).
    unfold decode_utf8 at 1. rewrite Hval1.
    rewrite (string_of_list_byte_empty Hne1).
    rewrite has_newline_app, Hacc, Hnl1. cbn [orb].
    rewrite (IH fuel (acc ++ string_of_list_byte ch)%string
                (with_rx s (delivers (before ++ [data]) rest)) data rest);
      auto.
    + cbn [joined fold_right]. rewrite with_rx_with_rx.
      now rewrite !string_app_assoc.
    + now rewrite has_newline_app, Hacc, Hnl1.
    + simpl in Hfuel. lia.
Qed.


Lemma quiet_chunks_length (chunks : list bytes) :
  Forall quiet_chunk chunks -> length chunks <= length (concat chunks).
Proof.
  induction 1 as [|ch chunks (Hne & _) _ IH]; simpl; [lia|].
  rewrite length_app. destruct ch; [congruence|]. simpl. lia.
Qed.

(** The loop always stops by itself. *)
Lemma receive_line_fuel (fuel : nat) :
  forall (acc : string) (s : tcp_socket),
    length (stream_bytes (rx s)) < fuel ->
    fst (receive_line fuel acc s) <> OutOfFuel.
Proof.
  induction fuel as [|fuel IH]; intros acc s Hf; [lia|].
  cbn [receive_line].
  destruct (recv 4096 s) as [[data| |] s'] eqn:R; try discriminate.
  destruct (decode_utf8 data) as [chunk|] eqn:D; [|discriminate].
  destruct (is_empty chunk) eqn:E; [discriminate|].
  destruct (has_newline (acc ++ chunk)); [discriminate|].
  apply IH. apply recv_chunk_stream in R as [Hs _].
  rewrite Hs, length_app in Hf.
  destruct data as [|b data].
  - unfold decode_utf8 in D. simpl in D. inversion D; subst. discriminate.
  - simpl in Hf. lia.
Qed.

(** So the receive loop of [send_request] is total on the fuel that
    [send_request] gives it. *)
Lemma receive_line_total (acc : string) (s : tcp_socket) :
  fst (receive_line (line_fuel s) acc s) <> OutOfFuel.
Proof. apply receive_line_fuel. unfold line_fuel. lia. Qed.

Section LineFacts.

Variable json_loads : string -> option json.
Variable json_dumps : json -> string.

Abbreviation send_request := (send_request json_loads json_dumps).
Abbreviation call_tool := (call_tool json_loads json_dumps).

(** C9. In the newline-framed client a call keeps, of everything it has
    received, only the text before the first newline: that text alone
    decides what [send_request] returns, and afterwards the socket holds
    only what arrived after the chunk that brought the newline. The text
    that followed the newline in that chunk (a second, pipelined response,
    for instance) is in neither the socket nor the client, so no later
    call sees it. *)
Theorem send_request_keeps_first_line_only
        (method : string) (params : option json) (c : client)
        (s : tcp_socket) (before : list bytes) (data : bytes)
        (rest : list rx_event) :
  socket c = Some s ->
  hd true (tx_plan s) = true ->
  rx s = delivers (before ++ [data]) rest ->
  Forall quiet_chunk before ->
  data <> [] -> length data <= 4096 -> utf8_valid data = true ->
  has_newline (string_of_list_byte data) = true ->
  let line := first_line (joined before ++ string_of_list_byte data) in
  (exists s',
      send_request method params c
      = (if is_empty line then None else json_loads line,
         set_socket (set_request_id c (request_id c + 1)) (Some s')) /\
      rx s' = rest) /\
  (forall pre tail : string,
      string_of_list_byte data = (pre ++ newline ++ tail)%string ->
      has_newline pre = false ->
      line = (joined before ++ pre)%string).
Proof.
  intros Es Htx Hrx Hq Hne Hlen Hval Hnl line. split.
  - unfold LineClient.send_request. rewrite Es.
    set (c1 := set_request_id c (request_id c + 1)).
    set (msg := encode_utf8 _).
    assert (Hsend : exists s1, send msg s = (true, s1) /\ rx s1 = rx s).
    { unfold send, sendall. destruct (tx_plan s) as [|[|] plan];
        [eexists; split; reflexivity | eexists; split; reflexivity
         | discriminate]. }
    destruct Hsend as (s1 & -> & Hrx1).
    rewrite (@receive_line_first_newline before (line_fuel s1) EmptyString
               s1 data rest); auto.
    + exists (with_rx s1 rest). split; [|reflexivity].
      change (EmptyString ++ joined before ++ string_of_list_byte data)%string
        with (joined before ++ string_of_list_byte data)%string.
      fold line. destruct (is_empty line); reflexivity.
    + congruence.
    + unfold line_fuel. rewrite Hrx1, Hrx, stream_bytes_delivers.
      rewrite concat_app, !length_app.
      pose proof (quiet_chunks_length Hq). lia.
  - intros pre tail Hd Hpre. unfold line. rewrite Hd.
    rewrite first_line_no_newline by (now apply joined_quiet).
    rewrite first_line_no_newline by exact Hpre.
    change (first_line (newline ++ tail)) with EmptyString.
    now rewrite string_app_empty.
Qed.



End LineFacts.

(** ** [initialize] and [test_error_handling] *)

Definition set_initialized (c : client) (b : bool) : client :=
  mkClient (socket c) (request_id c) b (server_info c) (available_tools c).

Definition set_server_info (c : client) (v : json) : client :=
  mkClient (socket c) (request_id c) (initialized c) v (available_tools c).

Definition initialize_params : json :=
  JObj [("protocolVersion", JStr "2024-11-05");
        ("clientInfo",
         JObj [("name", JStr "ESP8266-MCP-Test-Client");
               ("version", JStr "1.0.0")]);
        ("capabilities",
         JObj [("roots", JObj [("listChanged", JBool false)]);
               ("sampling", JObj [])])]%string.

(** The values that [initialize] looks up for its report, in the order
    in which the [print] calls evaluate them:
<<
    self.server_info.get('name', 'Unknown')
    self.server_info.get('version', 'Unknown')
    result.get('protocolVersion', 'Unknown')
    capabilities.get('tools', {}).get('listChanged', 'Unknown')
>> *)
Definition initialize_report (server_info result capabilities : json)
  : outcome unit :=
  bind (py_get server_info "name" (JStr "Unknown")) (fun _ =>
  bind (py_get server_info "version" (JStr "Unknown")) (fun _ =>
  bind (py_get result "protocolVersion" (JStr "Unknown")) (fun _ =>
  bind (py_get capabilities "tools" (JObj [])) (fun tools =>
  bind (py_get tools "listChanged" (JStr "Unknown")) (fun _ =>
  Return tt))))).

Section MoreMethods.

Variable json_loads : string -> option json.
Variable json_dumps : json -> string.

(** [initialize]:
<<
    response = self.send_request("initialize", params)
    if not response:
        return False
    if "result" in response:
        result = response["result"]
        self.server_info = result.get("serverInfo", {})
        capabilities = result.get("capabilities", {})
        print(...)
        self.initialized = True
        return True
    return False
>> *)
Definition initialize (c : client) : outcome bool * client :=
  let (response, c1) :=
    send_request json_loads json_dumps "initialize"
                 (Some initialize_params) c in
  match response with
  | None => (Return false, c1)
  | Some response =>
      if negb (truthy response) then (Return false, c1) else
      match py_in "result" response with
      | Raise e => (Raise e, c1)
      | Return false => (Return false, c1)
      | Return true =>
          match py_getitem response "result" with
          | Raise e => (Raise e, c1)
          | Return result =>
              match py_get result "serverInfo" (JObj []) with
              | Raise e => (Raise e, c1)
              | Return info =>
                  let c2 := set_server_info c1 info in
                  match bind (py_get result "capabilities" (JObj []))
                             (initialize_report info result) with
                  | Raise e => (Raise e, c2)
                  | Return _ => (Return true, set_initialized c2 true)
                  end
              end
          end
      end
  end.

(** [test_error_handling]: [True] when the tool call is answered by an
    error response. *)
Definition test_error_handling (tool_name : string) (arguments : json)
                               (c : client) : outcome bool * client :=
  if negb (initialized c) then (Return false, c) else
  let (response, c1) :=
    send_request json_loads json_dumps "tools/call"
                 (Some (tool_call_params tool_name arguments)) c in
  match response with
  | None => (Return false, c1)
  | Some response =>
      if negb (truthy response) then (Return false, c1) else
      (bind (py_in "error" response) (fun has_error =>
       if has_error then
         bind (py_getitem response "error") (fun error =>
         bind (py_getitem error "code") (fun _ =>
         bind (py_getitem error "message") (fun _ =>
         Return true)))
       else
         bind (py_in "result" response) (fun _ => Return false)),
       c1)
  end.

End MoreMethods.

(** A stream that brings no newline before it ends: the chunks are
    followed by nothing or by a pause (the [recv] runs into the
    timeout), by the end of the connection, or by an error. *)
Definition ends_without_line (rest : list rx_event) : Prop :=
  rest = [] \/ (exists r, rest = Segment [] :: r) \/
  (exists r, rest = RecvFault :: r) \/ exists r, rest = RecvTimeout :: r.

Lemma receive_line_without_newline (before : list bytes) :
  forall (fuel : nat) (acc : string) (s : tcp_socket)
         (rest : list rx_event),
    rx s = delivers before rest ->
    Forall quiet_chunk before ->
    ends_without_line rest ->
    has_newline acc = false ->
    length before < fuel ->
    forall line, fst (receive_line fuel acc s) <> Line line.
Proof.
  induction before as [|ch before IH];
    intros fuel acc s rest Hrx Hq Hend Hacc Hfuel line.
  - destruct fuel as [|fuel]; [simpl in Hfuel; lia|].
    cbn [receive_line]. unfold recv. simpl in Hrx. rewrite Hrx.
    destruct Hend as [-> | [(r & ->) | [(r & ->) | (r & ->)]]]; simpl;
      discriminate.
  - destruct fuel as [|fuel]; [simpl in Hfuel; lia|].
    inversion Hq as [|? ? (Hne1 & Hlen1 & Hval1 & Hnl1) Hq']; subst.
    cbn [receive_line]. simpl in Hrx.
    rewrite (@recv_whole_chunk s ch (delivers before rest) Hrx Hne1 Hlen1).
    unfold decode_utf8 at 1. rewrite Hval1.
    rewrite (string_of_list_byte_empty Hne1).
    rewrite has_newline_app, Hacc, Hnl1. cbn [orb].
    apply (IH fuel _ (with_rx s (delivers before rest)) rest); auto.
    + now rewrite has_newline_app, Hacc, Hnl1.
    + simpl in Hfuel. lia.
Qed.

(** The loop stops with an exception at the first chunk that is not
    well-formed UTF-8 by itself. *)
Lemma receive_line_undecodable (before : list bytes) :
  forall (fuel : nat) (acc : string) (s : tcp_socket) (data : bytes)
         (rest : list rx_event),
    rx s = delivers (before ++ [data]) rest ->
    Forall quiet_chunk before ->
    data <> [] -> length data <= 4096 -> utf8_valid data = false ->
    has_newline acc = false ->
    length before < fuel ->
    receive_line fuel acc s = (Raised, with_rx s rest).
Proof.
  induction before as [|ch before IH];
    intros fuel acc s data rest Hrx Hq Hne Hlen Hval Hacc Hfuel.
  - destruct fuel as [|fuel]; [simpl in Hfuel; lia|].
    cbn [receive_line]. simpl in Hrx.
    rewrite (@recv_whole_chunk s data rest Hrx Hne Hlen).
    unfold decode_utf8. now rewrite Hval.
  - destruct fuel as [|fuel]; [simpl in Hfuel; lia|].
    inversion Hq as [|? ? (Hne1 & Hlen1 & Hval1 & Hnl1) Hq']; subst.
    cbn [receive_line]. simpl in Hrx.
    rewrite (@recv_whole_chunk s ch (delivers (before ++ [data]) rest)
               Hrx Hne1 Hlen1).
    unfold decode_utf8 at 1. rewrite Hval1.
    rewrite (string_of_list_byte_empty Hne1).
    rewrite has_newline_app, Hacc, Hnl1. cbn [orb].
    rewrite (IH fuel (acc ++ string_of_list_byte ch)%string
                (with_rx s (delivers (before ++ [data]) rest)) data rest);
      auto.
    + now rewrite has_newline_app, Hacc, Hnl1.
    + simpl in Hfuel. lia.
Qed.

Lemma send_keeps_rx (data : bytes) (s s1 : tcp_socket) (b : bool) :
  send data s = (b, s1) -> rx s1 = rx s.
Proof.
  unfold send, sendall.
  destruct (tx_plan s) as [|[|] plan]; intros H; inversion H; reflexivity.
Qed.

Section MoreLineFacts.

Variable json_loads : string -> option json.
Variable json_dumps : json -> string.

Abbreviation send_request := (send_request json_loads json_dumps).
Abbreviation call_tool := (call_tool json_loads json_dumps).
Abbreviation initialize := (initialize json_loads json_dumps).
Abbreviation test_error_handling :=
  (test_error_handling json_loads json_dumps).

(** A request leaves everything but the socket and the counter alone. *)
Lemma line_send_request_frame (method : string) (params : option json)
      (c c' : client) (r : option json) :
  send_request method params c = (r, c') ->
  initialized c' = initialized c /\ server_info c' = server_info c /\
  available_tools c' = available_tools c /\
  match socket c with
  | None => c' = c /\ r = None
  | Some _ => request_id c' = (request_id c + 1)%Z /\ socket c' <> None
  end.
Proof.
  unfold LineClient.send_request.
  destruct (socket c) as [s|] eqn:Es.
  - destruct (send _ s) as [[|] s1].
    + destruct (receive_line _ _ s1) as [[line| | |] s2];
        try destruct (is_empty line);
        intros H; inversion H; subst; simpl; repeat split; discriminate.
    + intros H; inversion H; subst; simpl; repeat split; discriminate.
  - intros H; inversion H; subst. auto.
Qed.

(** X13. [MCPClient.send_request] hands over a response only when a
    newline arrives: when the text that arrives holds no newline and is
    followed by the timeout, by the end of the connection or by an
    error, the call returns [None], whatever that text is (a complete
    JSON document included); the identifier has been used up. *)
Theorem unterminated_response_is_dropped
        (method : string) (params : option json) (c : client)
        (s : tcp_socket) (before : list bytes) (rest : list rx_event) :
  socket c = Some s ->
  rx s = delivers before rest ->
  Forall quiet_chunk before ->
  ends_without_line rest ->
  fst (send_request method params c) = None /\
  request_id (snd (send_request method params c)) = (request_id c + 1)%Z.
Proof.
  intros Es Hrx Hq Hend.
  destruct (send_request method params c) as [r c'] eqn:Er.
  pose proof (line_send_request_frame _ _ _ Er) as (_ & _ & _ & Hid).
  rewrite Es in Hid. split; [|apply Hid].
  revert Er. unfold LineClient.send_request. rewrite Es.
  destruct (send _ s) as [[|] s1] eqn:Hsend;
    [|intros H; inversion H; reflexivity].
  apply send_keeps_rx in Hsend.
  pose proof (@receive_line_without_newline before (line_fuel s1)
                EmptyString s1 rest) as Hno.
  destruct (receive_line (line_fuel s1) EmptyString s1) as [[line| | |] s2];
    try (intros H; inversion H; reflexivity).
  exfalso. apply (Hno ltac:(congruence) Hq Hend eq_refl) with (line := line);
    [|reflexivity].
  unfold line_fuel. rewrite Hsend, Hrx, stream_bytes_delivers, length_app.
  pose proof (quiet_chunks_length Hq). lia.
Qed.

(** X14. [MCPClient.send_request] decodes every [recv] result by itself:
    the first chunk that is not well-formed UTF-8 on its own (a chunk
    boundary inside a multi-byte character, for instance) ends the
    request with [None], and the chunks received so far are lost. *)
Theorem undecodable_chunk_fails_request
        (method : string) (params : option json) (c : client)
        (s : tcp_socket) (before : list bytes) (data : bytes)
        (rest : list rx_event) :
  socket c = Some s ->
  hd true (tx_plan s) = true ->
  rx s = delivers (before ++ [data]) rest ->
  Forall quiet_chunk before ->
  data <> [] -> length data <= 4096 -> utf8_valid data = false ->
  fst (send_request method params c) = None /\
  exists s', socket (snd (send_request method params c)) = Some s' /\
             rx s' = rest.
Proof.
  intros Es Htx Hrx Hq Hne Hlen Hval.
  unfold LineClient.send_request. rewrite Es.
  set (msg := encode_utf8 _).
  assert (Hsend : exists s1, send msg s = (true, s1) /\ rx s1 = rx s).
  { unfold send, sendall. destruct (tx_plan s) as [|[|] plan];
      [eexists; split; reflexivity | eexists; split; reflexivity
       | discriminate]. }
  destruct Hsend as (s1 & -> & Hrx1).
  rewrite (@receive_line_undecodable before (line_fuel s1) EmptyString s1
             data rest); auto.
  - simpl. split; [reflexivity|]. eexists. split; reflexivity.
  - congruence.
  - unfold line_fuel. rewrite Hrx1, Hrx, stream_bytes_delivers.
    rewrite concat_app, !length_app.
    pose proof (quiet_chunks_length Hq). lia.
Qed.

(** X15. [call_tool] and [test_error_handling] judge the same exchange
    in opposite ways: on the same client and the same wire data, when
    one of them returns [True] the other returns [False], and both leave
    the client in the same state. *)
Theorem call_tool_and_error_test_disagree
        (tool_name : string) (arguments : json) (c c' : client) :
  (call_tool tool_name arguments c = (Return true, c') ->
   test_error_handling tool_name arguments c = (Return false, c')) /\
  (test_error_handling tool_name arguments c = (Return true, c') ->
   call_tool tool_name arguments c = (Return false, c')).
Proof.
  unfold LineClient.call_tool, LineClient.test_error_handling.
  destruct (initialized c); cbn [negb]; [|split; discriminate].
  destruct (send_request "tools/call"
              (Some (tool_call_params tool_name arguments)) c)
    as [[response|] c1]; [|split; discriminate].
  destruct (truthy response); cbn [negb]; [|split; discriminate].
  destruct (py_in "error" response) as [[|]|e]; cbn [bind];
    [| |split; discriminate].
  - destruct (py_getitem response "error") as [error|e]; cbn [bind];
      [|split; discriminate].
    destruct (py_getitem error "code") as [code|e]; cbn [bind];
      [|split; discriminate].
    destruct (py_getitem error "message") as [msg|e]; cbn [bind];
      split; try discriminate.
    intros H; inversion H; reflexivity.
  - destruct (py_in "result" response) as [[|]|e]; cbn [bind negb];
      split; try discriminate.
    intros H.
    destruct (py_getitem response "result") as [result|e]; cbn [bind] in H;
      [|discriminate].
    destruct (py_get result "content" (JArr [])) as [content|e];
      cbn [bind] in H; [|discriminate].
    destruct (print_content content); cbn [bind] in H; [|discriminate].
    inversion H; reflexivity.
Qed.

(** X16. [MCPClient.initialize] sets [initialized] only when it returns
    [True], which takes a response whose [result] is a [dict] and whose
    [serverInfo] (an empty [dict] when missing) is a [dict]; on every
    other outcome the flag is what it was before. A [serverInfo] that is
    no [dict] makes [initialize] raise [AttributeError] after it has
    stored that value in [server_info]. *)
Theorem line_initialize_marks_only_on_success :
  (forall (c c' : client) (o : outcome bool),
      initialize c = (o, c') ->
      (o = Return true ->
       initialized c' = true /\ is_dict (server_info c') = true) /\
      (o <> Return true -> initialized c' = initialized c)) /\
  (forall (c c1 : client) (d rd : dict) (info : json),
      send_request "initialize" (Some initialize_params) c
      = (Some (JObj d), c1) ->
      dict_get "result" d = Some (JObj rd) ->
      dict_get "serverInfo" rd = Some info ->
      is_dict info = false ->
      initialize c = (Raise AttributeError, set_server_info c1 info)).
Proof.
  split.
  - intros c c' o. unfold LineClient.initialize.
    destruct (send_request "initialize" (Some initialize_params) c)
      as [[response|] c1] eqn:Er;
      pose proof (line_send_request_frame _ _ _ Er) as (Hi & _).
    2:{ intros H; inversion H; subst. split; [discriminate | auto]. }
    destruct (truthy response); cbn [negb].
    2:{ intros H; inversion H; subst. split; [discriminate | auto]. }
    destruct (py_in "result" response) as [[|]|e].
    2:{ intros H; inversion H; subst. split; [discriminate | auto]. }
    2:{ intros H; inversion H; subst. split; [discriminate | auto]. }
    destruct (py_getitem response "result") as [result|e].
    2:{ intros H; inversion H; subst. split; [discriminate | auto]. }
    destruct (py_get result "serverInfo" (JObj [])) as [info|e].
    2:{ intros H; inversion H; subst. split; [discriminate | auto]. }
    cbv zeta.
    destruct (bind (py_get result "capabilities" (JObj []))
                   (initialize_report info result)) as [u|e] eqn:Eb.
    2:{ intros H; inversion H; subst. split; [discriminate | auto]. }
    intros H; inversion H; subst. split; [|congruence].
    intros _. split; [reflexivity|]. simpl.
    destruct (py_get result "capabilities" (JObj [])) as [caps|e];
      [|discriminate].
    cbn [bind] in Eb. unfold initialize_report in Eb.
    destruct info; try discriminate. reflexivity.
  - intros c c1 d rd info Er Hres Hinfo Hnd.
    unfold LineClient.initialize. rewrite Er.
    assert (Ht : truthy (JObj d) = true).
    { destruct d; [discriminate | reflexivity]. }
    rewrite Ht. cbn [negb py_in py_getitem]. unfold dict_has.
    rewrite Hres. cbn [py_get]. rewrite Hinfo. cbv zeta.
    destruct (dict_get "capabilities" rd); cbn [bind];
      unfold initialize_report; destruct info; try discriminate;
      reflexivity.
Qed.

End MoreLineFacts.

End LineClient.

(* ===================================================================== *)
(** * [SessionToolClient] of test_session_tools.py                        *)
(* ===================================================================== *)

(** The third client of the repository. Its [send_request] is the one
    that waits for the response through interleaved notifications. *)

Module ToolClient.
Import Bytes Json Transport Framing.

Record client := mkClient {
  socket : option tcp_socket;
  request_id : Z;
  initialized : bool;
  available_tools : json;
  progress_notifications : list json
}.

Definition set_socket (c : client) (s : option tcp_socket) : client :=
  mkClient s (request_id c) (initialized c) (available_tools c)
           (progress_notifications c).

Definition set_request_id (c : client) (n : Z) : client :=
  mkClient (socket c) n (initialized c) (available_tools c)
           (progress_notifications c).

(** [self.progress_notifications.append(response)] *)
Definition note_progress (c : client) (response : json) : client :=
  mkClient (socket c) (request_id c) (initialized c) (available_tools c)
           (progress_notifications c ++ [response]).

Definition _send_framed_message (data : string) (c : client)
  : bool * client :=
  match socket c with
  | None => (false, c)
  | Some s =>
      let (sent, s') := send_frame data s in
      (sent, set_socket c (Some s'))
  end.

Definition _receive_framed_message (timeout : Z) (c : client)
  : option string * client :=
  match socket c with
  | None => (None, c)
  | Some s =>
      let (message, s') := receive_frame timeout s in
      (message, set_socket c (Some s'))
  end.

Definition is_empty (s : string) : bool := String.eqb s EmptyString.

(** ["method" in response and
     response["method"] == "notifications/progress"] *)
Definition is_progress (response : json) : outcome bool :=
  bind (py_in "method" response) (fun has_method =>
  if has_method
  then bind (py_getitem response "method")
            (fun m => Return (py_eq_str m "notifications/progress"))
  else Return false).

(** ["id" in response and response["id"] == request_id] *)
Definition is_answer (response : json) (request_id : Z) : outcome bool :=
  bind (py_in "id" response) (fun has_id =>
  if has_id
  then bind (py_getitem response "id")
            (fun v => Return (py_eq_int v request_id))
  else Return false).

Section WithCodec.

Variable json_loads : string -> option json.
Variable json_dumps : json -> string.

(** The loop of [send_request]:
<<
    start_time = time.time()
    while (time.time() - start_time) < timeout:
        response_json = self._receive_framed_message(timeout=1.0)
        if not response_json:
            continue
        try:
            response = json.loads(response_json)
            if "method" in response and \
               response["method"] == "notifications/progress":
                self.progress_notifications.append(response)
                continue
            if "id" in response and response["id"] == request_id:
                return response
        except json.JSONDecodeError:
            continue
    return None
>>
    [admits] is the number of times the loop test still succeeds before
    the caller's timeout has elapsed; the loop ends with [None] when it no
    longer does. *)
Fixpoint await_response (admits : nat) (request_id : Z) (c : client)
  : outcome (option json) * client :=
  match admits with
  | O => (Return None, c)
  | S admits' =>
      match _receive_framed_message 1000 c with
      | (None, c1) => await_response admits' request_id c1
      | (Some response_json, c1) =>
          if is_empty response_json then await_response admits' request_id c1
          else
            match json_loads response_json with
            | None => await_response admits' request_id c1
            | Some response =>
                match is_progress response with
                | Raise e => (Raise e, c1)
                | Return true =>
                    await_response admits' request_id
                                   (note_progress c1 response)
                | Return false =>
                    match is_answer response request_id with
                    | Raise e => (Raise e, c1)
                    | Return true => (Return (Some response), c1)
                    | Return false => await_response admits' request_id c1
                    end
                end
            end
      end
  end.

Definition build_request (method : string) (params : option json)
                         (request_id : Z) : json :=
  let request := [("jsonrpc", JStr "2.0"); ("method", JStr method);
                  ("id", JInt request_id)]%string in
  match params with
  | Some p => if truthy p then JObj (dict_set "params" p request)
              else JObj request
  | None => JObj request
  end.

(** [send_request] *)
Definition send_request (method : string) (params : option json)
                        (admits : nat) (c : client)
  : outcome (option json) * client :=
  let request_id := (request_id c + 1)%Z in
  let c0 := set_request_id c request_id in
  let request_json := json_dumps (build_request method params request_id) in
  match _send_framed_message request_json c0 with
  | (false, c1) => (Return None, c1)
  | (true, c1) => await_response admits request_id c1
  end.

(** ** Waiting through notifications *)

(** The frame of a payload. *)
Definition framed (payload : bytes) : bytes :=
  match to_bytes4_big (Z.of_nat (length payload)) with
  | Some length_prefix => length_prefix ++ payload
  | None => []
  end.

Definition well_framed (payload : bytes) : Prop :=
  (Z.of_nat (length payload) <= MAX_MESSAGE_LENGTH)%Z.

Definition decodes_to (payload : bytes) (v : json) : Prop :=
  exists text, decode_utf8 payload = Some text /\ is_empty text = false /\
               json_loads text = Some v.

(** A message with no [id]. *)
Definition notification_shaped (v : json) : Prop :=
  exists d, v = JObj d /\ dict_get "id" d = None.

(** A response to the request [request_id]. *)
Definition answers (request_id : Z) (v : json) : Prop :=
  exists d w, v = JObj d /\ dict_get "method" d = None /\
              dict_get "id" d = Some w /\ py_eq_int w request_id = true.

Definition wire (payloads : list bytes) : bytes :=
  concat (map framed payloads).

Lemma well_framed_header (payload : bytes) :
  well_framed payload ->
  exists hdr, to_bytes4_big (Z.of_nat (length payload)) = Some hdr /\
              framed payload = hdr ++ payload.
Proof.
  unfold well_framed, MAX_MESSAGE_LENGTH, framed, to_bytes4_big. intros H.
  assert (E : ((0 <=? Z.of_nat (length payload))
               && (Z.of_nat (length payload) <? 4294967296))%Z = true).
  { apply andb_true_iff. split; [apply Z.leb_le | apply Z.ltb_lt]; lia. }
  rewrite E. eexists. split; reflexivity.
Qed.

(** Frames without an [id] are passed over, whatever their number and
    whatever the segmentation of the stream, as long as the timeout has
    not elapsed; the message returned is the one that carries the
    identifier of the request. *)
Lemma await_response_skips_notifications
      (notifications : list (bytes * json)) :
  forall (admits : nat) (rid : Z) (c : client) (s : tcp_socket)
         (chunks : list bytes) (rest : list rx_event)
         (answer_payload more : bytes) (answer : json),
    socket c = Some s ->
    Forall nonempty chunks ->
    rx s = delivers chunks rest ->
    concat chunks
    = wire (map fst notifications) ++ framed answer_payload ++ more ->
    Forall (fun x => well_framed (fst x) /\ decodes_to (fst x) (snd x) /\
                     notification_shaped (snd x)) notifications ->
    well_framed answer_payload ->
    decodes_to answer_payload answer ->
    answers rid answer ->
    length notifications < admits ->
    exists c' s',
      await_response admits rid c = (Return (Some answer), c') /\
      socket c' = Some s' /\
      stream_bytes (rx s') = more ++ stream_bytes rest.
Proof.
  induction notifications as [|[payload v] notifications IH];
    intros admits rid c s chunks rest answer_payload more answer
           Es Hne Hrx Hcat Hall Hwf Hdec Hans Hadm.
  - destruct admits as [|admits]; [simpl in Hadm; lia|].
    destruct (well_framed_header Hwf) as (hdr & Hhdr & Hfr).
    simpl in Hcat. rewrite Hfr, <- app_assoc in Hcat.
    destruct (@receive_frame_complete 1000 s chunks rest hdr answer_payload
                more Hne Hrx Hhdr Hwf Hcat) as (chunks' & Hr & _ & Hc).
    destruct Hdec as (text & Hd & Hem & Hl).
    destruct Hans as (d & w & -> & Hm & Hi & Hw).
    cbn [await_response]. unfold _receive_framed_message.
    rewrite Es, Hr, Hd, Hem, Hl.
    unfold is_progress, is_answer. cbn [py_in bind py_getitem].
    unfold dict_has. rewrite Hm, Hi. cbn [bind]. rewrite Hw.
    eexists _, _. split; [reflexivity|]. split; [reflexivity|].
    simpl. now rewrite stream_bytes_delivers, Hc.
  - destruct admits as [|admits]; [simpl in Hadm; lia|].
    inversion Hall as [|? ? (Hwf1 & Hdec1 & Hshape) Hall']; subst.
    simpl in Hwf1, Hdec1, Hshape.
    destruct (well_framed_header Hwf1) as (hdr & Hhdr & Hfr).
    unfold wire in Hcat. cbn [map concat fst] in Hcat.
    rewrite Hfr, <- !app_assoc in Hcat.
    destruct (@receive_frame_complete 1000 s chunks rest hdr payload _
                Hne Hrx Hhdr Hwf1 Hcat) as (chunks' & Hr & Hne' & Hc).
    destruct Hdec1 as (text & Hd & Hem & Hl).
    destruct Hshape as (d & -> & Hid).
    cbn [await_response]. unfold _receive_framed_message at 1.
    rewrite Es, Hr, Hd, Hem, Hl.
    set (s1 := with_rx (settimeout 1000 s) (delivers chunks' rest)).
    assert (Hnext : forall c1, socket c1 = Some s1 ->
              exists c' s',
                await_response admits rid c1 = (Return (Some answer), c') /\
                socket c' = Some s' /\
                stream_bytes (rx s') = more ++ stream_bytes rest).
    { intros c1 Hc1.
      apply (IH admits rid c1 s1 chunks' rest answer_payload more answer);
        auto.
      simpl in Hadm. lia. }
    unfold is_progress, is_answer. cbn [py_in bind py_getitem].
    unfold dict_has. rewrite Hid.
    destruct (dict_get "method" d) as [m|]; cbn [bind].
    + destruct (py_eq_str m "notifications/progress");
        apply Hnext; reflexivity.
    + apply Hnext; reflexivity.
Qed.

End WithCodec.

(** ** [call_tool], and what the wait loop passes over *)

(** [self.progress_notifications = []] *)
Definition clear_progress (c : client) : client :=
  mkClient (socket c) (request_id c) (initialized c) (available_tools c) [].

(** Whether the loop of [send_request] files a decoded message as a
    progress notification. *)
Definition progress_shaped (v : json) : bool :=
  match is_progress v with
  | Return true => true
  | _ => false
  end.

Section ToolCalls.

Variable json_loads : string -> option json.
Variable json_dumps : json -> string.

Definition tool_call_params (name : string) (arguments : option json)
  : json :=
  let params := [("name", JStr name)]%string in
  match arguments with
  | Some a => if truthy a then JObj (dict_set "arguments" a params)
              else JObj params
  | None => JObj params
  end.

(** [call_tool]:
<<
    if not self.initialized:
        return None, []
    self.progress_notifications = []
    params = {"name": name}
    if arguments:
        params["arguments"] = arguments
    response = self.send_request("tools/call", params, timeout)
    progress_events = self.progress_notifications.copy()
    self.progress_notifications = []
    return response, progress_events
>> *)
Definition call_tool (name : string) (arguments : option json)
                     (admits : nat) (c : client)
  : outcome (option json * list json) * client :=
  if negb (initialized c) then (Return (None, []), c) else
  match send_request json_loads json_dumps "tools/call"
                     (Some (tool_call_params name arguments)) admits
                     (clear_progress c) with
  | (Raise e, c1) => (Raise e, c1)
  | (Return response, c1) =>
      let progress_events := progress_notifications c1 in
      (Return (response, progress_events), clear_progress c1)
  end.

(** A decoded message that the loop does not return for the request
    [rid]: a [dict] that is a progress notification, or has no [id], or
    has another [id]. *)
Definition passed_over (rid : Z) (v : json) : Prop :=
  exists d, v = JObj d /\
    (progress_shaped v = true \/ dict_get "id" d = None \/
     exists w, dict_get "id" d = Some w /\ py_eq_int w rid = false).

Abbreviation await := (await_response json_loads).
Abbreviation decodes := (decodes_to json_loads).

Lemma passed_over_step (rid : Z) (d : dict) :
  passed_over rid (JObj d) ->
  (is_progress (JObj d) = Return true /\ progress_shaped (JObj d) = true) \/
  (is_progress (JObj d) = Return false /\
   progress_shaped (JObj d) = false /\
   is_answer (JObj d) rid = Return false).
Proof.
  intros (d' & Hd & H). inversion Hd; subst d'. clear Hd.
  unfold progress_shaped in *. unfold is_progress, is_answer in *.
  cbn [py_in py_getitem bind] in *. unfold dict_has in *.
  destruct (dict_get "method" d) as [m|]; cbn [bind] in *.
  - destruct (py_eq_str m "notifications/progress"); [left; auto|].
    right. split; [reflexivity|]. split; [reflexivity|].
    destruct H as [H | [H | (w & Hw & Hn)]]; [discriminate | |].
    + now rewrite H.
    + rewrite Hw. cbn [bind]. now rewrite Hn.
  - right. split; [reflexivity|]. split; [reflexivity|].
    destruct H as [H | [H | (w & Hw & Hn)]]; [discriminate | |].
    + now rewrite H.
    + rewrite Hw. cbn [bind]. now rewrite Hn.
Qed.

(** The loop passes over every frame that is not the answer, files the
    progress notifications among them in the order of arrival, and
    returns the answer. *)
Lemma await_response_passes_over (others : list (bytes * json)) :
  forall (admits : nat) (rid : Z) (c : client) (s : tcp_socket)
         (chunks : list bytes) (rest : list rx_event)
         (answer_payload more : bytes) (answer : json),
    socket c = Some s ->
    Forall nonempty chunks ->
    rx s = delivers chunks rest ->
    concat chunks
    = (wire (map fst others) ++ framed answer_payload ++ more)%list ->
    Forall (fun x => well_framed (fst x) /\ decodes (fst x) (snd x) /\
                     passed_over rid (snd x)) others ->
    well_framed answer_payload ->
    decodes answer_payload answer ->
    answers rid answer ->
    length others < admits ->
    exists s',
      await admits rid c
      = (Return (Some answer),
         mkClient (Some s') (request_id c) (initialized c)
                  (available_tools c)
                  (progress_notifications c
                   ++ filter progress_shaped (map snd others))) /\
      stream_bytes (rx s') = (more ++ stream_bytes rest)%list /\
      tx_log s' = tx_log s.
Proof.
  induction others as [|[payload v] others IH];
    intros admits rid c s chunks rest answer_payload more answer
           Es Hne Hrx Hcat Hall Hwf Hdec Hans Hadm.
  - destruct admits as [|admits]; [simpl in Hadm; lia|].
    destruct (well_framed_header Hwf) as (hdr & Hhdr & Hfr).
    simpl in Hcat. rewrite Hfr, <- app_assoc in Hcat.
    destruct (@receive_frame_complete 1000 s chunks rest hdr answer_payload
                more Hne Hrx Hhdr Hwf Hcat) as (chunks' & Hr & _ & Hc).
    destruct Hdec as (text & Hd & Hem & Hl).
    destruct Hans as (d & w & -> & Hm & Hi & Hw).
    cbn [await_response]. unfold _receive_framed_message.
    rewrite Es, Hr, Hd, Hem, Hl.
    unfold is_progress, is_answer. cbn [py_in bind py_getitem].
    unfold dict_has. rewrite Hm, Hi. cbn [bind]. rewrite Hw.
    eexists. split; [|split].
    + cbn [map filter]. rewrite app_nil_r. destruct c; reflexivity.
    + simpl. now rewrite stream_bytes_delivers, Hc.
    + reflexivity.
  - destruct admits as [|admits]; [simpl in Hadm; lia|].
    inversion Hall as [|? ? (Hwf1 & Hdec1 & Hshape) Hall']; subst.
    simpl in Hwf1, Hdec1, Hshape.
    destruct (well_framed_header Hwf1) as (hdr & Hhdr & Hfr).
    unfold wire in Hcat. cbn [map concat fst] in Hcat.
    rewrite Hfr, <- !app_assoc in Hcat.
    destruct (@receive_frame_complete 1000 s chunks rest hdr payload _
                Hne Hrx Hhdr Hwf1 Hcat) as (chunks' & Hr & Hne' & Hc).
    destruct Hdec1 as (text & Hd & Hem & Hl).
    pose proof Hshape as (d & -> & _).
    cbn [await_response]. unfold _receive_framed_message at 1.
    rewrite Es, Hr, Hd, Hem, Hl.
    set (s1 := with_rx (settimeout 1000 s) (delivers chunks' rest)).
    cbn [map snd filter].
    destruct (passed_over_step Hshape) as [[Hp Hps] | (Hp & Hps & Ha)];
      rewrite Hp, Hps.
    + destruct (IH admits rid (note_progress (set_socket c (Some s1)) (JObj d))
                  s1 chunks' rest answer_payload more answer)
        as (s' & Hrun & Hstream & Hlog); auto.
      { simpl in Hadm. lia. }
      exists s'. rewrite Hrun. cbn [request_id initialized available_tools
        progress_notifications note_progress set_socket].
      rewrite <- app_assoc. auto.
    + rewrite Ha.
      destruct (IH admits rid (set_socket c (Some s1))
                  s1 chunks' rest answer_payload more answer)
        as (s' & Hrun & Hstream & Hlog); auto.
      { simpl in Hadm. lia. }
      exists s'. rewrite Hrun. auto.
Qed.

(** A [recv] that runs into the timeout of one second before the first
    byte of a frame costs one turn of the loop and loses nothing. *)
Lemma await_response_pause (admits : nat) (rid : Z) (c : client)
      (s : tcp_socket) (tail : list rx_event) :
  socket c = Some s ->
  rx s = RecvTimeout :: tail ->
  await (S admits) rid c
  = await admits rid
          (set_socket c (Some (with_rx (settimeout 1000 s) tail))).
Proof.
  intros Es Hrx. cbn [await_response].
  unfold _receive_framed_message. rewrite Es.
  unfold receive_frame, recv_exactly. cbn [recv_loop length Nat.leb].
  unfold recv. cbn [rx settimeout]. rewrite Hrx. reflexivity.
Qed.

(** Frames that are not the answer, delivered without a pause: each of
    them costs one turn of the loop, and the progress notifications
    among them are filed in the order of arrival. *)
Lemma await_response_through (frames : list (bytes * json)) :
  forall (admits : nat) (rid : Z) (c : client) (s : tcp_socket)
         (chunks : list bytes) (tail : list rx_event),
    socket c = Some s ->
    Forall nonempty chunks ->
    rx s = delivers chunks tail ->
    concat chunks = wire (map fst frames) ->
    Forall (fun x => well_framed (fst x) /\ decodes (fst x) (snd x) /\
                     passed_over rid (snd x)) frames ->
    exists s',
      await (length frames + admits) rid c
      = await admits rid
              (mkClient (Some s') (request_id c) (initialized c)
                        (available_tools c)
                        (progress_notifications c
                         ++ filter progress_shaped (map snd frames))) /\
      rx s' = tail /\ tx_log s' = tx_log s /\ tx_plan s' = tx_plan s.
Proof.
  induction frames as [|[payload v] frames IH];
    intros admits rid c s chunks tail Es Hne Hrx Hcat Hall.
  - destruct chunks as [|ch chunks].
    + exists s. cbn [length Nat.add map filter]. rewrite app_nil_r.
      destruct c; simpl in Es; subst. auto.
    + inversion Hne as [|? ? Hch _]; subst. destruct ch; [now elim Hch|].
      discriminate.
  - inversion Hall as [|? ? (Hwf1 & Hdec1 & Hshape) Hall']; subst.
    simpl in Hwf1, Hdec1, Hshape.
    destruct (well_framed_header Hwf1) as (hdr & Hhdr & Hfr).
    unfold wire in Hcat. cbn [map concat fst] in Hcat.
    rewrite Hfr, <- !app_assoc in Hcat.
    destruct (@receive_frame_complete 1000 s chunks tail hdr payload _
                Hne Hrx Hhdr Hwf1 Hcat) as (chunks' & Hr & Hne' & Hc).
    destruct Hdec1 as (text & Hd & Hem & Hl).
    pose proof Hshape as (d & -> & _).
    cbn [length Nat.add await_response].
    unfold _receive_framed_message at 1.
    rewrite Es, Hr, Hd, Hem, Hl.
    set (s1 := with_rx (settimeout 1000 s) (delivers chunks' tail)).
    cbn [map snd filter].
    destruct (passed_over_step Hshape) as [[Hp Hps] | (Hp & Hps & Ha)];
      rewrite Hp, Hps.
    + destruct (IH admits rid
                  (note_progress (set_socket c (Some s1)) (JObj d))
                  s1 chunks' tail eq_refl Hne' eq_refl Hc Hall')
        as (s' & Hrun & Hrx' & Hlog & Hplan).
      exists s'. rewrite Hrun.
      cbn [request_id initialized available_tools
           progress_notifications note_progress set_socket].
      rewrite <- app_assoc. auto.
    + rewrite Ha.
      destruct (IH admits rid (set_socket c (Some s1))
                  s1 chunks' tail eq_refl Hne' eq_refl Hc Hall')
        as (s' & Hrun & Hrx' & Hlog & Hplan).
      exists s'. rewrite Hrun. auto.
Qed.

(** A burst: the frames that arrive between two pauses of the peer, and
    the [recv] results that deliver them. *)
Definition burst : Type := (list (bytes * json) * list bytes)%type.

(** Bursts, each followed by a pause in which one [recv] runs into its
    timeout, and then [last]. *)
Fixpoint paused (bursts : list burst) (last : list rx_event)
  : list rx_event :=
  match bursts with
  | [] => last
  | b :: bs => delivers (snd b) (RecvTimeout :: paused bs last)
  end.

(** The frames of a burst are whole, none of them answers the request
    [rid], and the pause comes behind the last of them. *)
Definition burst_passed_over (rid : Z) (b : burst) : Prop :=
  Forall nonempty (snd b) /\
  concat (snd b) = wire (map fst (fst b)) /\
  Forall (fun x => well_framed (fst x) /\ decodes (fst x) (snd x) /\
                   passed_over rid (snd x)) (fst b).

(** The turns of the loop that the bursts use up: one for each frame and
    one for each pause. *)
Fixpoint turns (bursts : list burst) : nat :=
  match bursts with
  | [] => 0
  | b :: bs => length (fst b) + S (turns bs)
  end.

Definition frames_of (bursts : list burst) : list (bytes * json) :=
  concat (map fst bursts).

Lemma await_response_through_bursts (bursts : list burst) :
  forall (admits : nat) (rid : Z) (c : client) (s : tcp_socket)
         (last : list rx_event),
    socket c = Some s ->
    rx s = paused bursts last ->
    Forall (burst_passed_over rid) bursts ->
    exists s',
      await (turns bursts + admits) rid c
      = await admits rid
              (mkClient (Some s') (request_id c) (initialized c)
                        (available_tools c)
                        (progress_notifications c
                         ++ filter progress_shaped
                                   (map snd (frames_of bursts)))) /\
      rx s' = last /\ tx_log s' = tx_log s /\ tx_plan s' = tx_plan s.
Proof.
  induction bursts as [|[frames chunks] bursts IH];
    intros admits rid c s last Es Hrx Hall.
  - exists s. cbn [turns Nat.add frames_of map concat filter].
    rewrite app_nil_r. destruct c; simpl in Es; subst. auto.
  - inversion Hall as [|? ? (Hne & Hcat & Hfr) Hall']; subst.
    cbn [fst snd] in Hne, Hcat, Hfr. cbn [paused snd] in Hrx.
    cbn [turns fst].
    replace (length frames + S (turns bursts) + admits)
      with (length frames + S (turns bursts + admits)) by lia.
    destruct (@await_response_through frames (S (turns bursts + admits)) rid
                c s chunks (RecvTimeout :: paused bursts last)
                Es Hne Hrx Hcat Hfr)
      as (s1 & Hrun1 & Hrx1 & Hlog1 & Hplan1).
    rewrite Hrun1.
    match goal with
    | |- context [await_response json_loads (S _) rid ?c1] =>
        rewrite (@await_response_pause (turns bursts + admits) rid c1 s1
                   (paused bursts last) eq_refl Hrx1)
    end.
    match goal with
    | |- context [await_response json_loads (turns bursts + admits) rid ?c2] =>
        destruct (IH admits rid c2
                    (with_rx (settimeout 1000 s1) (paused bursts last))
                    last eq_refl eq_refl Hall')
          as (s' & Hrun & Hrx' & Hlog & Hplan)
    end.
    exists s'. rewrite Hrun.
    cbn [request_id initialized available_tools progress_notifications
         set_socket].
    unfold frames_of. cbn [map concat fst].
    rewrite map_app, filter_app, <- app_assoc.
    repeat split; auto; simpl in *; congruence.
Qed.

(** What arrives before the response: bursts of whole frames with pauses
    between them, and then, without a further pause, the frames [others]
    and the frame of the response. *)
Definition arrives_before_timeout
           (rid : Z) (bursts : list burst) (others : list (bytes * json))
           (answer_payload : bytes) (answer : json)
           (chunks : list bytes) (more : bytes) (admits : nat) : Prop :=
  Forall (burst_passed_over rid) bursts /\
  Forall nonempty chunks /\
  concat chunks
  = (wire (map fst others) ++ framed answer_payload ++ more)%list /\
  Forall (fun x => well_framed (fst x) /\ decodes (fst x) (snd x) /\
                   passed_over rid (snd x)) others /\
  well_framed answer_payload /\
  decodes answer_payload answer /\
  answers rid answer /\
  turns bursts + length others < admits.

Lemma await_response_finds_answer
      (admits : nat) (rid : Z) (c : client) (s : tcp_socket)
      (bursts : list burst) (others : list (bytes * json))
      (chunks : list bytes) (rest : list rx_event)
      (answer_payload more : bytes) (answer : json) :
  socket c = Some s ->
  rx s = paused bursts (delivers chunks rest) ->
  arrives_before_timeout rid bursts others answer_payload answer chunks
                         more admits ->
  exists s',
    await admits rid c
    = (Return (Some answer),
       mkClient (Some s') (request_id c) (initialized c)
                (available_tools c)
                (progress_notifications c
                 ++ filter progress_shaped
                           (map snd (frames_of bursts ++ others)))) /\
    stream_bytes (rx s') = (more ++ stream_bytes rest)%list.
Proof.
  intros Es Hrx (Hbursts & Hne & Hcat & Hall & Hwf & Hdec & Hans & Hadm).
  replace admits with (turns bursts + (admits - turns bursts)) by lia.
  destruct (@await_response_through_bursts bursts (admits - turns bursts)
              rid c s (delivers chunks rest) Es Hrx Hbursts)
    as (s1 & Hrun1 & Hrx1 & _ & _).
  rewrite Hrun1.
  match goal with
  | |- context [await_response json_loads _ rid ?c1] =>
      destruct (@await_response_passes_over others (admits - turns bursts)
                  rid c1 s1 chunks rest answer_payload more answer
                  eq_refl Hne Hrx1 Hcat Hall Hwf Hdec Hans ltac:(lia))
        as (s' & Hrun & Hstream & _)
  end.
  exists s'. rewrite Hrun.
  cbn [request_id initialized available_tools progress_notifications].
  rewrite map_app, filter_app, <- app_assoc. auto.
Qed.

(** X9. [send_request] of [SessionToolClient] looks for the frame that
    carries its identifier. When every frame arrives without a [recv]
    timeout inside it, whatever comes before the response (progress
    notifications, messages without [id], responses to other requests)
    is passed over, in any segmentation and with pauses of the peer
    between bursts of whole frames, while the timeout of the request has
    not elapsed: every frame and every pause uses one turn of the loop.
    The progress notifications among it are appended to
    [progress_notifications] in the order of arrival, the response is
    returned, and what follows it stays unread. *)
Theorem tool_send_request_finds_its_response
        (method : string) (params : option json) (admits : nat)
        (c : client) (s : tcp_socket)
        (bursts : list burst) (others : list (bytes * json))
        (chunks : list bytes) (rest : list rx_event)
        (answer_payload more : bytes) (answer : json) :
  socket c = Some s ->
  hd true (tx_plan s) = true ->
  frame_of (json_dumps (build_request method params (request_id c + 1)))
  <> None ->
  rx s = paused bursts (delivers chunks rest) ->
  arrives_before_timeout (request_id c + 1) bursts others answer_payload
                         answer chunks more admits ->
  exists s',
    send_request json_loads json_dumps method params admits c
    = (Return (Some answer),
       mkClient (Some s') (request_id c + 1) (initialized c)
                (available_tools c)
                (progress_notifications c
                 ++ filter progress_shaped
                           (map snd (frames_of bursts ++ others)))) /\
    stream_bytes (rx s') = (more ++ stream_bytes rest)%list.
Proof.
  intros Es Htx Hfit Hrx Harr.
  unfold send_request, _send_framed_message.
  cbn [socket set_request_id]. rewrite Es. unfold send_frame.
  unfold frame_of in Hfit.
  destruct (to_bytes4_big _) as [pre|]; [|congruence].
  assert (Hsend : exists s1,
            sendall (pre ++ encode_utf8
                       (json_dumps (build_request method params
                                      (request_id c + 1)))) s
            = (true, s1) /\ rx s1 = rx s).
  { unfold sendall. destruct (tx_plan s) as [|[|] plan];
      [eexists; split; reflexivity | eexists; split; reflexivity
       | discriminate]. }
  destruct Hsend as (s1 & -> & Hrx1).
  destruct (@await_response_finds_answer admits (request_id c + 1)
              (set_socket (set_request_id c (request_id c + 1)) (Some s1))
              s1 bursts others chunks rest answer_payload more answer
              eq_refl (eq_trans Hrx1 Hrx) Harr)
    as (s' & Hrun & Hstream).
  exists s'. split; [exact Hrun | exact Hstream].
Qed.

(** X10. [call_tool] hands back, with the response, the progress
    notifications of this call in their order of arrival: when every
    frame arrives without a [recv] timeout inside it (pauses between
    bursts of whole frames are allowed), these are exactly the progress
    notifications that arrived before the response. Notifications left
    over from earlier requests are dropped before the request is sent,
    and the client's list is empty again afterwards. *)
Theorem call_tool_returns_progress_of_this_call
        (name : string) (arguments : option json) (admits : nat)
        (c : client) (s : tcp_socket)
        (bursts : list burst) (others : list (bytes * json))
        (chunks : list bytes) (rest : list rx_event)
        (answer_payload more : bytes) (answer : json) :
  initialized c = true ->
  socket c = Some s ->
  hd true (tx_plan s) = true ->
  frame_of (json_dumps (build_request "tools/call"
                          (Some (tool_call_params name arguments))
                          (request_id c + 1)))
  <> None ->
  rx s = paused bursts (delivers chunks rest) ->
  arrives_before_timeout (request_id c + 1) bursts others answer_payload
                         answer chunks more admits ->
  exists c',
    call_tool name arguments admits c
    = (Return (Some answer,
               filter progress_shaped
                      (map snd (frames_of bursts ++ others))), c') /\
    progress_notifications c' = [] /\
    request_id c' = (request_id c + 1)%Z.
Proof.
  intros Hi Es Htx Hfit Hrx Harr.
  unfold call_tool. rewrite Hi. cbn [negb].
  unfold send_request, _send_framed_message.
  cbn [socket set_request_id clear_progress request_id]. rewrite Es.
  unfold send_frame. unfold frame_of in Hfit.
  destruct (to_bytes4_big _) as [pre|]; [|congruence].
  assert (Hsend : exists s1,
            sendall (pre ++ encode_utf8
                       (json_dumps (build_request "tools/call"
                                      (Some (tool_call_params name arguments))
                                      (request_id c + 1)))) s
            = (true, s1) /\ rx s1 = rx s).
  { unfold sendall. destruct (tx_plan s) as [|[|] plan];
      [eexists; split; reflexivity | eexists; split; reflexivity
       | discriminate]. }
  destruct Hsend as (s1 & -> & Hrx1).
  match goal with
  | |- context [await_response json_loads admits _ ?c0] =>
      destruct (@await_response_finds_answer admits (request_id c + 1)
                  c0 s1 bursts others chunks rest answer_payload more answer
                  eq_refl (eq_trans Hrx1 Hrx) Harr)
        as (s' & Hrun & _)
  end.
  cbn [request_id] in Hrun. rewrite Hrun. cbn [progress_notifications app].
  eexists. split; [reflexivity|]. split; reflexivity.
Qed.

(** What the loop keeps, whatever arrives. *)
Ltac loop_ends :=
  split; [auto|]; split; [auto|]; split;
  [ exists []; rewrite app_nil_r; split; [auto|];
    split; [constructor | simpl; lia]
  | intros ? Hret; inversion Hret; subst; auto ].

Lemma await_response_invariant (admits : nat) :
  forall (rid : Z) (c c' : client) (o : outcome (option json)),
    await admits rid c = (o, c') ->
    request_id c' = request_id c /\ initialized c' = initialized c /\
    (exists ps,
        progress_notifications c' = (progress_notifications c ++ ps)%list /\
        Forall (fun p => is_progress p = Return true) ps /\
        length ps <= admits) /\
    (forall r, o = Return (Some r) ->
               is_answer r rid = Return true /\
               is_progress r = Return false).
Proof.
  induction admits as [|admits IH]; intros rid c c' o Hrun.
  - simpl in Hrun. inversion Hrun; subst. loop_ends.
  - cbn [await_response] in Hrun.
    assert (Hkeep : forall c1 : client,
              request_id c1 = request_id c ->
              initialized c1 = initialized c ->
              progress_notifications c1 = progress_notifications c ->
              await admits rid c1 = (o, c') ->
              request_id c' = request_id c /\
              initialized c' = initialized c /\
              (exists ps,
                  progress_notifications c'
                  = (progress_notifications c ++ ps)%list /\
                  Forall (fun p => is_progress p = Return true) ps /\
                  length ps <= S admits) /\
              (forall r, o = Return (Some r) ->
                         is_answer r rid = Return true /\
                         is_progress r = Return false)).
    { intros c1 H1 H2 H3 Hr.
      apply IH in Hr as (I1 & I2 & (ps & I3 & I4 & I5) & I6).
      split; [congruence|]. split; [congruence|]. split; [|exact I6].
      exists ps. split; [congruence|]. split; [exact I4 | lia]. }
    assert (Hrecv : forall r c1, _receive_framed_message 1000 c = (r, c1) ->
              request_id c1 = request_id c /\
              initialized c1 = initialized c /\
              progress_notifications c1 = progress_notifications c).
    { unfold _receive_framed_message. intros r c1.
      destruct (socket c) as [s|].
      - destruct (receive_frame 1000 s) as [m s'].
        intros H; inversion H; subst; auto.
      - intros H; inversion H; subst; auto. }
    destruct (_receive_framed_message 1000 c) as [[text|] c1] eqn:Er;
      destruct (Hrecv _ _ eq_refl) as (R1 & R2 & R3);
      [|now apply (Hkeep c1)].
    destruct (is_empty text); [now apply (Hkeep c1)|].
    destruct (json_loads text) as [v|]; [|now apply (Hkeep c1)].
    destruct (is_progress v) as [[|]|e] eqn:Ep.
    + apply IH in Hrun as (I1 & I2 & (ps & I3 & I4 & I5) & I6).
      simpl in I1, I2, I3.
      split; [congruence|]. split; [congruence|]. split; [|exact I6].
      exists (v :: ps). split; [|split].
      * rewrite I3, R3, <- app_assoc. reflexivity.
      * constructor; assumption.
      * simpl. lia.
    + destruct (is_answer v rid) as [[|]|e] eqn:Ea.
      * inversion Hrun; subst. loop_ends.
      * now apply (Hkeep c1).
      * inversion Hrun; subst. loop_ends.
    + inversion Hrun; subst. loop_ends.
Qed.

(** X11. Whatever arrives on the socket, [send_request] of
    [SessionToolClient] returns as a response only a message that
    carries the identifier of this request and is no progress
    notification; it uses up one identifier; and all it adds to
    [progress_notifications] are progress notifications, behind those
    already there, at most one per turn of its loop. *)
Theorem tool_send_request_result_has_request_id
        (method : string) (params : option json) (admits : nat)
        (c c' : client) (o : outcome (option json)) :
  send_request json_loads json_dumps method params admits c = (o, c') ->
  request_id c' = (request_id c + 1)%Z /\
  initialized c' = initialized c /\
  (exists ps,
      progress_notifications c' = (progress_notifications c ++ ps)%list /\
      Forall (fun p => is_progress p = Return true) ps /\
      length ps <= admits) /\
  (forall r, o = Return (Some r) ->
             is_answer r (request_id c + 1) = Return true /\
             is_progress r = Return false).
Proof.
  unfold send_request, _send_framed_message.
  cbn [socket set_request_id].
  destruct (socket c) as [s|].
  - destruct (send_frame _ s) as [[|] s1].
    + intros H. apply await_response_invariant in H.
      simpl in H. exact H.
    + intros H; inversion H; subst. simpl. loop_ends.
  - intros H; inversion H; subst. simpl. loop_ends.
Qed.

Lemma tool_send_request_keeps_flag
      (method : string) (params : option json) (admits : nat)
      (c c' : client) (o : outcome (option json)) :
  send_request json_loads json_dumps method params admits c = (o, c') ->
  initialized c' = initialized c.
Proof.
  unfold send_request, _send_framed_message.
  cbn [socket set_request_id].
  destruct (socket c) as [s|].
  - destruct (send_frame _ s) as [[|] s1].
    + intros H. apply await_response_invariant in H as (_ & H & _).
      exact H.
    + intros H; inversion H; subst. reflexivity.
  - intros H; inversion H; subst. reflexivity.
Qed.

(** With nothing left to arrive the loop turns until the timeout. *)
Lemma await_response_silence (admits : nat) :
  forall (rid : Z) (c : client) (s : tcp_socket),
    socket c = Some s -> rx s = [] ->
    fst (await admits rid c) = Return None.
Proof.
  induction admits as [|admits IH]; intros rid c s Es Hrx; [reflexivity|].
  cbn [await_response]. unfold _receive_framed_message. rewrite Es.
  unfold receive_frame, recv_exactly. cbn [recv_loop length Nat.leb].
  unfold recv. cbn [rx settimeout]. rewrite Hrx.
  apply (IH rid _ (settimeout 1000 s)); [reflexivity | exact Hrx].
Qed.

(** X12. When no frame that arrives carries the identifier of the
    request (only progress notifications, messages without [id] or
    responses to other requests, and then silence), [send_request] of
    [SessionToolClient] returns [None] once its timeout has elapsed,
    however long that timeout is. *)
Theorem tool_send_request_gives_up_without_answer
        (method : string) (params : option json) (admits : nat)
        (c : client) (s : tcp_socket) (others : list (bytes * json))
        (chunks : list bytes) :
  socket c = Some s ->
  Forall nonempty chunks ->
  rx s = delivers chunks [] ->
  concat chunks = wire (map fst others) ->
  Forall (fun x => well_framed (fst x) /\ decodes (fst x) (snd x) /\
                   passed_over (request_id c + 1) (snd x)) others ->
  fst (send_request json_loads json_dumps method params admits c)
  = Return None.
Proof.
  intros Es Hne Hrx Hcat Hall.
  unfold send_request, _send_framed_message.
  cbn [socket set_request_id]. rewrite Es.
  destruct (send_frame _ s) as [[|] s1] eqn:Hsend; [|reflexivity].
  apply send_frame_true in Hsend as (_ & _ & _ & Hrx1).
  rewrite <- Hrx1 in Hrx. clear Hrx1 Es.
  set (rid := (request_id c + 1)%Z) in *.
  set (c1 := set_socket (set_request_id c rid) (Some s1)).
  assert (Es1 : socket c1 = Some s1) by reflexivity.
  clearbody c1 rid. clear c s.
  revert c1 s1 others chunks Es1 Hne Hrx Hcat Hall.
  induction admits as [|admits IH];
    intros c s others chunks Es Hne Hrx Hcat Hall; [reflexivity|].
  destruct others as [|[payload v] others].
  - simpl in Hcat. destruct chunks as [|ch chunks].
    + apply (@await_response_silence (S admits) rid c s Es). exact Hrx.
    + inversion Hne as [|? ? Hch _]; subst. destruct ch; [now elim Hch|].
      discriminate.
  - inversion Hall as [|? ? (Hwf1 & Hdec1 & Hshape) Hall']; subst.
    simpl in Hwf1, Hdec1, Hshape.
    destruct (well_framed_header Hwf1) as (hdr & Hhdr & Hfr).
    unfold wire in Hcat. cbn [map concat fst] in Hcat.
    rewrite Hfr, <- !app_assoc in Hcat.
    destruct (@receive_frame_complete 1000 s chunks [] hdr payload _
                Hne Hrx Hhdr Hwf1 Hcat) as (chunks' & Hr & Hne' & Hc).
    destruct Hdec1 as (text & Hd & Hem & Hl).
    pose proof Hshape as (d & -> & _).
    cbn [await_response]. unfold _receive_framed_message at 1.
    rewrite Es, Hr, Hd, Hem, Hl.
    destruct (passed_over_step Hshape) as [[Hp _] | (Hp & _ & Ha)];
      rewrite Hp; [|rewrite Ha];
      apply (IH _ (with_rx (settimeout 1000 s) (delivers chunks' []))
                others chunks'); auto.
Qed.

End ToolCalls.

(** ** [initialize] *)

Definition set_initialized (c : client) (b : bool) : client :=
  mkClient (socket c) (request_id c) b (available_tools c)
           (progress_notifications c).

Definition initialize_params : json :=
  JObj [("protocolVersion", JStr "2024-11-05");
        ("capabilities",
         JObj [("roots", JObj [("listChanged", JBool true)]);
               ("sampling", JObj [])]);
        ("clientInfo",
         JObj [("name", JStr "ToolTestClient");
               ("version", JStr "1.0.0")])]%string.

Definition initialized_notification : json :=
  JObj [("jsonrpc", JStr "2.0");
        ("method", JStr "notifications/initialized")]%string.

(** The last frame written on the client's socket. *)
Definition last_sent (c : client) : option bytes :=
  match socket c with
  | Some s => last (map Some (tx_log s)) None
  | None => None
  end.

Section ToolInitialize.

Variable json_loads : string -> option json.
Variable json_dumps : json -> string.

(** [initialize]:
<<
    if self.initialized:
        return True
    response = self.send_request("initialize", params, timeout=15.0)
    if not response or "error" in response or "result" not in response:
        return False
    if self._send_framed_message(json.dumps(initialized_notification)):
        self.initialized = True
        return True
    return False
>> *)
Definition initialize (admits : nat) (c : client) : outcome bool * client :=
  if initialized c then (Return true, c) else
  match send_request json_loads json_dumps "initialize"
                     (Some initialize_params) admits c with
  | (Raise e, c1) => (Raise e, c1)
  | (Return None, c1) => (Return false, c1)
  | (Return (Some response), c1) =>
      if negb (truthy response) then (Return false, c1) else
      match py_in "error" response with
      | Raise e => (Raise e, c1)
      | Return true => (Return false, c1)
      | Return false =>
          match py_in "result" response with
          | Raise e => (Raise e, c1)
          | Return false => (Return false, c1)
          | Return true =>
              match _send_framed_message
                      (json_dumps initialized_notification) c1 with
              | (true, c2) => (Return true, set_initialized c2 true)
              | (false, c2) => (Return false, c2)
              end
          end
      end
  end.

Lemma tool_send_framed_cases (data : string) (c c' : client) (b : bool) :
  _send_framed_message data c = (b, c') ->
  initialized c' = initialized c /\
  (b = true ->
   exists frame, frame_of data = Some frame /\ last_sent c' = Some frame).
Proof.
  unfold _send_framed_message.
  destruct (socket c) as [s|].
  - destruct (send_frame data s) as [sent s'] eqn:Hs.
    intros H; inversion H; subst. split; [reflexivity|]. intros ->.
    apply send_frame_true in Hs as (frame & Hf & Hlog & _).
    exists frame. split; [exact Hf|].
    unfold last_sent. simpl. rewrite Hlog, map_app. simpl.
    now rewrite last_last.
  - intros H; inversion H; subst. split; [reflexivity | discriminate].
Qed.

(** X23. [SessionToolClient.initialize] marks the client initialized only
    on the path on which it has written the [initialized] notification,
    which is then the last frame sent, and on that path it returns
    [True]; on every other outcome of a call on a client that was not
    initialized the flag stays [False]. On an initialized client it
    returns [True] at once and changes nothing. *)
Theorem tool_initialize_needs_notification
        (admits : nat) (c c' : client) (o : outcome bool) :
  initialize admits c = (o, c') ->
  (initialized c = true -> o = Return true /\ c' = c) /\
  (initialized c = false ->
   (o = Return true <-> initialized c' = true) /\
   (initialized c' = true ->
    exists frame,
      frame_of (json_dumps initialized_notification) = Some frame /\
      last_sent c' = Some frame)).
Proof.
  unfold initialize. destruct (initialized c) eqn:Hi.
  { intros H; inversion H; subst. split; [auto | discriminate]. }
  intros Hrun. split; [discriminate|]. intros _.
  destruct (send_request json_loads json_dumps "initialize"
              (Some initialize_params) admits c) as [[[r|]|e] c1] eqn:Er;
    pose proof (@tool_send_request_keeps_flag json_loads json_dumps
                  _ _ _ _ _ _ Er) as Hi1.
  2:{ inversion Hrun; subst. rewrite Hi1, Hi.
      split; [split|]; discriminate. }
  2:{ inversion Hrun; subst. rewrite Hi1, Hi.
      split; [split|]; discriminate. }
  assert (Hfail : forall e0 : outcome bool,
            e0 <> Return true -> (o, c') = (e0, c1) ->
            (o = Return true <-> initialized c' = true) /\
            (initialized c' = true ->
             exists frame,
               frame_of (json_dumps initialized_notification) = Some frame /\
               last_sent c' = Some frame)).
  { intros e0 He H. inversion H; subst. rewrite Hi1, Hi.
    split; [split|]; [contradiction | discriminate | discriminate]. }
  destruct (truthy r); cbn [negb] in Hrun;
    [|apply (Hfail (Return false)); [discriminate | now symmetry]].
  destruct (py_in "error" r) as [[|]|e];
    [apply (Hfail (Return false)); [discriminate | now symmetry]
    | | apply (Hfail (Raise e)); [discriminate | now symmetry]].
  destruct (py_in "result" r) as [[|]|e];
    [| apply (Hfail (Return false)); [discriminate | now symmetry]
     | apply (Hfail (Raise e)); [discriminate | now symmetry]].
  destruct (_send_framed_message (json_dumps initialized_notification) c1)
    as [[|] c2] eqn:Es;
    apply tool_send_framed_cases in Es as (Hi2 & Hsent);
    inversion Hrun; subst.
  - split; [split; reflexivity|]. intros _.
    destruct (Hsent eq_refl) as (frame & Hf & Hl).
    exists frame. split; [exact Hf | exact Hl].
  - rewrite Hi2, Hi1, Hi. split; [split|]; discriminate.
Qed.

End ToolInitialize.

End ToolClient.

(* ===================================================================== *)
(** * The log aggregator of integrated_test_runner.py                     *)
(* ===================================================================== *)

Module Aggregator.

Local Open Scope string_scope.

(** ** Timestamps and formatting *)

(** A naive [datetime], as [datetime.now()] returns it. *)
Record datetime := mkDatetime {
  year : Z;
  month : Z;
  day : Z;
  hour : Z;
  minute : Z;
  second : Z;
  microsecond : Z
}.

(** The ranges that the [datetime] type enforces. *)
Definition valid_datetime (t : datetime) : Prop :=
  (1 <= year t <= 9999 /\ 1 <= month t <= 12 /\ 1 <= day t <= 31 /\
   0 <= hour t <= 23 /\ 0 <= minute t <= 59 /\ 0 <= second t <= 59 /\
   0 <= microsecond t <= 999999)%Z.

Definition digit_char (d : Z) : ascii := ascii_of_N (Z.to_N (48 + d)).

(** The [width] low-order decimal digits of [n]. *)
Fixpoint low_digits (width : nat) (n : Z) : string :=
  match width with
  | O => ""
  | S w => low_digits w (n / 10) ++ String (digit_char (n mod 10)) ""
  end.

Definition str_of_int (n : Z) : string := NilZero.string_of_int (Z.to_int n).

(** ["%0<width>d" % n] for [n >= 0]. *)
Definition zero_padded (width : nat) (n : Z) : string :=
  if (n <? 10 ^ Z.of_nat width)%Z then low_digits width n else str_of_int n.

(** [datetime.isoformat()] *)
Definition isoformat (t : datetime) : string :=
  zero_padded 4 (year t) ++ "-" ++ zero_padded 2 (month t) ++ "-"
  ++ zero_padded 2 (day t) ++ "T" ++ zero_padded 2 (hour t) ++ ":"
  ++ zero_padded 2 (minute t) ++ ":" ++ zero_padded 2 (second t)
  ++ (if (microsecond t =? 0)%Z then ""
      else "." ++ zero_padded 6 (microsecond t)).

(** [len(s)]: the code points of a text kept as UTF-8. *)
Fixpoint py_len (s : string) : nat :=
  match s with
  | EmptyString => O
  | String a rest =>
      let n := N_of_ascii a in
      if ((128 <=? n) && (n <? 192))%N then py_len rest
      else S (py_len rest)
  end.

Fixpoint spaces (n : nat) : string :=
  match n with O => "" | S n' => String " " (spaces n') end.

(** [f"{s:>width}"] *)
Definition rjust (width : nat) (s : string) : string :=
  spaces (width - py_len s) ++ s.

Fixpoint repeat_char (a : ascii) (n : nat) : string :=
  match n with O => "" | S n' => String a (repeat_char a n') end.

Definition nl : string := String (ascii_of_nat 10) "".

(** ** Entries and the output file *)

Record LogEntry := mkLogEntry {
  timestamp : datetime;
  source : string;
  level : string;
  message : string;
  raw_data : option string
}.

(** A text file opened for writing: what [write] has buffered, what has
    reached the file, and whether [close] was called. *)
Record text_file := mkFile {
  buffered : string;
  on_disk : string;
  closed : bool
}.

(** [open(path, 'w')] *)
Definition open_w : text_file := mkFile "" "" false.

Inductive io_result :=
| Done
| ValueError.

(** [f.write(text)]; on a closed file it raises. *)
Definition file_write (text : string) (f : text_file)
  : io_result * text_file :=
  if closed f then (ValueError, f)
  else (Done, mkFile (buffered f ++ text) (on_disk f) false).

(** [f.flush()] *)
Definition file_flush (f : text_file) : io_result * text_file :=
  if closed f then (ValueError, f)
  else (Done, mkFile "" (on_disk f ++ buffered f) false).

(** [f.close()], which flushes. *)
Definition file_close (f : text_file) : text_file :=
  if closed f then f else mkFile "" (on_disk f ++ buffered f) true.

(** ** The runner *)

Inductive consumer_pc :=
| AtLoopTest
| InQueueGet
| ToDisplay (entry : LogEntry)
| ToWrite (entry : LogEntry)
| Exited.

Inductive stopper_pc :=
| BeforeStop
| FlagCleared
| MonitorStopped
| Stopped.

(** The attributes of [IntegratedTestRunner] that the logging methods
    use, what [_display_log_entry] has printed so far, and where the
    consumer thread and a caller of [stop_logging] stand. *)
Record runner := mkRunner {
  esp_ip : string;
  serial_port : string;
  baud_rate : Z;
  log_queue : list LogEntry;
  running : bool;
  log_file : option text_file;
  displayed : list LogEntry;
  consumer : consumer_pc;
  stopper : stopper_pc
}.

Definition set_log_file (r : runner) (f : option text_file) : runner :=
  mkRunner (esp_ip r) (serial_port r) (baud_rate r) (log_queue r)
           (running r) f (displayed r) (consumer r) (stopper r).

Definition set_consumer (r : runner) (pc : consumer_pc) : runner :=
  mkRunner (esp_ip r) (serial_port r) (baud_rate r) (log_queue r)
           (running r) (log_file r) (displayed r) pc (stopper r).

(** [IntegratedTestRunner.__init__] *)
Definition new_runner (ip port : string) (baud : Z) : runner :=
  mkRunner ip port baud [] false None [] Exited BeforeStop.

(** The text that [_write_log_header] writes. *)
Definition log_header (now : datetime) (r : runner) : string :=
  nl ++ "# ESP8266 MCP Integrated Test Log" ++ nl
  ++ "# Generated: " ++ isoformat now ++ nl
  ++ "# ESP8266 IP: " ++ esp_ip r ++ nl
  ++ "# Serial Port: " ++ serial_port r ++ nl
  ++ "# Baud Rate: " ++ str_of_int (baud_rate r) ++ nl
  ++ repeat_char "=" 80 ++ nl.

(** The line that [_write_log_entry] writes:
    [f"{entry.timestamp.isoformat()} [{entry.source:>7}]
       {entry.level:>5}: {entry.message}\n"] *)
Definition log_line (entry : LogEntry) : string :=
  isoformat (timestamp entry) ++ " [" ++ rjust 7 (source entry) ++ "] "
  ++ rjust 5 (level entry) ++ ": " ++ message entry ++ nl.

(** [write] then [flush] on the configured file. *)
Definition write_and_flush (text : string) (r : runner)
  : io_result * runner :=
  match log_file r with
  | None => (Done, r)
  | Some f =>
      match file_write text f with
      | (ValueError, f1) => (ValueError, set_log_file r (Some f1))
      | (Done, f1) =>
          let (res, f2) := file_flush f1 in
          (res, set_log_file r (Some f2))
      end
  end.

(** [_write_log_header] *)
Definition _write_log_header (now : datetime) (r : runner)
  : io_result * runner :=
  write_and_flush (log_header now r) r.

(** [_write_log_entry] *)
Definition _write_log_entry (entry : LogEntry) (r : runner)
  : io_result * runner :=
  write_and_flush (log_line entry) r.

(** [_display_log_entry]: the entry goes to the terminal. *)
Definition _display_log_entry (entry : LogEntry) (r : runner) : runner :=
  mkRunner (esp_ip r) (serial_port r) (baud_rate r) (log_queue r)
           (running r) (log_file r) (displayed r ++ [entry])
           (consumer r) (stopper r).

(** [start_logging(log_file_path)]: the file is opened and the header
    written when a path is given; then the consumer thread is started. *)
Definition start_logging (log_file_path : option string) (now : datetime)
                         (r : runner) : runner :=
  let r1 :=
    match log_file_path with
    | Some path =>
        if String.eqb path "" then r
        else snd (_write_log_header now (set_log_file r (Some open_w)))
    | None => r
    end in
  mkRunner (esp_ip r1) (serial_port r1) (baud_rate r1) (log_queue r1)
           true (log_file r1) (displayed r1) AtLoopTest BeforeStop.

(** ** The threads, one step at a time *)

(** One step of the consumer thread, [_process_log_queue]:
<<
    while self.running:
        try:
            log_entry = self.log_queue.get(timeout=0.1)
            self._display_log_entry(log_entry)
            if self.log_file:
                self._write_log_entry(log_entry)
        except queue.Empty:
            continue
        except Exception as e:
            print(...)
>> *)
Definition consumer_step (r : runner) : runner :=
  match consumer r with
  | AtLoopTest =>
      if running r then set_consumer r InQueueGet else set_consumer r Exited
  | InQueueGet =>
      match log_queue r with
      | [] => set_consumer r AtLoopTest
      | entry :: rest =>
          mkRunner (esp_ip r) (serial_port r) (baud_rate r) rest
                   (running r) (log_file r) (displayed r)
                   (ToDisplay entry) (stopper r)
      end
  | ToDisplay entry =>
      set_consumer (_display_log_entry entry r) (ToWrite entry)
  | ToWrite entry =>
      set_consumer (snd (_write_log_entry entry r)) AtLoopTest
  | Exited => r
  end.

(** One statement of [stop_logging]:
<<
    self.running = False
    self.serial_monitor.stop()
    if self.log_file:
        self.log_file.close()
>> *)
Definition stopper_step (r : runner) : runner :=
  match stopper r with
  | BeforeStop =>
      mkRunner (esp_ip r) (serial_port r) (baud_rate r) (log_queue r)
               false (log_file r) (displayed r) (consumer r) FlagCleared
  | FlagCleared =>
      mkRunner (esp_ip r) (serial_port r) (baud_rate r) (log_queue r)
               (running r) (log_file r) (displayed r) (consumer r)
               MonitorStopped
  | MonitorStopped =>
      mkRunner (esp_ip r) (serial_port r) (baud_rate r) (log_queue r)
               (running r) (option_map file_close (log_file r))
               (displayed r) (consumer r) Stopped
  | Stopped => r
  end.

(** [self.log_queue.put(entry)], by either producer. *)
Definition put (entry : LogEntry) (r : runner) : runner :=
  mkRunner (esp_ip r) (serial_port r) (baud_rate r) (log_queue r ++ [entry])
           (running r) (log_file r) (displayed r) (consumer r) (stopper r).

Inductive action :=
| Consumer
| Stopper
| Put (entry : LogEntry).

Definition step (a : action) (r : runner) : runner :=
  match a with
  | Consumer => consumer_step r
  | Stopper => stopper_step r
  | Put entry => put entry r
  end.

(** An interleaving of the threads. *)
Definition run (schedule : list action) (r : runner) : runner :=
  fold_left (fun st a => step a st) schedule r.

(** What has reached the output file. *)
Definition persisted (r : runner) : string :=
  match log_file r with
  | Some f => on_disk f
  | None => ""
  end.

(** ** The shape of a timestamp *)

Lemma string_app_nil (a : string) : a ++ "" = a.
Proof. induction a as [|x a IH]; simpl; [reflexivity | now rewrite IH]. Qed.

Lemma string_append_assoc (a b c : string) : (a ++ b) ++ c = a ++ b ++ c.
Proof. induction a as [|x a IH]; simpl; [reflexivity | now rewrite IH]. Qed.


Definition is_digit (a : ascii) : bool :=
  let n := N_of_ascii a in ((48 <=? n) && (n <=? 57))%N.






Lemma string_length_app (a b : string) :
  String.length (a ++ b) = String.length a + String.length b.
Proof. induction a as [|x a IH]; simpl; [reflexivity | now rewrite IH]. Qed.






Lemma zero_padded_in_range (width : nat) (n : Z) :
  (n < 10 ^ Z.of_nat width)%Z -> zero_padded width n = low_digits width n.
Proof.
  intros H. unfold zero_padded. apply Z.ltb_lt in H. now rewrite H.
Qed.


(** ** Right alignment *)




(** ** Writing the file *)

Definition buffer_empty (r : runner) : Prop :=
  forall f, log_file r = Some f -> buffered f = "".

Lemma write_and_flush_open (text : string) (r : runner) (f : text_file) :
  log_file r = Some f -> closed f = false ->
  write_and_flush text r
  = (Done, set_log_file r
             (Some (mkFile "" (on_disk f ++ buffered f ++ text) false))).
Proof.
  intros Hf Hc. unfold write_and_flush, file_write, file_flush.
  rewrite Hf, Hc. reflexivity.
Qed.


Definition lines (entries : list LogEntry) : string :=
  fold_right (fun e rest => log_line e ++ rest) "" entries.


(** ** Reading the fields back *)

(** The number written by the first [n] characters of [s], which have to
    be digits, behind the digits already read as [acc]; and the rest of
    [s]. *)
Fixpoint read_digits (n : nat) (acc : Z) (s : string)
  : option (Z * string) :=
  match n with
  | O => Some (acc, s)
  | S n' =>
      match s with
      | String a rest =>
          if is_digit a
          then read_digits n' (acc * 10 + (Z.of_N (N_of_ascii a) - 48))%Z rest
          else None
      | EmptyString => None
      end
  end.













(** ** Stopping *)

(** The entry that the consumer has taken from the queue and not yet
    displayed, and the entry that it has displayed and not yet written. *)
Definition in_flight (r : runner) : list LogEntry :=
  match consumer r with ToDisplay e => [e] | _ => [] end.

Definition awaiting_write (r : runner) : list LogEntry :=
  match consumer r with ToWrite e => [e] | _ => [] end.

(** The entries that the producers put during a schedule. *)
Fixpoint puts_of (schedule : list action) : list LogEntry :=
  match schedule with
  | [] => []
  | Put entry :: rest => entry :: puts_of rest
  | _ :: rest => puts_of rest
  end.

(** How many entries an iteration already under way can still take from
    the queue, and how many it can still display. *)
Definition pops_left (r : runner) : nat :=
  match consumer r with InQueueGet => 1 | _ => 0 end.

Definition displays_left (r : runner) : nat :=
  match consumer r with InQueueGet | ToDisplay _ => 1 | _ => 0 end.

Lemma run_cons (a : action) (schedule : list action) (r : runner) :
  run (a :: schedule) r = run schedule (step a r).
Proof. reflexivity. Qed.

Lemma step_keeps_flag_cleared (a : action) (r : runner) :
  running r = false -> running (step a r) = false.
Proof.
  intros Hr. destruct a; simpl; auto.
  - unfold consumer_step.
    destruct (consumer r); simpl; auto.
    + now rewrite Hr.
    + destruct (log_queue r); simpl; auto.
    + unfold _write_log_entry, write_and_flush.
      destruct (log_file r) as [f|]; simpl; auto.
      destruct (file_write _ f) as [[|] f1]; simpl; auto.
      destruct (file_flush f1); simpl; auto.
  - unfold stopper_step. destruct (stopper r); simpl; auto.
Qed.

(** Once the flag is cleared, at most one more entry leaves the queue and
    at most one more entry is displayed. *)
Lemma run_after_flag_cleared (schedule : list action) :
  forall r : runner,
    running r = false ->
    exists k extra,
      k <= pops_left r /\
      log_queue (run schedule r)
      = skipn k (log_queue r ++ puts_of schedule)%list /\
      displayed (run schedule r) = (displayed r ++ extra)%list /\
      length extra <= displays_left r.
Proof.
  induction schedule as [|a schedule IH]; intros r Hr.
  - exists 0, []. simpl. rewrite !app_nil_r. repeat split; lia.
  - rewrite run_cons.
    destruct (IH (step a r) (step_keeps_flag_cleared a r Hr))
      as (k & extra & Hk & Hq & Hd & He).
    destruct a as [| |entry].
    + (* the consumer *)
      simpl in *. unfold consumer_step, pops_left, displays_left in *.
      destruct (consumer r) as [| |e|e|] eqn:Ec.
      * rewrite Hr in *. simpl in *.
        exists 0, extra. assert (k = 0) by lia. subst k.
        repeat split; auto.
      * destruct (log_queue r) as [|e q] eqn:Eq; simpl in *.
        -- exists 0, extra. assert (k = 0) by lia. subst k.
           rewrite Eq in Hq. repeat split; auto; lia.
        -- exists 1, extra. assert (k = 0) by lia. subst k.
           repeat split; auto.
      * simpl in *. assert (k = 0) by lia. subst k.
        destruct extra; [|simpl in He; lia].
        exists 0, [e]. rewrite Hd, app_nil_r. repeat split; auto.
      * assert (Hsame : log_queue (snd (_write_log_entry e r)) = log_queue r
                        /\ displayed (snd (_write_log_entry e r))
                           = displayed r).
        { unfold _write_log_entry, write_and_flush.
          destruct (log_file r) as [f|]; simpl; auto.
          destruct (file_write _ f) as [[|] f1]; simpl; auto.
          destruct (file_flush f1); simpl; auto. }
        destruct Hsame as [Hq1 Hd1]. simpl in *.
        rewrite Hq1 in Hq. rewrite Hd1 in Hd.
        exists k, extra. repeat split; auto.
      * rewrite Ec in *. exists k, extra. repeat split; auto.
    + (* stop_logging *)
      simpl in *. unfold stopper_step, pops_left, displays_left in *.
      destruct (stopper r); simpl in *; exists k, extra; repeat split; auto.
    + (* a producer *)
      simpl in *. unfold pops_left, displays_left in *. simpl in *.
      exists k, extra. rewrite <- app_assoc in Hq. repeat split; auto.
Qed.

Definition consumer_idle (r : runner) : Prop :=
  consumer r = AtLoopTest \/ consumer r = Exited.

(** With the flag cleared and the consumer at its loop test (or gone),
    nothing is displayed or written any more. *)
Lemma run_when_idle (schedule : list action) :
  forall r : runner,
    running r = false -> consumer_idle r -> buffer_empty r ->
    displayed (run schedule r) = displayed r /\
    persisted (run schedule r) = persisted r /\
    log_queue (run schedule r) = (log_queue r ++ puts_of schedule)%list.
Proof.
  induction schedule as [|a schedule IH]; intros r Hr Hidle Hbuf.
  - simpl. now rewrite app_nil_r.
  - rewrite run_cons.
    assert (Hstep : consumer_idle (step a r) /\ buffer_empty (step a r) /\
                    displayed (step a r) = displayed r /\
                    persisted (step a r) = persisted r /\
                    log_queue (step a r)
                    = (log_queue r ++ match a with
                                      | Put e => [e]
                                      | _ => []
                                      end)%list).
    { destruct a as [| |entry]; simpl.
      - unfold consumer_step.
        destruct Hidle as [Hc|Hc]; rewrite Hc.
        + rewrite Hr. unfold consumer_idle. simpl.
          rewrite app_nil_r. auto 10.
        + rewrite app_nil_r. unfold consumer_idle. auto 10.
      - unfold stopper_step.
        destruct (stopper r); simpl; rewrite ?app_nil_r;
          try (repeat split; auto; fail).
        repeat split; auto.
        + intros f. unfold buffer_empty in Hbuf. simpl.
          destruct (log_file r) as [f0|]; simpl; [|discriminate].
          intros H. inversion H; subst. unfold file_close.
          destruct (closed f0); [now apply Hbuf | reflexivity].
        + unfold persisted. simpl.
          destruct (log_file r) as [f0|] eqn:Ef; simpl; [|reflexivity].
          unfold file_close. destruct (closed f0); [reflexivity|]. simpl.
          rewrite (Hbuf f0 Ef). apply string_app_nil.
      - repeat split; auto. }
    destruct Hstep as (Hi1 & Hb1 & Hd1 & Hp1 & Hq1).
    destruct (IH (step a r) (step_keeps_flag_cleared a r Hr) Hi1 Hb1)
      as (Hd & Hp & Hq).
    rewrite Hd, Hp, Hq, Hd1, Hp1, Hq1, <- app_assoc.
    repeat split. destruct a; reflexivity.
Qed.

Lemma write_entry_keeps (e : LogEntry) (r : runner) :
  log_queue (snd (_write_log_entry e r)) = log_queue r /\
  displayed (snd (_write_log_entry e r)) = displayed r /\
  running (snd (_write_log_entry e r)) = running r /\
  consumer (snd (_write_log_entry e r)) = consumer r.
Proof.
  unfold _write_log_entry, write_and_flush.
  destruct (log_file r) as [f|]; simpl; auto.
  destruct (file_write _ f) as [[|] f1]; simpl; auto.
  destruct (file_flush f1); simpl; auto.
Qed.

(** What one write adds to the file: the line of the entry, or nothing
    when the file is closed or none is configured. *)
Lemma write_entry_file (e : LogEntry) (r : runner) :
  buffer_empty r ->
  buffer_empty (snd (_write_log_entry e r)) /\
  (persisted (snd (_write_log_entry e r)) = persisted r \/
   persisted (snd (_write_log_entry e r)) = persisted r ++ lines [e]).
Proof.
  intros Hb. unfold _write_log_entry, write_and_flush, persisted.
  destruct (log_file r) as [f|] eqn:Ef.
  - pose proof (Hb f Ef) as Hbuf.
    unfold file_write, file_flush. destruct (closed f) eqn:Hc; simpl.
    + split; [|left; reflexivity].
      intros f' H. inversion H; subst. exact Hbuf.
    + split.
      * intros f' H. inversion H; subst. reflexivity.
      * right. rewrite Hbuf. simpl. now rewrite string_app_nil.
  - simpl. rewrite Ef. split; [exact Hb | left; reflexivity].
Qed.

Lemma step_keeps_buffer_empty (a : action) (r : runner) :
  buffer_empty r -> buffer_empty (step a r).
Proof.
  intros Hb. destruct a as [| |entry]; simpl.
  - unfold consumer_step. destruct (consumer r) as [| |e|e|].
    + destruct (running r); exact Hb.
    + destruct (log_queue r); exact Hb.
    + exact Hb.
    + destruct (write_entry_file e Hb) as [Hb' _].
      intros f Hf. apply Hb'. exact Hf.
    + exact Hb.
  - unfold stopper_step. destruct (stopper r); try exact Hb.
    intros f Hf. simpl in Hf.
    destruct (log_file r) as [f0|] eqn:Ef; [|discriminate].
    simpl in Hf. inversion Hf; subst. unfold file_close.
    destruct (closed f0); [exact (Hb f0 Ef) | reflexivity].
  - exact Hb.
Qed.

(** Once the flag is cleared, the iteration of the consumer that is under
    way handles at most one entry: the one it holds, or the first of the
    queue when it is waiting in [get]. That entry is all that can still be
    displayed, and its line is all that can still reach the file. *)
Lemma run_after_flag_cleared_file (schedule : list action) :
  forall r : runner,
    running r = false ->
    buffer_empty r ->
    exists k extra written,
      k <= pops_left r /\
      log_queue (run schedule r)
      = skipn k (log_queue r ++ puts_of schedule)%list /\
      displayed (run schedule r) = (displayed r ++ extra)%list /\
      length extra <= displays_left r /\
      (extra = [] \/
       extra = (in_flight r
                ++ firstn k (log_queue r ++ puts_of schedule))%list) /\
      persisted (run schedule r) = persisted r ++ lines written /\
      (written = [] \/ written = (awaiting_write r ++ extra)%list).
Proof.
  induction schedule as [|a schedule IH]; intros r Hr Hb.
  - exists 0, [], []. simpl. rewrite !app_nil_r, string_app_nil.
    repeat split; auto; lia.
  - rewrite run_cons.
    destruct (IH (step a r) (step_keeps_flag_cleared a r Hr)
                 (step_keeps_buffer_empty a Hb))
      as (k & extra & written & Hk & Hq & Hd & He & Hx & Hp & Hw).
    destruct a as [| |entry].
    + (* the consumer *)
      simpl in *.
      unfold consumer_step, pops_left, displays_left, in_flight,
             awaiting_write in *.
      destruct (consumer r) as [| |e|e|] eqn:Ec.
      * rewrite Hr in *. simpl in *.
        assert (k = 0) by lia. subst k.
        destruct extra; [|simpl in He; lia].
        exists 0, [], written. repeat split; auto.
      * destruct (log_queue r) as [|e q] eqn:Eq; simpl in *.
        -- assert (k = 0) by lia. subst k.
           destruct extra; [|simpl in He; lia].
           rewrite Eq in Hq. exists 0, [], written. repeat split; auto.
        -- assert (k = 0) by lia. subst k.
           exists 1, extra, written. repeat split; auto.
      * simpl in *. assert (k = 0) by lia. subst k.
        destruct extra; [|simpl in He; lia].
        exists 0, [e], written. rewrite Hd, app_nil_r.
        repeat split; auto.
      * destruct (write_entry_keeps e r) as (Hq1 & Hd1 & _).
        destruct (write_entry_file e Hb) as [_ Hfile].
        simpl in *. rewrite Hq1 in Hq. rewrite Hd1 in Hd.
        assert (k = 0) by lia. subst k.
        destruct extra; [|simpl in He; lia].
        assert (Hwritten : written = []).
        { destruct Hw as [Hw | Hw]; exact Hw. }
        subst written. simpl lines in Hp. rewrite string_app_nil in Hp.
        change (persisted (set_consumer (snd (_write_log_entry e r))
                                        AtLoopTest))
          with (persisted (snd (_write_log_entry e r))) in Hp.
        destruct Hfile as [Hsame | Hline].
        -- exists 0, [], []. rewrite Hp, Hsame. simpl.
           rewrite string_app_nil. repeat split; auto.
        -- exists 0, [], [e]. rewrite Hp, Hline.
           repeat split; auto.
      * rewrite Ec in *. simpl in *.
        exists k, extra, written. repeat split; auto.
    + (* stop_logging *)
      assert (Hsame : pops_left (step Stopper r) = pops_left r /\
                      displays_left (step Stopper r) = displays_left r /\
                      in_flight (step Stopper r) = in_flight r /\
                      awaiting_write (step Stopper r) = awaiting_write r /\
                      log_queue (step Stopper r) = log_queue r /\
                      displayed (step Stopper r) = displayed r /\
                      persisted (step Stopper r) = persisted r).
      { simpl. unfold stopper_step, pops_left, displays_left, in_flight,
               awaiting_write, persisted.
        destruct (stopper r); simpl; repeat split; auto.
        destruct (log_file r) as [f|] eqn:Ef; simpl; [|reflexivity].
        unfold file_close. destruct (closed f); [reflexivity|]. simpl.
        rewrite (Hb f Ef). apply string_app_nil. }
      destruct Hsame as (S1 & S2 & S3 & S4 & S5 & S6 & S7).
      rewrite S1 in Hk. rewrite S2 in He. rewrite S3, S5 in Hx.
      rewrite S4 in Hw. rewrite S5 in Hq. rewrite S6 in Hd.
      rewrite S7 in Hp.
      exists k, extra, written. simpl puts_of. repeat split; auto.
    + (* a producer *)
      simpl in *.
      unfold pops_left, displays_left, in_flight, awaiting_write,
             persisted in *.
      simpl in *. rewrite <- app_assoc in Hq, Hx.
      exists k, extra, written. repeat split; auto.
Qed.

(** C10, as the code has it. [stop_logging] clears the flag, stops the
    serial monitor and closes the file in three statements of its own: it
    takes nothing from the queue and does not wait for the consumer
    thread. After the flag is cleared the consumer takes at most one more
    entry, and only in an iteration that had passed the loop test before;
    every other entry still enqueued stays in the queue and is never
    displayed. Once the consumer is back at its loop test nothing is
    displayed or written at all. In every case what is added to the
    display after the flag was cleared is at most the one entry that the
    iteration under way handles (the entry the consumer holds, or the
    first of the queue), and what is added to the file is at most the
    line of that entry. *)
Theorem stop_logging_leaves_queue
        (r : runner) (schedule : list action) :
  running r = false ->
  (exists k extra,
      k <= 1 /\
      (consumer_idle r -> k = 0) /\
      log_queue (run schedule r)
      = skipn k (log_queue r ++ puts_of schedule)%list /\
      displayed (run schedule r) = (displayed r ++ extra)%list /\
      length extra <= 1) /\
  (consumer_idle r -> buffer_empty r ->
   displayed (run schedule r) = displayed r /\
   persisted (run schedule r) = persisted r) /\
  (forall st : runner,
      stopper st = BeforeStop ->
      let st' := run [Stopper; Stopper; Stopper] st in
      running st' = false /\
      consumer st' = consumer st /\
      log_queue st' = log_queue st /\
      displayed st' = displayed st /\
      forall f, log_file st = Some f ->
                exists f', log_file st' = Some f' /\ closed f' = true) /\
  (buffer_empty r ->
   exists k extra written,
     k <= 1 /\
     log_queue (run schedule r)
     = skipn k (log_queue r ++ puts_of schedule)%list /\
     displayed (run schedule r) = (displayed r ++ extra)%list /\
     length extra <= 1 /\
     (extra = [] \/
      extra = (in_flight r
               ++ firstn k (log_queue r ++ puts_of schedule))%list) /\
     persisted (run schedule r) = persisted r ++ lines written /\
     (written = [] \/ written = (awaiting_write r ++ extra)%list)).
Proof.
  intros Hr. split; [|split; [|split]].
  - destruct (run_after_flag_cleared schedule r Hr)
      as (k & extra & Hk & Hq & Hd & He).
    exists k, extra. unfold pops_left, displays_left in *. repeat split; auto.
    + destruct (consumer r); lia.
    + intros [Hc|Hc]; rewrite Hc in Hk; lia.
    + destruct (consumer r); lia.
  - intros Hidle Hbuf.
    destruct (@run_when_idle schedule r Hr Hidle Hbuf) as (Hd & Hp & _).
    auto.
  - intros st Hs st'. unfold st', run.
    destruct st as [ip port baud queue flag file shown cpc spc].
    simpl in Hs. subst spc. cbn.
    repeat split; auto.
    intros f Hf. inversion Hf; subst. cbn. eexists. split; [reflexivity|].
    unfold file_close. destruct (closed f) eqn:Hc; [exact Hc | reflexivity].
  - intros Hb.
    destruct (@run_after_flag_cleared_file schedule r Hr Hb)
      as (k & extra & written & Hk & Hq & Hd & He & Hx & Hp & Hw).
    exists k, extra, written.
    unfold pops_left, displays_left in *.
    repeat split; auto; destruct (consumer r); lia.
Qed.

(** ** The consumer thread under any interleaving *)

Lemma step_keeps_order (a : action) (r : runner) :
  (displayed (step a r) ++ in_flight (step a r) ++ log_queue (step a r))%list
  = (displayed r ++ in_flight r ++ log_queue r
     ++ match a with Put e => [e] | _ => [] end)%list.
Proof.
  destruct a as [| |entry]; simpl.
  - unfold consumer_step, in_flight.
    destruct (consumer r) as [| |e|e|] eqn:Ec; simpl.
    + destruct (running r); simpl; now rewrite app_nil_r.
    + destruct (log_queue r) as [|e q] eqn:Eq; simpl;
        now rewrite ?Eq, ?app_nil_r.
    + now rewrite <- !app_assoc, app_nil_r.
    + destruct (write_entry_keeps e r) as (-> & -> & _).
      now rewrite app_nil_r.
    + rewrite Ec. now rewrite app_nil_r.
  - unfold stopper_step, in_flight.
    destruct (stopper r); simpl; now rewrite app_nil_r.
  - unfold in_flight. simpl. reflexivity.
Qed.

(** X17. Under every interleaving of the producers, the consumer thread
    and [stop_logging], no entry is lost, duplicated or reordered: what
    has been displayed, followed by the entry in the consumer's hands
    and by the queue, is always what it was at the start followed by the
    entries put since, in the order of the [put] calls. *)
Theorem entries_keep_arrival_order (schedule : list action) :
  forall r : runner,
    (displayed (run schedule r) ++ in_flight (run schedule r)
     ++ log_queue (run schedule r))%list
    = (displayed r ++ in_flight r ++ log_queue r ++ puts_of schedule)%list.
Proof.
  induction schedule as [|a schedule IH]; intros r.
  - simpl. now rewrite app_nil_r.
  - pose proof (step_keeps_order a r) as Hs.
    rewrite run_cons, IH.
    replace (displayed (step a r) ++ in_flight (step a r)
             ++ log_queue (step a r) ++ puts_of schedule)%list
      with ((displayed (step a r) ++ in_flight (step a r)
             ++ log_queue (step a r)) ++ puts_of schedule)%list
      by (now rewrite <- !app_assoc).
    rewrite Hs, <- !app_assoc. destruct a; reflexivity.
Qed.

Lemma lines_app (a b : list LogEntry) :
  lines (a ++ b) = lines a ++ lines b.
Proof.
  induction a as [|e a IH]; simpl; [reflexivity|].
  now rewrite IH, string_append_assoc.
Qed.

(** The output file is open and all that was written has been flushed. *)
Definition file_ready (r : runner) : Prop :=
  exists f, log_file r = Some f /\ closed f = false /\ buffered f = "".

Lemma step_file_follows (a : action) (r : runner) :
  file_ready r -> a <> Stopper ->
  file_ready (step a r) /\
  exists shown,
    displayed (step a r) = (displayed r ++ shown)%list /\
    persisted (step a r) ++ lines (awaiting_write (step a r))
    = persisted r ++ lines (awaiting_write r) ++ lines shown.
Proof.
  intros (f & Hf & Hc & Hb) Ha.
  destruct a as [| |entry]; [|congruence|]; simpl.
  - unfold consumer_step, awaiting_write, persisted, file_ready.
    destruct (consumer r) as [| |e|e|] eqn:Ec.
    + destruct (running r); simpl; rewrite Hf;
        (split; [eauto|]); exists []; simpl;
        now rewrite app_nil_r.
    + destruct (log_queue r) as [|e q]; simpl; rewrite Hf;
        (split; [eauto|]); exists []; simpl;
        now rewrite app_nil_r.
    + simpl. rewrite Hf. split; [eauto|]. exists [e]. simpl. auto.
    + unfold _write_log_entry.
      rewrite (@write_and_flush_open (log_line e) r f Hf Hc). simpl.
      rewrite Hb. split; [eauto|]. exists []. simpl.
      rewrite app_nil_r, !string_app_nil, ?Hf. split; reflexivity.
    + rewrite Ec, Hf. split; [eauto|]. exists []. simpl.
      now rewrite app_nil_r.
  - unfold awaiting_write, persisted, file_ready. simpl. rewrite Hf.
    split; [eauto|]. exists []. simpl.
    rewrite app_nil_r, string_app_nil. split; reflexivity.
Qed.

Lemma run_file_follows (schedule : list action) :
  forall r : runner,
    file_ready r ->
    Forall (fun a => a <> Stopper) schedule ->
    exists shown,
      displayed (run schedule r) = (displayed r ++ shown)%list /\
      persisted (run schedule r) ++ lines (awaiting_write (run schedule r))
      = persisted r ++ lines (awaiting_write r) ++ lines shown.
Proof.
  induction schedule as [|a schedule IH]; intros r Hready Hns.
  - exists []. simpl. now rewrite app_nil_r, string_app_nil.
  - inversion Hns as [|? ? Ha Hns']; subst.
    destruct (step_file_follows Hready Ha) as (Hready1 & shown1 & Hd1 & Hp1).
    destruct (IH (step a r) Hready1 Hns') as (shown2 & Hd2 & Hp2).
    exists (shown1 ++ shown2)%list. rewrite run_cons. split.
    + now rewrite Hd2, Hd1, app_assoc.
    + rewrite Hp2, lines_app.
      rewrite <- !string_append_assoc. rewrite Hp1.
      now rewrite !string_append_assoc.
Qed.

(** X18. While [stop_logging] has not been called, the output file
    follows the display: after any interleaving of producers and
    consumer steps the file holds the header and then one line for each
    entry displayed since the start, in the order of display, except for
    the one entry that the consumer has displayed and is about to
    write. *)
Theorem file_follows_display
        (r : runner) (path : string) (now : datetime)
        (schedule : list action) :
  path <> "" ->
  Forall (fun a => a <> Stopper) schedule ->
  exists shown,
    displayed (run schedule (start_logging (Some path) now r))
    = (displayed r ++ shown)%list /\
    persisted (run schedule (start_logging (Some path) now r))
    ++ lines (awaiting_write (run schedule (start_logging (Some path) now r)))
    = log_header now r ++ lines shown.
Proof.
  intros Hpath Hns.
  set (started := start_logging (Some path) now r).
  assert (Hfile : log_file started
                  = Some (mkFile "" (log_header now r) false)).
  { unfold started, start_logging.
    apply String.eqb_neq in Hpath. rewrite Hpath. reflexivity. }
  assert (Hready : file_ready started).
  { eexists. split; [exact Hfile|]. split; reflexivity. }
  destruct (run_file_follows Hready Hns) as (shown & Hd & Hp).
  exists shown. split.
  - rewrite Hd. unfold started, start_logging.
    apply String.eqb_neq in Hpath. rewrite Hpath. reflexivity.
  - rewrite Hp. unfold persisted at 1. rewrite Hfile.
    unfold awaiting_write, started, start_logging. simpl. reflexivity.
Qed.

(** X19. Left to run, the consumer thread empties the queue: with the
    flag set and the consumer at its loop test, four of its steps per
    queued entry (loop test, [get], display, write) display all the
    entries of the queue in order and leave the queue empty, the
    consumer being back at its loop test. *)
Theorem consumer_drains_queue (queue : list LogEntry) :
  forall r : runner,
    running r = true ->
    consumer r = AtLoopTest ->
    log_queue r = queue ->
    log_queue (run (repeat Consumer (4 * length queue)) r) = [] /\
    displayed (run (repeat Consumer (4 * length queue)) r)
    = (displayed r ++ queue)%list /\
    consumer (run (repeat Consumer (4 * length queue)) r) = AtLoopTest /\
    running (run (repeat Consumer (4 * length queue)) r) = true.
Proof.
  induction queue as [|e queue IH]; intros r Hr Hc Hq.
  - simpl. rewrite app_nil_r. auto.
  - replace (4 * length (e :: queue))
      with (S (S (S (S (4 * length queue))))) by (simpl; lia).
    cbn [repeat]. rewrite !run_cons.
    set (r4 := step Consumer (step Consumer (step Consumer
                 (step Consumer r)))).
    assert (H4 : running r4 = true /\ consumer r4 = AtLoopTest /\
                 log_queue r4 = queue /\
                 displayed r4 = (displayed r ++ [e])%list).
    { unfold r4. cbn [step].
      set (r2 := mkRunner (esp_ip r) (serial_port r) (baud_rate r) queue
                          (running r) (log_file r) (displayed r)
                          (ToDisplay e) (stopper r)).
      set (r3 := set_consumer (_display_log_entry e r2) (ToWrite e)).
      assert (E1 : consumer_step r = set_consumer r InQueueGet).
      { unfold consumer_step. now rewrite Hc, Hr. }
      assert (E2 : consumer_step (set_consumer r InQueueGet) = r2).
      { unfold consumer_step. cbn [consumer set_consumer log_queue].
        now rewrite Hq. }
      assert (E3 : consumer_step r2 = r3) by reflexivity.
      assert (E4 : consumer_step r3
                   = set_consumer (snd (_write_log_entry e r3)) AtLoopTest)
        by reflexivity.
      rewrite E1, E2, E3, E4.
      destruct (write_entry_keeps e r3) as (W1 & W2 & W3 & _).
      cbn [running consumer log_queue displayed set_consumer].
      rewrite W1, W2, W3. simpl. auto. }
    destruct H4 as (R4 & C4 & Q4 & D4).
    destruct (IH r4 R4 C4 Q4) as (I1 & I2 & I3 & I4).
    rewrite I1, I2, I3, I4, D4, <- app_assoc. auto.
Qed.

(** ** [SerialMonitor._process_serial_line] *)

(** [sub in s] *)
Fixpoint contains (sub s : string) : bool :=
  String.prefix sub s
  || match s with
     | EmptyString => false
     | String _ rest => contains sub rest
     end.

(** [s[n:]] *)
Fixpoint drop (n : nat) (s : string) : string :=
  match n, s with
  | O, _ => s
  | S n', String _ rest => drop n' rest
  | S _, EmptyString => EmptyString
  end.

(** The two parts of [s.split(sep, 1)] when [sep] occurs in [s]: the
    text before its first occurrence and the text after it. *)
Fixpoint split_once (sep s : string) : option (string * string) :=
  if String.prefix sep s then Some ("", drop (String.length sep) s)
  else match s with
       | EmptyString => None
       | String a rest =>
           match split_once sep rest with
           | Some (before, after) => Some (String a before, after)
           | None => None
           end
       end.

(** The level that [_process_serial_line] reads off the line. *)
Definition serial_level (line : string) : string :=
  if contains "E (" line then "ERROR"
  else if contains "W (" line then "WARNING"
  else if contains "D (" line then "DEBUG"
  else if contains "V (" line then "VERBOSE"
  else "INFO".

(** The message that it makes of the line:
<<
    message = line
    if ') ' in line and ': ' in line:
        try:
            parts = line.split(') ', 1)[1]
            if ': ' in parts:
                component, msg = parts.split(': ', 1)
                message = f"[{component}] {msg}"
            else:
                message = parts
        except:
            message = line
>> *)
Definition serial_message (line : string) : string :=
  if contains ") " line && contains ": " line then
    match split_once ") " line with
    | Some (_, parts) =>
        if contains ": " parts then
          match split_once ": " parts with
          | Some (component, msg) => "[" ++ component ++ "] " ++ msg
          | None => line
          end
        else parts
    | None => line
    end
  else line.

(** [_process_serial_line]: the entry that is put on the queue. *)
Definition _process_serial_line (now : datetime) (line : string)
  : LogEntry :=
  mkLogEntry now "ESP8266" (serial_level line) (serial_message line)
             (Some line).

Lemma prefix_app (p s : string) : String.prefix p (p ++ s) = true.
Proof.
  induction p as [|a p IH]; simpl; [destruct s; reflexivity|].
  destruct (ascii_dec a a); [exact IH | congruence].
Qed.

Lemma contains_unfold (sub s : string) :
  contains sub s
  = String.prefix sub s
    || match s with
       | EmptyString => false
       | String _ rest => contains sub rest
       end.
Proof. destruct s; reflexivity. Qed.

Lemma contains_here (sub s : string) : contains sub (sub ++ s) = true.
Proof. now rewrite contains_unfold, prefix_app. Qed.

Lemma contains_later (sub a s : string) :
  contains sub s = true -> contains sub (a ++ s) = true.
Proof.
  intros H. induction a as [|x a IH]; simpl; [exact H|].
  rewrite IH. apply orb_true_r.
Qed.

Lemma prefix_weaken (p : string) :
  forall a s : string,
    String.prefix p a = true -> String.prefix p (a ++ s) = true.
Proof.
  induction p as [|x p IH]; intros a s H; simpl.
  - destruct (a ++ s); reflexivity.
  - destruct a as [|y a]; [discriminate|]. simpl in *.
    destruct (ascii_dec x y); [now apply IH | discriminate].
Qed.

Lemma contains_earlier (sub a s : string) :
  contains sub a = true -> contains sub (a ++ s) = true.
Proof.
  induction a as [|x a IH]; intros H; rewrite contains_unfold in H;
    apply orb_true_iff in H as [H | H]; try discriminate.
  - rewrite contains_unfold, (prefix_weaken _ _ s H). reflexivity.
  - rewrite contains_unfold, (prefix_weaken _ _ s H). reflexivity.
  - cbn [append contains]. rewrite (IH H). apply orb_true_r.
Qed.

Lemma drop_app (p s : string) : drop (String.length p) (p ++ s) = s.
Proof. induction p as [|a p IH]; simpl; [reflexivity | exact IH]. Qed.

(** A two-character separator made of different characters, preceded by
    text in which it does not occur, is found where that text ends. *)
Lemma split_once_first (c1 c2 : ascii) (a b : string) :
  c1 <> c2 ->
  contains (String c1 (String c2 "")) a = false ->
  split_once (String c1 (String c2 "")) (a ++ String c1 (String c2 "") ++ b)
  = Some (a, b).
Proof.
  intros Hne. set (sep := String c1 (String c2 "")).
  induction a as [|x a IH]; intros Ha.
  - cbn [append]. destruct (sep ++ b) eqn:E.
    + discriminate.
    + cbn [split_once]. rewrite <- E, prefix_app.
      change (String.length sep) with 2. unfold sep. reflexivity.
  - cbn [contains] in Ha. apply orb_false_iff in Ha as [Hp Hc].
    cbn [append split_once].
    assert (Hpre : String.prefix sep (String x (a ++ sep ++ b)) = false).
    { clear IH Hc. unfold sep in *.
      destruct a as [|y a]; cbn [append String.prefix] in *.
      - destruct (ascii_dec c1 x) as [->|]; [|reflexivity].
        destruct (ascii_dec c2 x); [congruence | reflexivity].
      - destruct (ascii_dec c1 x); [|reflexivity].
        destruct (ascii_dec c2 y); [|reflexivity].
        destruct a; discriminate. }
    rewrite Hpre, (IH Hc). reflexivity.
Qed.

(** X20. What [_process_serial_line] makes of a line of the ESP-IDF
    form: the line is cut behind the first [") "] and the rest at its
    first [": "], so that [head) component: msg] becomes
    [[component] msg]; when the rest holds no [": "] it is the message
    as it stands; and the level is [ERROR] as soon as ["E ("] occurs
    anywhere in the line, also behind the tag of a line of another
    level. The line itself is kept in [raw_data]. *)
Theorem serial_line_is_split_at_first_separators (now : datetime) :
  (forall head component msg : string,
      contains ") " head = false ->
      contains ": " component = false ->
      message (_process_serial_line now
                 (head ++ ") " ++ component ++ ": " ++ msg))
      = "[" ++ component ++ "] " ++ msg) /\
  (forall head tail : string,
      contains ") " head = false ->
      contains ": " head = true ->
      contains ": " tail = false ->
      message (_process_serial_line now (head ++ ") " ++ tail)) = tail) /\
  (forall head tail : string,
      level (_process_serial_line now (head ++ "E (" ++ tail)) = "ERROR") /\
  (forall line : string,
      raw_data (_process_serial_line now line) = Some line /\
      source (_process_serial_line now line) = "ESP8266").
Proof.
  assert (Hparen : ")"%char <> " "%char) by discriminate.
  assert (Hcolon : ":"%char <> " "%char) by discriminate.
  split; [|split; [|split]].
  - intros head component msg Hh Hc. cbn [_process_serial_line message].
    unfold serial_message.
    rewrite (@contains_later ") " head _ (contains_here ") " _)).
    assert (Hin : contains ": " (head ++ ") " ++ component ++ ": " ++ msg)
                  = true).
    { apply contains_later. apply (@contains_later ": " ") ").
      apply contains_later. apply contains_here. }
    rewrite Hin. cbn [andb].
    rewrite (@split_once_first ")" " " head (component ++ ": " ++ msg)
               Hparen Hh).
    rewrite (@contains_later ": " component _ (contains_here ": " msg)).
    rewrite (@split_once_first ":" " " component msg Hcolon Hc).
    reflexivity.
  - intros head tail Hh Hc Ht. cbn [_process_serial_line message].
    unfold serial_message.
    rewrite (@contains_later ") " head _ (contains_here ") " tail)).
    assert (Hin : contains ": " (head ++ ") " ++ tail) = true)
      by (now apply contains_earlier).
    rewrite Hin. cbn [andb].
    rewrite (@split_once_first ")" " " head tail Hparen Hh).
    now rewrite Ht.
  - intros head tail. cbn [_process_serial_line level].
    unfold serial_level.
    now rewrite (@contains_later "E (" head _ (contains_here "E (" tail)).
  - intros line. split; reflexivity.
Qed.

(** ** What [_display_log_entry] prints *)

Definition esc : string := String (ascii_of_nat 27) "".

(** [timestamp.strftime("%H:%M:%S.%f")] *)
Definition strftime_clock (t : datetime) : string :=
  zero_padded 2 (hour t) ++ ":" ++ zero_padded 2 (minute t) ++ ":"
  ++ zero_padded 2 (second t) ++ "." ++ zero_padded 6 (microsecond t).

(** [s[:-3]] *)
Definition drop_last3 (s : string) : string :=
  String.substring 0 (String.length s - 3) s.

(** The colour and the icon chosen from the source and the level; the
    icons are given by their UTF-8 encoding. *)
Definition display_color (entry : LogEntry) : string :=
  if String.eqb (source entry) "ESP8266" then
    if String.eqb (level entry) "ERROR" then esc ++ "[91m"
    else if String.eqb (level entry) "WARNING" then esc ++ "[93m"
    else esc ++ "[94m"
  else
    if String.eqb (level entry) "ERROR" then esc ++ "[91m"
    else if String.eqb (level entry) "TEST" then esc ++ "[95m"
    else esc ++ "[92m".

Definition display_icon (entry : LogEntry) : string :=
  if String.eqb (source entry) "ESP8266" then
    if String.eqb (level entry) "ERROR"
    then string_of_list_byte [xf0; x9f; x94; xa5]
    else if String.eqb (level entry) "WARNING"
    then string_of_list_byte [xe2; x9a; xa0; xef; xb8; x8f; x20]
    else string_of_list_byte [xf0; x9f; x93; xa1]
  else
    if String.eqb (level entry) "ERROR"
    then string_of_list_byte [xe2; x9d; x8c]
    else if String.eqb (level entry) "TEST"
    then string_of_list_byte [xf0; x9f; xa7; xaa]
    else string_of_list_byte [xf0; x9f; x92; xbb].

(** The line that [_display_log_entry] prints:
<<
    timestamp_str = entry.timestamp.strftime("%H:%M:%S.%f")[:-3]
    ...
    source_tag = f"{entry.source:>7}"
    print(f"{color}{timestamp_str} {icon} {source_tag}: "
          f"{entry.message}{reset_color}")
>> *)
Definition display_line (entry : LogEntry) : string :=
  display_color entry ++ drop_last3 (strftime_clock (timestamp entry))
  ++ " " ++ display_icon entry ++ " " ++ rjust 7 (source entry) ++ ": "
  ++ message entry ++ esc ++ "[0m".

Lemma substring_whole_prefix (a b : string) :
  String.substring 0 (String.length a) (a ++ b) = a.
Proof.
  induction a as [|x a IH]; simpl.
  - destruct b; reflexivity.
  - now rewrite IH.
Qed.

Lemma drop_last3_app (a : string) (x y z : ascii) :
  drop_last3 (a ++ String x (String y (String z ""))) = a.
Proof.
  unfold drop_last3. rewrite string_length_app. simpl String.length.
  replace (String.length a + 3 - 3) with (String.length a) by lia.
  apply substring_whole_prefix.
Qed.

(** The six digits of the microseconds without the last three are the
    three digits of the milliseconds. *)
Lemma low_digits_milliseconds (n : Z) :
  exists x y z : ascii,
    low_digits 6 n
    = low_digits 3 (n / 1000)%Z ++ String x (String y (String z "")).
Proof.
  exists (digit_char ((n / 10 / 10) mod 10)%Z),
         (digit_char ((n / 10) mod 10)%Z), (digit_char (n mod 10)%Z).
  change (low_digits 6 n)
    with (((low_digits 3 (n / 10 / 10 / 10)%Z
            ++ String (digit_char ((n / 10 / 10) mod 10)%Z) "")
           ++ String (digit_char ((n / 10) mod 10)%Z) "")
          ++ String (digit_char (n mod 10)%Z) "").
  rewrite !Z.div_div by lia. change (10 * 10 * 10)%Z with 1000%Z.
  now rewrite !string_append_assoc.
Qed.

(** X22. The time of day that [_display_log_entry] prints is
    [HH:MM:SS.mmm], where [mmm] is the number of whole milliseconds: the
    last three digits of the microseconds are cut off, not rounded (so
    999999 microseconds are shown as [.999]); the rest of the line is the
    colour, the icon, the source right-aligned to 7, the message and the
    colour reset. *)
Theorem display_shows_whole_milliseconds (entry : LogEntry) :
  valid_datetime (timestamp entry) ->
  display_line entry
  = display_color entry
    ++ (low_digits 2 (hour (timestamp entry)) ++ ":"
        ++ low_digits 2 (minute (timestamp entry)) ++ ":"
        ++ low_digits 2 (second (timestamp entry)) ++ "."
        ++ low_digits 3 (microsecond (timestamp entry) / 1000)%Z)
    ++ " " ++ display_icon entry ++ " " ++ rjust 7 (source entry) ++ ": "
    ++ message entry ++ esc ++ "[0m".
Proof.
  intros (_ & _ & _ & Hh & Hmi & Hs & Hu).
  unfold display_line, strftime_clock.
  rewrite (@zero_padded_in_range 2 (hour (timestamp entry)))
    by (simpl; lia).
  rewrite (@zero_padded_in_range 2 (minute (timestamp entry)))
    by (simpl; lia).
  rewrite (@zero_padded_in_range 2 (second (timestamp entry)))
    by (simpl; lia).
  rewrite (@zero_padded_in_range 6 (microsecond (timestamp entry)))
    by (simpl; lia).
  destruct (low_digits_milliseconds (microsecond (timestamp entry)))
    as (x & y & z & ->).
  rewrite <- !string_append_assoc.
  rewrite drop_last3_app.
  now rewrite !string_append_assoc.
Qed.

End Aggregator.

(* ===================================================================== *)
(** * A reference [json.loads] and [json.dumps]                           *)
(* ===================================================================== *)

(** The client code is verified for every decoder and encoder (they are
    parameters of the client sections). The functions below follow the
    decoder and encoder of the Python standard library and are what the
    examples on concrete wire data run with. Interpreter limits (recursion
    depth, the cap on integer digits) are not part of them. *)

Module Codec.
Import Json.

Local Open Scope string_scope.

Definition code (a : ascii) : Z := Z.of_N (N_of_ascii a).

Definition chr (z : Z) : ascii := ascii_of_N (Z.to_N z).

Definition QUOTE : Z := 34.
Definition BACKSLASH : Z := 92.

Definition is_ws (a : ascii) : bool :=
  let n := code a in
  ((n =? 32) || (n =? 9) || (n =? 10) || (n =? 13))%Z.

Fixpoint skip_ws (s : string) : string :=
  match s with
  | String a r => if is_ws a then skip_ws r else s
  | EmptyString => s
  end.

Definition digit_val (a : ascii) : option Z :=
  let n := code a in
  if ((48 <=? n) && (n <=? 57))%Z then Some (n - 48)%Z else None.

Definition hex_val (a : ascii) : option Z :=
  let n := code a in
  if ((48 <=? n) && (n <=? 57))%Z then Some (n - 48)%Z
  else if ((97 <=? n) && (n <=? 102))%Z then Some (n - 87)%Z
  else if ((65 <=? n) && (n <=? 70))%Z then Some (n - 55)%Z
  else None.

(** A maximal run of decimal digits: its value on top of [acc], how many
    digits it has, and what follows. *)
Fixpoint read_digits (s : string) (acc : Z) (count : nat)
  : Z * nat * string :=
  match s with
  | String a r =>
      match digit_val a with
      | Some d => read_digits r (acc * 10 + d)%Z (S count)
      | None => (acc, count, s)
      end
  | EmptyString => (acc, count, s)
  end.

(** The integer nearest to [p / q] for [q > 0], ties to even. *)
Definition round_half_even (p q : Z) : Z :=
  let f := (p / q)%Z in
  let r := (p mod q)%Z in
  if (2 * r <? q)%Z then f
  else if (q <? 2 * r)%Z then (f + 1)%Z
  else if Z.even f then f else (f + 1)%Z.

(** The binary64 number nearest to [p / q], for [p >= 0] and [q > 0]:
    [(mant, exp2)] with the value [mant * 2 ^ exp2], or [None] when it
    rounds to infinity. *)
Definition nearest_binary64 (p q : Z) : option (Z * Z) :=
  if (p =? 0)%Z then Some (0, 0)%Z else
  let k0 := (Z.log2 p - Z.log2 q)%Z in
  let at_least :=
    if (0 <=? k0)%Z then (q * 2 ^ k0 <=? p)%Z
    else (q <=? p * 2 ^ (- k0))%Z in
  let k := if at_least then k0 else (k0 - 1)%Z in
  let e := Z.max (k - 52) (-1074) in
  let m := if (0 <=? e)%Z then round_half_even p (q * 2 ^ e)
           else round_half_even (p * 2 ^ (- e)) q in
  let '(m, e) := if (m =? 2 ^ 53)%Z then (2 ^ 52, e + 1)%Z else (m, e) in
  if (971 <? e)%Z then None else Some (m, e).

(** [float(text)] for the decimal [mant * 10 ^ exp10], negated when
    [negative]. *)
Definition float_of_decimal (negative : bool) (mant exp10 : Z) : pyfloat :=
  let r := if (0 <=? exp10)%Z then nearest_binary64 (mant * 10 ^ exp10) 1
           else nearest_binary64 mant (10 ^ (- exp10)) in
  match r with
  | Some (m, e) => FFinite (if negative then (- m)%Z else m) e
  | None => FInf negative
  end.

(** [s] without the prefix [p], when it has it. *)
Fixpoint strip_prefix (p s : string) : option string :=
  match p, s with
  | EmptyString, _ => Some s
  | String a p', String b s' =>
      if Ascii.eqb a b then strip_prefix p' s' else None
  | _, EmptyString => None
  end.

(** A number: an optional minus sign; the integer part, [0] alone or a
    digit from [1] to [9] followed by digits; optionally a point followed
    by one or more digits; optionally [e] or [E], an optional sign and one
    or more digits. It is an [int] without fraction and exponent, else a
    [float]. *)
Definition parse_number (s : string) : option (json * string) :=
  let '(negative, s1) :=
    match strip_prefix "-" s with
    | Some r => (true, r)
    | None => (false, s)
    end in
  match s1 with
  | EmptyString => None
  | String a r =>
      match digit_val a with
      | None => None
      | Some d =>
          let '(ipart, s2) :=
            if (d =? 0)%Z then (0%Z, r)
            else let '(v, _, rest) := read_digits r d 1 in (v, rest) in
          let '(has_frac, mant, frac_digits, s3) :=
            match strip_prefix "." s2 with
            | Some r2 =>
                match read_digits r2 ipart 0 with
                | (_, O, _) => (false, ipart, O, s2)
                | (v, n, rest) => (true, v, n, rest)
                end
            | None => (false, ipart, O, s2)
            end in
          let '(has_exp, exp10, s4) :=
            match s3 with
            | String c r3 =>
                if ((code c =? 101) || (code c =? 69))%Z then
                  let '(eneg, r4) :=
                    match strip_prefix "-" r3, strip_prefix "+" r3 with
                    | Some r', _ => (true, r')
                    | None, Some r' => (false, r')
                    | None, None => (false, r3)
                    end in
                  match read_digits r4 0 0 with
                  | (_, O, _) => (false, 0%Z, s3)
                  | (v, _, rest) =>
                      (true, if eneg then (- v)%Z else v, rest)
                  end
                else (false, 0%Z, s3)
            | EmptyString => (false, 0%Z, s3)
            end in
          if has_frac || has_exp then
            Some (JFloat (float_of_decimal negative mant
                            (exp10 - Z.of_nat frac_digits)), s4)
          else Some (JInt (if negative then (- ipart)%Z else ipart), s4)
      end
  end.

(** The UTF-8 encoding of a code point (surrogates included, as three
    bytes). *)
Definition utf8_of_codepoint (cp : Z) : string :=
  if (cp <? 128)%Z then String (chr cp) ""
  else if (cp <? 2048)%Z then
    String (chr (192 + cp / 64)) (String (chr (128 + cp mod 64)) "")
  else if (cp <? 65536)%Z then
    String (chr (224 + cp / 4096))
      (String (chr (128 + (cp / 64) mod 64))
         (String (chr (128 + cp mod 64)) ""))
  else
    String (chr (240 + cp / 262144))
      (String (chr (128 + (cp / 4096) mod 64))
         (String (chr (128 + (cp / 64) mod 64))
            (String (chr (128 + cp mod 64)) ""))).

Definition hex4 (a b c d : ascii) : option Z :=
  match hex_val a, hex_val b, hex_val c, hex_val d with
  | Some x, Some y, Some z, Some w =>
      Some (((x * 16 + y) * 16 + z) * 16 + w)%Z
  | _, _, _, _ => None
  end.

Definition simple_escape (a : ascii) : option Z :=
  let n := code a in
  if (n =? QUOTE)%Z then Some QUOTE
  else if (n =? BACKSLASH)%Z then Some BACKSLASH
  else if (n =? 47)%Z then Some 47%Z
  else if (n =? 98)%Z then Some 8%Z
  else if (n =? 102)%Z then Some 12%Z
  else if (n =? 110)%Z then Some 10%Z
  else if (n =? 114)%Z then Some 13%Z
  else if (n =? 116)%Z then Some 9%Z
  else None.

(** The characters of a string literal after its opening quote, up to the
    closing one (strict mode: no raw control characters). *)
Fixpoint parse_string_body (s : string) : option (string * string) :=
  match s with
  | EmptyString => None
  | String a r =>
      if (code a =? QUOTE)%Z then Some ("", r)
      else if (code a <? 32)%Z then None
      else if (code a =? BACKSLASH)%Z then
        match r with
        | EmptyString => None
        | String b r1 =>
            if (code b =? 117)%Z then
              match r1 with
              | String h1 (String h2 (String h3 (String h4 r2))) =>
                  match hex4 h1 h2 h3 h4 with
                  | None => None
                  | Some hi =>
                      let single :=
                        match parse_string_body r2 with
                        | Some (t, rest) =>
                            Some (utf8_of_codepoint hi ++ t, rest)
                        | None => None
                        end in
                      if ((55296 <=? hi) && (hi <=? 56319))%Z then
                        match r2 with
                        | String e1 (String e2
                            (String g1 (String g2 (String g3 (String g4 r3)))))
                          =>
                            if ((code e1 =? BACKSLASH) && (code e2 =? 117))%Z
                            then
                              match hex4 g1 g2 g3 g4 with
                              | None => None
                              | Some lo =>
                                  if ((56320 <=? lo) && (lo <=? 57343))%Z then
                                    match parse_string_body r3 with
                                    | Some (t, rest) =>
                                        Some (utf8_of_codepoint
                                                (65536 + (hi - 55296) * 1024
                                                 + (lo - 56320)) ++ t, rest)
                                    | None => None
                                    end
                                  else single
                              end
                            else single
                        | _ => single
                        end
                      else single
                  end
              | _ => None
              end
            else
              match simple_escape b with
              | None => None
              | Some cp =>
                  match parse_string_body r1 with
                  | Some (t, rest) => Some (String (chr cp) t, rest)
                  | None => None
                  end
              end
        end
      else
        match parse_string_body r with
        | Some (t, rest) => Some (String a t, rest)
        | None => None
        end
  end.

Definition parse_constant (s : string) : option (json * string) :=
  match strip_prefix "null" s, strip_prefix "true" s, strip_prefix "false" s
  with
  | Some r, _, _ => Some (JNull, r)
  | _, Some r, _ => Some (JBool true, r)
  | _, _, Some r => Some (JBool false, r)
  | None, None, None =>
      match parse_number s with
      | Some res => Some res
      | None =>
          match strip_prefix "NaN" s, strip_prefix "Infinity" s,
                strip_prefix "-Infinity" s with
          | Some r, _, _ => Some (JFloat FNan, r)
          | _, Some r, _ => Some (JFloat (FInf false), r)
          | _, _, Some r => Some (JFloat (FInf true), r)
          | None, None, None => None
          end
      end
  end.

(** One JSON value at the head of [s]; every call of the three functions
    comes after at least one more character was read, so twice the length
    of the text is enough [fuel]. *)
Fixpoint parse_value (fuel : nat) (s : string) : option (json * string) :=
  match fuel with
  | O => None
  | S fuel' =>
      match s with
      | EmptyString => None
      | String a r =>
          if (code a =? QUOTE)%Z then
            match parse_string_body r with
            | Some (t, rest) => Some (JStr t, rest)
            | None => None
            end
          else if (code a =? 123)%Z then
            match skip_ws r with
            | String b rest as r1 =>
                if (code b =? 125)%Z then Some (JObj [], rest)
                else parse_members fuel' r1 []
            | EmptyString => None
            end
          else if (code a =? 91)%Z then
            match skip_ws r with
            | String b rest as r1 =>
                if (code b =? 93)%Z then Some (JArr [], rest)
                else parse_elements fuel' r1 []
            | EmptyString => None
            end
          else parse_constant s
      end
  end

with parse_elements (fuel : nat) (s : string) (acc : list json)
  : option (json * string) :=
  match fuel with
  | O => None
  | S fuel' =>
      match parse_value fuel' s with
      | None => None
      | Some (v, rest) =>
          match skip_ws rest with
          | String b r =>
              if (code b =? 44)%Z then
                parse_elements fuel' (skip_ws r) (v :: acc)
              else if (code b =? 93)%Z then Some (JArr (rev (v :: acc)), r)
              else None
          | EmptyString => None
          end
      end
  end

with parse_members (fuel : nat) (s : string) (acc : dict)
  : option (json * string) :=
  match fuel with
  | O => None
  | S fuel' =>
      match s with
      | EmptyString => None
      | String q r =>
          if negb (code q =? QUOTE)%Z then None else
          match parse_string_body r with
          | None => None
          | Some (key, rest) =>
              match skip_ws rest with
              | EmptyString => None
              | String colon r2 =>
                  if negb (code colon =? 58)%Z then None else
                  match parse_value fuel' (skip_ws r2) with
                  | None => None
                  | Some (v, rest2) =>
                      match skip_ws rest2 with
                      | String b r3 =>
                          if (code b =? 44)%Z then
                            parse_members fuel' (skip_ws r3)
                                          (dict_set key v acc)
                          else if (code b =? 125)%Z then
                            Some (JObj (dict_set key v acc), r3)
                          else None
                      | EmptyString => None
                      end
                  end
              end
          end
      end
  end.

(** [json.loads(text)]; [None] is [JSONDecodeError]. *)
Definition loads (text : string) : option json :=
  match parse_value (2 * String.length text + 2) (skip_ws text) with
  | Some (v, rest) =>
      match skip_ws rest with
      | EmptyString => Some v
      | String _ _ => None
      end
  | None => None
  end.

(** ** The encoder *)

Definition str_of_int (n : Z) : string := NilZero.string_of_int (Z.to_int n).

Definition hex_digit (n : Z) : ascii :=
  if (n <? 10)%Z then chr (48 + n) else chr (87 + n).

Definition backslash : string := String (chr BACKSLASH) "".

(** [\uXXXX] for a code point below [65536]. *)
Definition u_escape (cp : Z) : string :=
  backslash ++ "u" ++
  String (hex_digit (cp / 4096))
    (String (hex_digit ((cp / 256) mod 16))
       (String (hex_digit ((cp / 16) mod 16))
          (String (hex_digit (cp mod 16)) ""))).

Definition escape_codepoint (cp : Z) : string :=
  if (cp =? QUOTE)%Z then backslash ++ String (chr QUOTE) ""
  else if (cp =? BACKSLASH)%Z then backslash ++ backslash
  else if (cp =? 10)%Z then backslash ++ "n"
  else if (cp =? 13)%Z then backslash ++ "r"
  else if (cp =? 9)%Z then backslash ++ "t"
  else if (cp =? 8)%Z then backslash ++ "b"
  else if (cp =? 12)%Z then backslash ++ "f"
  else if ((32 <=? cp) && (cp <=? 126))%Z then String (chr cp) ""
  else if (cp <? 65536)%Z then u_escape cp
  else u_escape (55296 + (cp - 65536) / 1024)
       ++ u_escape (56320 + (cp - 65536) mod 1024).

(** The body of a string literal with [ensure_ascii]: the text is read
    code point by code point from its UTF-8 encoding. *)
Fixpoint escape_string (s : string) : string :=
  match s with
  | EmptyString => ""
  | String a r =>
      let n := code a in
      if (n <? 192)%Z then escape_codepoint n ++ escape_string r
      else
        match r with
        | EmptyString => escape_codepoint n
        | String b r1 =>
            if (n <? 224)%Z then
              escape_codepoint ((n - 192) * 64 + (code b - 128))
              ++ escape_string r1
            else
              match r1 with
              | EmptyString => escape_codepoint n ++ escape_codepoint (code b)
              | String c r2 =>
                  if (n <? 240)%Z then
                    escape_codepoint
                      (((n - 224) * 64 + (code b - 128)) * 64
                       + (code c - 128))
                    ++ escape_string r2
                  else
                    match r2 with
                    | EmptyString =>
                        escape_codepoint n ++ escape_codepoint (code b)
                        ++ escape_codepoint (code c)
                    | String d r3 =>
                        escape_codepoint
                          ((((n - 240) * 64 + (code b - 128)) * 64
                            + (code c - 128)) * 64 + (code d - 128))
                        ++ escape_string r3
                    end
              end
        end
  end.

Definition encode_string (s : string) : string :=
  String (chr QUOTE) "" ++ escape_string s ++ String (chr QUOTE) "".

(** [p / q < 10 ^ d] *)
Definition below_pow10 (p q d : Z) : bool :=
  if (0 <=? d)%Z then (p <? q * 10 ^ d)%Z else (p * 10 ^ (- d) <? q)%Z.

Fixpoint find_decpt (fuel : nat) (p q d : Z) : Z :=
  match fuel with
  | O => d
  | S fuel' => if below_pow10 p q d then d else find_decpt fuel' p q (d + 1)
  end.

(** The position of the decimal point of [p / q > 0]: the [d] with
    [10 ^ (d - 1) <= p / q < 10 ^ d]. *)
Definition decimal_point (p q : Z) : Z :=
  let k := (Z.log2 p - Z.log2 q - 1)%Z in
  find_decpt 8 p q (k * 30103 / 100000 - 1)%Z.

(** The shortest run of digits, at least [n], that reads back as the same
    binary64 number: [Some (digits, count)] with [digits] a number of
    [count] digits (or [count + 1] after a carry). *)
Fixpoint shortest_digits (fuel : nat) (p q decpt : Z) (n : Z)
  : Z * Z :=
  let sh := (n - decpt)%Z in
  let '(xp, xq) := if (0 <=? sh)%Z then (p * 10 ^ sh, q)%Z
                   else (p, q * 10 ^ (- sh))%Z in
  let lower := (xp / xq)%Z in
  let upper := (lower + 1)%Z in
  let back c := if (0 <=? sh)%Z then nearest_binary64 c (10 ^ sh)
                else nearest_binary64 (c * 10 ^ (- sh)) 1 in
  let target := nearest_binary64 p q in
  let same (a b : option (Z * Z)) :=
    match a, b with
    | Some (m1, e1), Some (m2, e2) => ((m1 =? m2) && (e1 =? e2))%Z
    | _, _ => false
    end in
  let ok_lower := same (back lower) target in
  let ok_upper := same (back upper) target in
  let upper_closer := (xq <? 2 * (xp mod xq))%Z in
  match fuel with
  | O => (round_half_even xp xq, n)
  | S fuel' =>
      if ok_lower && ok_upper then
        (if upper_closer then upper else lower, n)
      else if ok_lower then (lower, n)
      else if ok_upper then (upper, n)
      else shortest_digits fuel' p q decpt (n + 1)
  end.

Fixpoint strip_zeros (fuel : nat) (digits : Z) : Z :=
  match fuel with
  | O => digits
  | S fuel' =>
      if ((digits mod 10 =? 0) && negb (digits =? 0))%Z
      then strip_zeros fuel' (digits / 10)%Z else digits
  end.

Fixpoint zeros (n : nat) : string :=
  match n with O => "" | S n' => String "0" (zeros n') end.

(** [repr(x)] for a finite [x > 0] with the shortest digits [ds] and the
    decimal point after [decpt] of them. *)
Definition format_repr (ds : string) (decpt : Z) : string :=
  let len := Z.of_nat (String.length ds) in
  if ((decpt <=? -4) || (16 <? decpt))%Z then
    let e := (decpt - 1)%Z in
    let es := str_of_int (Z.abs e) in
    let es := if (Z.abs e <? 10)%Z then String "0" es else es in
    substring 0 1 ds
    ++ (if (1 <? len)%Z
        then "." ++ substring 1 (String.length ds - 1) ds else "")
    ++ "e" ++ (if (e <? 0)%Z then "-" else "+") ++ es
  else if (decpt <=? 0)%Z then "0." ++ zeros (Z.to_nat (- decpt)) ++ ds
  else if (len <=? decpt)%Z then ds ++ zeros (Z.to_nat (decpt - len)) ++ ".0"
  else substring 0 (Z.to_nat decpt) ds ++ "."
       ++ substring (Z.to_nat decpt) (String.length ds - Z.to_nat decpt) ds.

(** [float.__repr__], which [json.dumps] uses (a zero is printed without
    its sign). *)
Definition float_repr (f : pyfloat) : string :=
  match f with
  | FNan => "NaN"
  | FInf false => "Infinity"
  | FInf true => "-Infinity"
  | FFinite m e =>
      if (m =? 0)%Z then "0.0" else
      let a := Z.abs m in
      let '(p, q) := if (0 <=? e)%Z then (a * 2 ^ e, 1)%Z
                     else (a, 2 ^ (- e))%Z in
      let decpt := decimal_point p q in
      let '(digits, n) := shortest_digits 17 p q decpt 1 in
      let width := Z.of_nat (String.length (str_of_int digits)) in
      let decpt := (decpt + (width - n))%Z in
      let ds := str_of_int (strip_zeros 20 digits) in
      (if (m <? 0)%Z then "-" else "") ++ format_repr ds decpt
  end.

(** [json.dumps(v)] with its default separators and [ensure_ascii]. *)
Fixpoint dumps (v : json) : string :=
  match v with
  | JNull => "null"
  | JBool true => "true"
  | JBool false => "false"
  | JInt z => str_of_int z
  | JFloat f => float_repr f
  | JStr s => encode_string s
  | JArr items =>
      "[" ++ (fix elements (l : list json) : string :=
                match l with
                | [] => ""
                | x :: [] => dumps x
                | x :: rest => dumps x ++ ", " ++ elements rest
                end) items ++ "]"
  | JObj fields =>
      "{" ++ (fix members (l : list (string * json)) : string :=
                match l with
                | [] => ""
                | (k, x) :: [] => encode_string k ++ ": " ++ dumps x
                | (k, x) :: rest =>
                    encode_string k ++ ": " ++ dumps x ++ ", " ++ members rest
                end) fields ++ "}"
  end.

End Codec.

(* ===================================================================== *)
(** * Properties stated for both clients                                  *)
(* ===================================================================== *)

Module BothClients.
Import Bytes Json Transport Framing.


(** C7, as the code has it. [disconnect] never raises and a second call
    changes nothing. After it the socket is gone; [SessionMCPClient] has
    also cleared [initialized] when there was a socket, and leaves
    [session_state] as it was; [MCPClient] leaves [initialized] as it
    was. *)
Theorem disconnect_twice_changes_nothing :
  (forall c : SessionClient.client,
      SessionClient.disconnect (SessionClient.disconnect c)
      = SessionClient.disconnect c /\
      SessionClient.socket (SessionClient.disconnect c) = None /\
      (SessionClient.socket c <> None ->
       SessionClient.initialized (SessionClient.disconnect c) = false) /\
      SessionClient.session_state (SessionClient.disconnect c)
      = SessionClient.session_state c) /\
  (forall c : LineClient.client,
      LineClient.disconnect (LineClient.disconnect c)
      = LineClient.disconnect c /\
      LineClient.socket (LineClient.disconnect c) = None /\
      LineClient.initialized (LineClient.disconnect c)
      = LineClient.initialized c).
Proof.
  split; intros c.
  - split; [apply SessionClient.disconnect_idempotent|].
    split; [apply SessionClient.disconnect_drops_socket|].
    split; [apply SessionClient.disconnect_clears_initialized|].
    apply SessionClient.disconnect_keeps_session_state.
  - split; [apply LineClient.line_disconnect_idempotent|].
    split; [apply LineClient.line_disconnect_drops_socket|].
    apply LineClient.line_disconnect_keeps_initialized.
Qed.

End BothClients.

(* ===================================================================== *)
(** * Runs on concrete wire data                                          *)
(* ===================================================================== *)

Module Scenarios.
Import Bytes Json Transport.

Local Open Scope Z_scope.
Local Open Scope string_scope.

Definition loads := Codec.loads.
Definition dumps := Codec.dumps.

(** The length-prefixed frame of a text. *)
Definition frame (text : string) : bytes :=
  match Framing.frame_of text with
  | Some f => f
  | None => []
  end.

(** A transport that hands the stream over one byte per [recv]. *)
Definition byte_by_byte (data : bytes) : list bytes :=
  map (fun b => [b]) data.

(** A socket after a successful [connect]: the peer will deliver [events],
    and every send succeeds unless [plan] says otherwise. *)
Definition peer (events : list rx_event) (plan : list bool) : tcp_socket :=
  mkSocket events plan [] 10000 false.

(** A progress notification: a frame with a [method] and no [id]. *)
Definition progress_notification : json :=
  JObj [("jsonrpc", JStr "2.0");
        ("method", JStr "notifications/progress");
        ("params", JObj [("progress", JInt 50); ("total", JInt 100)])].

(** The response to the request with identifier [1]. *)
Definition tool_response : json :=
  JObj [("jsonrpc", JStr "2.0"); ("id", JInt 1);
        ("result",
         JObj [("content",
                JArr [JObj [("type", JStr "text");
                            ("text", JStr "done")]])])].

(** The same response for the newline-framed client, whose identifiers
    are strings. *)
Definition line_tool_response : json :=
  JObj [("jsonrpc", JStr "2.0"); ("id", JStr "1");
        ("result",
         JObj [("content",
                JArr [JObj [("type", JStr "text");
                            ("text", JStr "done")]])])].

(** The error response for a tool that does not exist. *)
Definition unknown_tool_error (id : json) : json :=
  JObj [("jsonrpc", JStr "2.0"); ("id", id);
        ("error",
         JObj [("code", JInt (-32601));
               ("message", JStr "Unknown tool: nonexistent_tool")])].

(** The response to an [initialize] request with identifier [1]. *)
Definition initialize_response : json :=
  JObj [("jsonrpc", JStr "2.0"); ("id", JInt 1);
        ("result",
         JObj [("protocolVersion", JStr "2024-11-05");
               ("serverInfo",
                JObj [("name", JStr "ESP8266-MCP");
                      ("version", JStr "1.0.0")]);
               ("capabilities", JObj [("tools", JObj [])])])].

Definition session_on (s : tcp_socket) : SessionClient.client :=
  SessionClient.set_socket SessionClient.new_client (Some s).

Definition active_session_on (s : tcp_socket) : SessionClient.client :=
  SessionClient.mkClient (Some s) 0 true (JObj []) (JArr [])
                         SessionClient.ACTIVE.

Definition line_client_on (s : tcp_socket) : LineClient.client :=
  LineClient.mkClient (Some s) 0 true (JObj []) (JArr []).

(** The text of a line-framed message. *)
Definition line_of (v : json) : string := dumps v ++ LineClient.newline.

(** ** C2 and C3: length-prefixed frames *)

(** A two-byte payload, delivered one byte per [recv], with the first
    byte of a next frame behind it. *)
Definition short_payload : bytes := encode_utf8 "hi".

Definition trickling_session : SessionClient.client :=
  session_on (peer (delivers
                      (byte_by_byte (frame "hi" ++ [x00])%list) []) []).

Lemma framed_receive_witness :
  exists s',
    SessionClient._receive_framed_message 5000 trickling_session
    = (Some "hi", SessionClient.set_socket trickling_session (Some s')) /\
    stream_bytes (rx s') = [x00].
Proof.
  destruct (proj1 (proj2 SessionClient.framed_receive_reads_exact_frame)
              5000 trickling_session
              (peer (delivers (byte_by_byte (frame "hi" ++ [x00])%list) []) [])
              (byte_by_byte (frame "hi" ++ [x00])%list) []
              [x00; x00; x00; x02] short_payload [x00])
    as (s' & Hr & Hs).
  - reflexivity.
  - repeat constructor; discriminate.
  - reflexivity.
  - reflexivity.
  - vm_compute. discriminate.
  - reflexivity.
  - exists s'. split; [exact Hr | exact Hs].
Defined.

(** A header that announces 2 MiB, followed by one byte. *)
Definition oversize_header : bytes := [x00; x20; x00; x00].

Definition oversize_session : SessionClient.client :=
  session_on (peer (delivers [[x00; x20]; [x00; x00; x41]] []) []).

Lemma oversize_frame_witness :
  exists s',
    SessionClient._receive_framed_message 5000 oversize_session
    = (None, SessionClient.set_socket oversize_session (Some s')) /\
    stream_bytes (rx s') = [x41].
Proof.
  apply (@SessionClient.oversize_frame_fails_closed
           5000 oversize_session
           (peer (delivers [[x00; x20]; [x00; x00; x41]] []) [])
           [[x00; x20]; [x00; x00; x41]] [] oversize_header [x41]).
  - reflexivity.
  - repeat constructor; discriminate.
  - reflexivity.
  - reflexivity.
  - reflexivity.
  - vm_compute. reflexivity.
Defined.

(** ** C1: a notification ahead of the response *)

Definition long_task_params : json :=
  SessionClient.tool_call_params "long_task" None.

(** The peer answers the first request with a progress notification and
    then the response. *)
Definition notified_session : SessionClient.client :=
  session_on (peer [Segment (frame (dumps progress_notification));
                    Segment (frame (dumps tool_response))] []).

Definition notified_line_client : LineClient.client :=
  line_client_on
    (peer [Segment (encode_utf8 (line_of progress_notification
                                 ++ line_of line_tool_response))] []).

Definition unread (c : SessionClient.client) : bytes :=
  match SessionClient.socket c with
  | Some s => stream_bytes (rx s)
  | None => []
  end.

Definition line_unread (c : LineClient.client) : bytes :=
  match LineClient.socket c with
  | Some s => stream_bytes (rx s)
  | None => []
  end.

(** C1 (the code at the failing input). With a progress notification on
    the wire ahead of the response, [send_request] of [SessionMCPClient]
    returns the notification, which has no [id], and leaves the response
    with [id == 1] unread; [send_request] of [MCPClient] returns the
    notification as well and the response, received in the same chunk, is
    lost. *)
Theorem send_request_returns_interleaved_notification :
  (fst (SessionClient.send_request loads dumps "tools/call"
          (Some long_task_params) 10000 notified_session)
   = Return (Some progress_notification) /\
   py_in "id" progress_notification = Return false /\
   unread (snd (SessionClient.send_request loads dumps "tools/call"
                  (Some long_task_params) 10000 notified_session))
   = frame (dumps tool_response)) /\
  (fst (LineClient.send_request loads dumps "tools/call"
          (Some (LineClient.tool_call_params "long_task" (JObj [])))
          notified_line_client)
   = Some progress_notification /\
   line_unread (snd (LineClient.send_request loads dumps "tools/call"
                       (Some (LineClient.tool_call_params "long_task"
                                                          (JObj [])))
                       notified_line_client))
   = []).
Proof. vm_compute. repeat split; reflexivity. Qed.

(** The same wire data on the third client, whatever its segmentation:
    [send_request] of [SessionToolClient] passes over the notification and
    returns the response. *)
Definition notified_tool_client : ToolClient.client :=
  ToolClient.mkClient
    (Some (peer (delivers
                   (byte_by_byte (frame (dumps progress_notification)
                                  ++ frame (dumps tool_response))%list) []) []))
    0 true (JObj []) [].

Lemma tool_client_returns_response :
  fst (ToolClient.send_request loads dumps "tools/call"
         (Some long_task_params) 30%nat notified_tool_client)
  = Return (Some tool_response).
Proof. vm_compute. reflexivity. Qed.

(** ** C4 and C5: the handshake *)

Definition initialize_request : string := "initialize".

(** The peer answers [initialize]; every send succeeds. *)
Definition handshake_session : SessionClient.client :=
  session_on (peer [Segment (frame (dumps initialize_response))] []).

(** The peer answers [initialize], but the second send (that of the
    [initialized] notification) fails. *)
Definition broken_pipe_session : SessionClient.client :=
  session_on (peer [Segment (frame (dumps initialize_response))]
                   [true; false]).

(** The peer never answers. *)
Definition silent_session : SessionClient.client := session_on (peer [] []).

Definition run_initialize (c : SessionClient.client)
  : outcome bool * SessionClient.client :=
  SessionClient.initialize loads dumps c.

Definition run_initialize_request (c : SessionClient.client)
  : outcome (option json) * SessionClient.client :=
  SessionClient.send_request loads dumps "initialize"
    (Some SessionClient.initialize_params) 15000 c.

Lemma initialize_active_witness :
  (fst (run_initialize handshake_session) = Return true /\
   SessionClient.initialized (snd (run_initialize handshake_session)) = true /\
   exists response c1 sent,
     run_initialize_request handshake_session
     = (Return (Some response), c1) /\
     py_in "error" response = Return false /\
     Framing.frame_of (dumps SessionClient.initialized_notification)
     = Some sent /\
     SessionClient.last_sent (snd (run_initialize handshake_session))
     = Some sent) /\
  (exists c',
      run_initialize broken_pipe_session = (Return false, c') /\
      SessionClient.session_state c' = SessionClient.INITIALIZED /\
      SessionClient.session_state c' <> SessionClient.ACTIVE /\
      SessionClient.initialized c' = false).
Proof.
  split.
  - apply (proj1 (SessionClient.initialize_active_only_after_notification
                    loads dumps)
                 handshake_session (snd (run_initialize handshake_session))
                 (fst (run_initialize handshake_session))).
    + apply surjective_pairing.
    + vm_compute. reflexivity.
    + discriminate.
  - apply (proj2 (SessionClient.initialize_active_only_after_notification
                    loads dumps)
                 broken_pipe_session
                 (snd (run_initialize_request broken_pipe_session))
                 initialize_response).
    + reflexivity.
    + vm_compute. reflexivity.
    + reflexivity.
    + reflexivity.
    + vm_compute. reflexivity.
Defined.

(** C5 (counterexample). The peer never answers: [initialize] returns
    [False] and the session state is [UNINITIALIZED], not [ERROR_STATE]. *)
Lemma initialize_failure_leaves_uninitialized :
  fst (run_initialize silent_session) = Return false /\
  SessionClient.session_state (snd (run_initialize silent_session))
  = SessionClient.UNINITIALIZED /\
  SessionClient.session_state (snd (run_initialize silent_session))
  <> SessionClient.ERROR_STATE.
Proof. vm_compute. repeat split; discriminate. Qed.

Lemma initialize_failure_witness :
  run_initialize silent_session
  = (Return false, snd (run_initialize_request silent_session)) /\
  SessionClient.session_state (snd (run_initialize_request silent_session))
  = SessionClient.session_state silent_session.
Proof.
  apply (proj1 (@SessionClient.initialize_failure_returns_false
                  loads dumps silent_session
                  (snd (run_initialize_request silent_session)) None
                  eq_refl eq_refl)).
  reflexivity.
Defined.

(** ** C6: the error response for a tool that does not exist *)

Definition error_line_client : LineClient.client :=
  line_client_on
    (peer [Segment (encode_utf8 (line_of (unknown_tool_error (JStr "1"))))]
          []).







(** ** C7: disconnecting an active session *)

(** C7 (counterexample). After a successful [initialize] the session is
    [ACTIVE], and it still is after [disconnect]. *)
Lemma disconnect_leaves_session_active :
  SessionClient.session_state
    (SessionClient.disconnect (snd (run_initialize handshake_session)))
  = SessionClient.ACTIVE /\
  SessionClient.session_state
    (SessionClient.disconnect (snd (run_initialize handshake_session)))
  <> SessionClient.UNINITIALIZED.
Proof. vm_compute. split; [reflexivity | discriminate]. Qed.

(** ** C9: two responses in one chunk *)

Definition pipelined_chunk : bytes :=
  encode_utf8 (line_of line_tool_response
               ++ line_of (unknown_tool_error (JStr "2"))).

Definition pipelined_line_client : LineClient.client :=
  line_client_on (peer [Segment pipelined_chunk] []).

Lemma first_line_only_witness :
  exists s',
    LineClient.send_request loads dumps "tools/call"
      (Some (LineClient.tool_call_params "echo" (JObj []))) 
      pipelined_line_client
    = (Some line_tool_response,
       LineClient.set_socket
         (LineClient.set_request_id pipelined_line_client 1) (Some s')) /\
    rx s' = [].
Proof.
  destruct (@LineClient.send_request_keeps_first_line_only
              loads dumps "tools/call"
              (Some (LineClient.tool_call_params "echo" (JObj [])))
              pipelined_line_client (peer [Segment pipelined_chunk] [])
              [] pipelined_chunk [])
    as [(s' & Hr & Hrx) _].
  - reflexivity.
  - reflexivity.
  - reflexivity.
  - constructor.
  - discriminate.
  - vm_compute. repeat constructor.
  - vm_compute. reflexivity.
  - vm_compute. reflexivity.
  - exists s'. split; [|exact Hrx].
    rewrite Hr. vm_compute. reflexivity.
Defined.

(** ** C8 and C10: the aggregator on a concrete run *)

Definition lab_runner : Aggregator.runner :=
  Aggregator.new_runner "192.168.1.100" "/dev/ttyUSB0" 74880.

Definition start_time : Aggregator.datetime :=
  Aggregator.mkDatetime 2024 1 2 3 4 5 0.

Definition client_entry : Aggregator.LogEntry :=
  Aggregator.mkLogEntry (Aggregator.mkDatetime 2024 1 2 3 4 5 123456)
                        "CLIENT" "INFO" "Starting test" None.

Definition device_entry : Aggregator.LogEntry :=
  Aggregator.mkLogEntry (Aggregator.mkDatetime 2024 1 2 3 4 6 0)
                        "ESP8266" "WARNING" "[wifi] weak signal" None.

Definition started_runner : Aggregator.runner :=
  Aggregator.start_logging (Some "run.log") start_time lab_runner.

(** The two lines as they are written. *)
Lemma log_lines_rendered :
  Aggregator.log_line client_entry
  = "2024-01-02T03:04:05.123456 [ CLIENT]  INFO: Starting test"
    ++ Aggregator.nl /\
  Aggregator.log_line device_entry
  = "2024-01-02T03:04:06 [ESP8266] WARNING: [wifi] weak signal"
    ++ Aggregator.nl.
Proof. vm_compute. split; reflexivity. Qed.


(** The consumer has passed its loop test, an entry is put, and
    [stop_logging] clears the flag. *)
Definition stop_requested : Aggregator.runner :=
  Aggregator.run [Aggregator.Consumer; Aggregator.Put client_entry;
                  Aggregator.Stopper] started_runner.

(** C10 (counterexample). When the flag is cleared the entry is still in
    the queue; the iteration of the consumer that was under way takes it
    all the same, displays it and writes it to the file, which
    [stop_logging] has not closed yet. *)
Lemma enqueued_entry_still_displayed :
  Aggregator.running stop_requested = false /\
  Aggregator.log_queue stop_requested = [client_entry] /\
  Aggregator.displayed stop_requested = [] /\
  Aggregator.displayed
    (Aggregator.run [Aggregator.Consumer; Aggregator.Consumer;
                     Aggregator.Consumer] stop_requested)
  = [client_entry] /\
  Aggregator.persisted
    (Aggregator.run [Aggregator.Consumer; Aggregator.Consumer;
                     Aggregator.Consumer] stop_requested)
  = Aggregator.log_header start_time lab_runner
    ++ Aggregator.log_line client_entry.
Proof. vm_compute. repeat split; reflexivity. Qed.

(** What happens after the flag was cleared: an entry is put, and the
    consumer runs until it has left its loop. *)
Definition after_stop : list Aggregator.action :=
  [Aggregator.Put device_entry; Aggregator.Consumer; Aggregator.Consumer;
   Aggregator.Consumer; Aggregator.Consumer; Aggregator.Consumer].

Lemma stop_requested_flushed : Aggregator.buffer_empty stop_requested.
Proof. intros f Hf. vm_compute in Hf. inversion Hf. reflexivity. Qed.

(** The entry that was in the queue when the flag was cleared is the one
    that the iteration under way still displays and writes; the entry put
    afterwards stays in the queue and reaches neither the display nor the
    file. *)
Lemma stop_logging_witness :
  (exists (k : nat) extra written,
      (k <= 1)%nat /\
      Aggregator.log_queue (Aggregator.run after_stop stop_requested)
      = skipn k ([client_entry] ++ [device_entry])%list /\
      Aggregator.displayed (Aggregator.run after_stop stop_requested)
      = ([] ++ extra)%list /\
      (length extra <= 1)%nat /\
      (extra = [] \/
       extra = ([] ++ firstn k ([client_entry] ++ [device_entry]))%list) /\
      Aggregator.persisted (Aggregator.run after_stop stop_requested)
      = (Aggregator.persisted stop_requested
         ++ Aggregator.lines written)%string /\
      (written = [] \/ written = ([] ++ extra)%list)) /\
  Aggregator.log_queue (Aggregator.run after_stop stop_requested)
  = [device_entry] /\
  Aggregator.displayed (Aggregator.run after_stop stop_requested)
  = [client_entry] /\
  Aggregator.persisted (Aggregator.run after_stop stop_requested)
  = Aggregator.nl ++ "# ESP8266 MCP Integrated Test Log" ++ Aggregator.nl
    ++ "# Generated: 2024-01-02T03:04:05" ++ Aggregator.nl
    ++ "# ESP8266 IP: 192.168.1.100" ++ Aggregator.nl
    ++ "# Serial Port: /dev/ttyUSB0" ++ Aggregator.nl
    ++ "# Baud Rate: 74880" ++ Aggregator.nl
    ++ "========================================"
    ++ "========================================" ++ Aggregator.nl
    ++ "2024-01-02T03:04:05.123456 [ CLIENT]  INFO: Starting test"
    ++ Aggregator.nl.
Proof.
  split.
  - apply (proj2 (proj2 (proj2 (@Aggregator.stop_logging_leaves_queue
                                  stop_requested after_stop eq_refl)))).
    exact stop_requested_flushed.
  - vm_compute. repeat split; reflexivity.
Defined.

(** ** Further runs of the session client *)

Definition greeting : string := dumps SessionClient.initialized_notification.

Definition greeting_sender : SessionClient.client := session_on (peer [] []).

Definition greeting_receiver : SessionClient.client :=
  session_on (peer (delivers (byte_by_byte (frame greeting ++ [x00])%list) [])
                   []).

(** What one client writes is what the other reads, one byte per
    [recv]. *)
Lemma framed_round_trip_witness :
  exists s',
    SessionClient._receive_framed_message 5000 greeting_receiver
    = (Some greeting, SessionClient.set_socket greeting_receiver (Some s')) /\
    stream_bytes (rx s') = [x00].
Proof.
  destruct (@SessionClient.framed_message_round_trip
              greeting greeting_sender
              (snd (SessionClient._send_framed_message greeting
                      greeting_sender)))
    as (sent & Hsent & Hall).
  - reflexivity.
  - vm_compute. reflexivity.
  - vm_compute. discriminate.
  - vm_compute in Hsent. inversion Hsent; subst sent.
    apply (Hall 5000 greeting_receiver
             (peer (delivers (byte_by_byte (frame greeting ++ [x00])%list) [])
                   [])
             (byte_by_byte (frame greeting ++ [x00])%list) [] [x00]).
    + reflexivity.
    + vm_compute. repeat constructor; discriminate.
    + reflexivity.
    + vm_compute. reflexivity.
Defined.

Lemma request_result_witness :
  (exists d, initialize_response = JObj d /\
     (exists v, dict_get "jsonrpc" d = Some v /\ py_eq_str v "2.0" = true) /\
     (dict_get "id" d = None \/
      exists v, dict_get "id" d = Some v /\ py_eq_int v (0 + 1) = true)) /\
  exists s s' sent,
    SessionClient.socket handshake_session = Some s /\
    SessionClient.socket (snd (run_initialize_request handshake_session))
    = Some s' /\
    Framing.frame_of
      (dumps (SessionClient.build_request "initialize"
                (Some SessionClient.initialize_params) (0 + 1)))
    = Some sent /\
    tx_log s' = (tx_log s ++ [sent])%list.
Proof.
  apply (@SessionClient.send_request_result_matches_request
           loads dumps "initialize" (Some SessionClient.initialize_params)
           15000 handshake_session
           (snd (run_initialize_request handshake_session))
           initialize_response).
  vm_compute. reflexivity.
Defined.

(** The peer answers with the JSON text [42]. *)
Definition scalar_session : SessionClient.client :=
  session_on (peer [Segment (frame "42")] []).

Lemma scalar_response_witness :
  fst (SessionClient.send_request loads dumps "ping" None 5000 scalar_session)
  = Raise TypeError.
Proof.
  destruct (@SessionClient.scalar_response_raises_type_error
              loads dumps "ping" None 5000 scalar_session
              (snd (SessionClient._send_framed_message
                      (dumps (SessionClient.build_request "ping" None 1))
                      (SessionClient.set_request_id scalar_session 1)))
              (peer [Segment (frame "42")] [])
              [frame "42"] [] [x00; x00; x00; x02] (encode_utf8 "42") []
              "42" (JInt 42))
    as (c' & Hr & _).
  - reflexivity.
  - vm_compute. reflexivity.
  - repeat constructor; discriminate.
  - reflexivity.
  - reflexivity.
  - vm_compute. discriminate.
  - reflexivity.
  - reflexivity.
  - discriminate.
  - vm_compute. reflexivity.
  - right. right. left. exists 42. reflexivity.
  - rewrite Hr. reflexivity.
Defined.

Lemma initialize_once_witness :
  SessionClient.initialized (snd (run_initialize handshake_session)) = true /\
  run_initialize (snd (run_initialize handshake_session))
  = (Return true, snd (run_initialize handshake_session)).
Proof.
  destruct (@SessionClient.initialize_succeeds_once
              loads dumps handshake_session
              (snd (run_initialize handshake_session)))
    as (H1 & H2 & _).
  - vm_compute. reflexivity.
  - split; [exact H1 | exact H2].
Defined.

Definition connected_session : SessionClient.client :=
  active_session_on (peer [] []).

Lemma after_disconnect_witness :
  SessionClient.ping loads dumps (SessionClient.disconnect connected_session)
  = (Return false, SessionClient.disconnect connected_session).
Proof.
  apply (@SessionClient.operations_after_disconnect_fail_cleanly
           loads dumps connected_session).
  discriminate.
Defined.

(** A [tools/list] response whose [result] is [null]. *)
Definition null_result_response : json :=
  JObj [("jsonrpc", JStr "2.0"); ("id", JInt 1); ("result", JNull)].

Definition null_result_session : SessionClient.client :=
  active_session_on (peer [Segment (frame (dumps null_result_response))] []).

(** The same response to [call_tool]: the value returned is the [result],
    which is [None]. *)
Lemma call_tool_null_result_is_none :
  fst (SessionClient.call_tool loads dumps "echo" None 30000
                               null_result_session)
  = Return None.
Proof. vm_compute. reflexivity. Qed.

Lemma list_tools_null_result_witness :
  fst (SessionClient.list_tools loads dumps null_result_session)
  = Raise TypeError.
Proof.
  rewrite (proj2 (SessionClient.list_tools_keeps_cache_on_failure
                    loads dumps)
                 null_result_session
                 (snd (SessionClient.send_request loads dumps "tools/list"
                         None 10000 null_result_session))
                 [("jsonrpc", JStr "2.0"); ("id", JInt 1);
                  ("result", JNull)]).
  - reflexivity.
  - reflexivity.
  - vm_compute. reflexivity.
  - reflexivity.
Defined.

(** A response to the request with the identifier [id]. *)
Definition empty_result (id : Z) : json :=
  JObj [("jsonrpc", JStr "2.0"); ("id", JInt id); ("result", JObj [])].

Definition header_of (text : string) : bytes := firstn 4 (frame text).

(** The first response on the wire answers an earlier request (7); the
    response to the first ping arrives when the second ping is sent. *)
Definition late_wire : bytes :=
  (header_of (dumps (empty_result 7))
   ++ encode_utf8 (dumps (empty_result 7))
   ++ header_of (dumps (empty_result 1))
   ++ encode_utf8 (dumps (empty_result 1)) ++ [])%list.

Definition late_session : SessionClient.client :=
  active_session_on (peer [Segment late_wire] []).

Definition two_pings : list SessionClient.request_call :=
  [("ping", None, 5000); ("ping", None, 5000)].

Lemma late_responses_witness :
  fst (SessionClient.send_requests loads dumps two_pings late_session)
  = [Return None; Return None].
Proof.
  destruct (@SessionClient.late_responses_fail_every_request
              loads dumps two_pings late_wire 0)
    with (c := late_session) (s := peer [Segment late_wire] [])
         (chunks := [late_wire]) (rest := @nil rx_event) (more := @nil byte)
    as (c' & s' & Hrun & _).
  - unfold two_pings, late_wire.
    apply SessionClient.late_cons
      with (text := dumps (empty_result 7))
           (d := [("jsonrpc", JStr "2.0"); ("id", JInt 7);
                  ("result", JObj [])])
           (v := JInt 7).
    + vm_compute. discriminate.
    + vm_compute. reflexivity.
    + vm_compute. discriminate.
    + vm_compute. reflexivity.
    + vm_compute. discriminate.
    + vm_compute. reflexivity.
    + reflexivity.
    + reflexivity.
    + apply SessionClient.late_cons
        with (text := dumps (empty_result 1))
             (d := [("jsonrpc", JStr "2.0"); ("id", JInt 1);
                    ("result", JObj [])])
             (v := JInt 1).
      * vm_compute. discriminate.
      * vm_compute. reflexivity.
      * vm_compute. discriminate.
      * vm_compute. reflexivity.
      * vm_compute. discriminate.
      * vm_compute. reflexivity.
      * reflexivity.
      * reflexivity.
      * apply SessionClient.late_nil.
  - reflexivity.
  - reflexivity.
  - reflexivity.
  - repeat constructor. vm_compute. discriminate.
  - reflexivity.
  - vm_compute. reflexivity.
  - rewrite Hrun. reflexivity.
Defined.

(** ** Further runs of the tool client *)

Definition progress_payload : bytes := encode_utf8 (dumps progress_notification).

Definition response_payload : bytes := encode_utf8 (dumps tool_response).

(** The peer sends a progress notification, is silent for more than a
    second, and then sends the response; the transport hands everything
    over one byte per [recv]. *)
Definition progress_burst : ToolClient.burst :=
  ([(progress_payload, progress_notification)],
   byte_by_byte (frame (dumps progress_notification))).

Definition paused_events : list rx_event :=
  ToolClient.paused [progress_burst]
    (delivers (byte_by_byte (frame (dumps tool_response))) []).

Definition paused_tool_client : ToolClient.client :=
  ToolClient.mkClient (Some (peer paused_events [])) 0 true (JObj []) [].

(** The same, on a client with a notification left over from an earlier
    request. *)
Definition busy_tool_client : ToolClient.client :=
  ToolClient.mkClient (Some (peer paused_events [])) 0 true (JObj []) [JNull].

Lemma progress_is_passed_over :
  Forall (fun x => ToolClient.well_framed (fst x) /\
                   ToolClient.decodes_to loads (fst x) (snd x) /\
                   ToolClient.passed_over (0 + 1) (snd x))
         [(progress_payload, progress_notification)].
Proof.
  constructor; [|constructor]. split; [|split].
  - vm_compute. discriminate.
  - exists (dumps progress_notification). repeat split; vm_compute; reflexivity.
  - eexists. split; [reflexivity|]. left. reflexivity.
Qed.

Lemma response_answers :
  ToolClient.well_framed response_payload /\
  ToolClient.decodes_to loads response_payload tool_response /\
  ToolClient.answers (0 + 1) tool_response.
Proof.
  split; [|split].
  - vm_compute. discriminate.
  - exists (dumps tool_response). repeat split; vm_compute; reflexivity.
  - eexists _, _. repeat split; reflexivity.
Qed.

Lemma byte_by_byte_nonempty (data : bytes) :
  Forall nonempty (byte_by_byte data).
Proof.
  induction data as [|b data IH]; constructor; [discriminate | exact IH].
Qed.

Lemma response_arrives_after_pause :
  ToolClient.arrives_before_timeout
    loads (0 + 1) [progress_burst] [] response_payload tool_response
    (byte_by_byte (frame (dumps tool_response))) [] 30%nat.
Proof.
  unfold ToolClient.arrives_before_timeout.
  split; [|split; [|split; [|split; [|split; [|split; [|split]]]]]].
  - constructor; [|constructor].
    unfold ToolClient.burst_passed_over, progress_burst. cbn [fst snd].
    split; [apply byte_by_byte_nonempty|].
    split; [vm_compute; reflexivity | exact progress_is_passed_over].
  - apply byte_by_byte_nonempty.
  - vm_compute. reflexivity.
  - constructor.
  - exact (proj1 response_answers).
  - exact (proj1 (proj2 response_answers)).
  - exact (proj2 (proj2 response_answers)).
  - simpl. lia.
Qed.

Lemma tool_finds_response_witness :
  exists s',
    ToolClient.send_request loads dumps "tools/call" (Some long_task_params)
                            30%nat paused_tool_client
    = (Return (Some tool_response),
       ToolClient.mkClient (Some s') (0 + 1) true (JObj [])
                           ([] ++ [progress_notification])%list) /\
    stream_bytes (rx s') = [].
Proof.
  apply (@ToolClient.tool_send_request_finds_its_response
           loads dumps "tools/call" (Some long_task_params) 30%nat
           paused_tool_client (peer paused_events [])
           [progress_burst] []
           (byte_by_byte (frame (dumps tool_response)))
           [] response_payload [] tool_response).
  - reflexivity.
  - reflexivity.
  - vm_compute. discriminate.
  - reflexivity.
  - exact response_arrives_after_pause.
Defined.

Lemma call_tool_progress_witness :
  exists c',
    ToolClient.call_tool loads dumps "long_task" None 30%nat busy_tool_client
    = (Return (Some tool_response, [progress_notification]), c') /\
    ToolClient.progress_notifications c' = [] /\
    ToolClient.request_id c' = 0 + 1.
Proof.
  apply (@ToolClient.call_tool_returns_progress_of_this_call
           loads dumps "long_task" None 30%nat busy_tool_client
           (peer paused_events [])
           [progress_burst] []
           (byte_by_byte (frame (dumps tool_response)))
           [] response_payload [] tool_response).
  - reflexivity.
  - reflexivity.
  - reflexivity.
  - vm_compute. discriminate.
  - reflexivity.
  - exact response_arrives_after_pause.
Defined.

(** A pause inside a frame is another matter: the bytes of the frame
    that were read before the [recv] timed out are dropped with the
    call, the next turn reads payload bytes as a length, and the
    response, although it arrives well before the timeout of the
    request, is not returned. *)
Definition torn_tool_client : ToolClient.client :=
  ToolClient.mkClient
    (Some (peer [Segment (firstn 2 (frame (dumps tool_response)));
                 RecvTimeout;
                 Segment (skipn 2 (frame (dumps tool_response)))] []))
    0 true (JObj []) [].

Lemma pause_inside_frame_loses_response :
  fst (ToolClient.send_request loads dumps "tools/call"
         (Some long_task_params) 30%nat torn_tool_client)
  = Return None.
Proof. vm_compute. reflexivity. Qed.

Lemma tool_result_witness :
  ToolClient.request_id
    (snd (ToolClient.send_request loads dumps "tools/call"
            (Some long_task_params) 30%nat notified_tool_client))
  = 0 + 1.
Proof.
  apply (@ToolClient.tool_send_request_result_has_request_id
           loads dumps "tools/call" (Some long_task_params) 30%nat
           notified_tool_client
           (snd (ToolClient.send_request loads dumps "tools/call"
                   (Some long_task_params) 30%nat notified_tool_client))
           (fst (ToolClient.send_request loads dumps "tools/call"
                   (Some long_task_params) 30%nat notified_tool_client))).
  apply surjective_pairing.
Defined.

(** The peer sends a progress notification and nothing else. *)
Definition unanswered_tool_client : ToolClient.client :=
  ToolClient.mkClient
    (Some (peer (delivers [frame (dumps progress_notification)] []) []))
    0 true (JObj []) [].

Lemma tool_gives_up_witness :
  fst (ToolClient.send_request loads dumps "tools/call"
         (Some long_task_params) 5%nat unanswered_tool_client)
  = Return None.
Proof.
  apply (@ToolClient.tool_send_request_gives_up_without_answer
           loads dumps "tools/call" (Some long_task_params) 5%nat
           unanswered_tool_client
           (peer (delivers [frame (dumps progress_notification)] []) [])
           [(progress_payload, progress_notification)]
           [frame (dumps progress_notification)]).
  - reflexivity.
  - repeat constructor. vm_compute. discriminate.
  - reflexivity.
  - vm_compute. reflexivity.
  - exact progress_is_passed_over.
Defined.

(** ** Further runs of the newline-framed client *)

(** A complete response that is not followed by a newline. *)
Definition unterminated_chunk : bytes :=
  encode_utf8 (dumps line_tool_response).

Definition unterminated_line_client : LineClient.client :=
  line_client_on (peer [Segment unterminated_chunk] []).

Lemma unterminated_response_witness :
  fst (LineClient.send_request loads dumps "tools/call"
         (Some (LineClient.tool_call_params "echo" (JObj [])))
         unterminated_line_client)
  = None /\
  LineClient.request_id
    (snd (LineClient.send_request loads dumps "tools/call"
            (Some (LineClient.tool_call_params "echo" (JObj [])))
            unterminated_line_client))
  = 0 + 1.
Proof.
  apply (@LineClient.unterminated_response_is_dropped
           loads dumps "tools/call"
           (Some (LineClient.tool_call_params "echo" (JObj [])))
           unterminated_line_client (peer [Segment unterminated_chunk] [])
           [unterminated_chunk] []).
  - reflexivity.
  - reflexivity.
  - constructor; [|constructor]. unfold LineClient.quiet_chunk.
    split; [vm_compute; discriminate|].
    split; [vm_compute; repeat constructor|].
    split; vm_compute; reflexivity.
  - left. reflexivity.
Defined.

(** The JSON text of a string with one two-byte character, a newline
    behind it, cut by the transport between the two bytes of the
    character. *)
Definition split_first : bytes := [x22; xc3].

Definition split_second : bytes := [xa9; x22; x0a].

Definition split_line_client : LineClient.client :=
  line_client_on (peer [Segment split_first; Segment split_second] []).

Lemma split_character_witness :
  utf8_valid (split_first ++ split_second)%list = true /\
  fst (LineClient.send_request loads dumps "ping" None split_line_client)
  = None.
Proof.
  split; [reflexivity|].
  apply (@LineClient.undecodable_chunk_fails_request
           loads dumps "ping" None split_line_client
           (peer [Segment split_first; Segment split_second] [])
           [] split_first [Segment split_second]).
  - reflexivity.
  - reflexivity.
  - reflexivity.
  - constructor.
  - discriminate.
  - vm_compute. repeat constructor.
  - reflexivity.
Defined.

Lemma error_test_witness :
  LineClient.call_tool loads dumps "nonexistent_tool" (JObj [])
                       error_line_client
  = (Return false,
     snd (LineClient.test_error_handling loads dumps "nonexistent_tool"
            (JObj []) error_line_client)).
Proof.
  apply (proj2 (@LineClient.call_tool_and_error_test_disagree
                  loads dumps "nonexistent_tool" (JObj []) error_line_client
                  (snd (LineClient.test_error_handling loads dumps
                          "nonexistent_tool" (JObj []) error_line_client)))).
  vm_compute. reflexivity.
Defined.

(** An [initialize] response whose [serverInfo] is a string. *)
Definition odd_server_info : json :=
  JObj [("jsonrpc", JStr "2.0"); ("id", JStr "1");
        ("result", JObj [("serverInfo", JStr "ESP8266")])].

Definition odd_line_client : LineClient.client :=
  LineClient.mkClient
    (Some (peer [Segment (encode_utf8 (line_of odd_server_info))] []))
    0 false (JObj []) (JArr []).

Lemma line_initialize_witness :
  fst (LineClient.initialize loads dumps odd_line_client)
  = Raise AttributeError /\
  LineClient.server_info (snd (LineClient.initialize loads dumps
                                 odd_line_client))
  = JStr "ESP8266" /\
  LineClient.initialized (snd (LineClient.initialize loads dumps
                                 odd_line_client))
  = false.
Proof.
  rewrite (proj2 (LineClient.line_initialize_marks_only_on_success
                    loads dumps)
                 odd_line_client
                 (snd (LineClient.send_request loads dumps "initialize"
                         (Some LineClient.initialize_params) odd_line_client))
                 [("jsonrpc", JStr "2.0"); ("id", JStr "1");
                  ("result", JObj [("serverInfo", JStr "ESP8266")])]
                 [("serverInfo", JStr "ESP8266")] (JStr "ESP8266")).
  - repeat split; reflexivity.
  - vm_compute. reflexivity.
  - reflexivity.
  - reflexivity.
  - reflexivity.
Defined.

(** ** Further runs of the aggregator *)

Lemma file_follows_display_witness :
  exists shown,
    Aggregator.displayed
      (Aggregator.run [Aggregator.Put client_entry; Aggregator.Consumer;
                       Aggregator.Consumer; Aggregator.Put device_entry;
                       Aggregator.Consumer; Aggregator.Consumer]
                      started_runner)
    = ([] ++ shown)%list /\
    (Aggregator.persisted
       (Aggregator.run [Aggregator.Put client_entry; Aggregator.Consumer;
                        Aggregator.Consumer; Aggregator.Put device_entry;
                        Aggregator.Consumer; Aggregator.Consumer]
                       started_runner)
     ++ Aggregator.lines
          (Aggregator.awaiting_write
             (Aggregator.run [Aggregator.Put client_entry; Aggregator.Consumer;
                              Aggregator.Consumer; Aggregator.Put device_entry;
                              Aggregator.Consumer; Aggregator.Consumer]
                             started_runner)))%string
    = (Aggregator.log_header start_time lab_runner
       ++ Aggregator.lines shown)%string.
Proof.
  apply (@Aggregator.file_follows_display
           lab_runner "run.log" start_time
           [Aggregator.Put client_entry; Aggregator.Consumer;
            Aggregator.Consumer; Aggregator.Put device_entry;
            Aggregator.Consumer; Aggregator.Consumer]).
  - discriminate.
  - repeat constructor; discriminate.
Defined.

(** Two entries are waiting when the consumer thread starts. *)
Definition loaded_runner : Aggregator.runner :=
  Aggregator.run [Aggregator.Put client_entry; Aggregator.Put device_entry]
                 started_runner.

Lemma consumer_drains_witness :
  Aggregator.log_queue
    (Aggregator.run (repeat Aggregator.Consumer (4 * 2)) loaded_runner) = [] /\
  Aggregator.displayed
    (Aggregator.run (repeat Aggregator.Consumer (4 * 2)) loaded_runner)
  = [client_entry; device_entry].
Proof.
  destruct (@Aggregator.consumer_drains_queue
              [client_entry; device_entry] loaded_runner)
    as (H1 & H2 & _).
  - reflexivity.
  - reflexivity.
  - reflexivity.
  - split; [exact H1 | exact H2].
Defined.

Lemma serial_line_witness :
  Aggregator.message
    (Aggregator._process_serial_line start_time
       "I (1234) wifi: connected to ap")
  = "[wifi] connected to ap".
Proof.
  apply (proj1 (Aggregator.serial_line_is_split_at_first_separators
                  start_time)
               "I (1234" "wifi" "connected to ap");
    reflexivity.
Defined.

(** ** A message above the limit *)

(** A text of 1 MiB and one byte. *)
Definition big_payload : bytes := repeat x41 (Z.to_nat 1048577).

Definition big_text : string := string_of_list_byte big_payload.

Lemma big_text_length : Z.of_nat (length (encode_utf8 big_text)) = 1048577.
Proof.
  unfold big_text, encode_utf8, big_payload.
  rewrite list_byte_of_string_of_list_byte, repeat_length.
  apply Z2Nat.id. discriminate.
Qed.

Lemma big_text_sent :
  SessionClient._send_framed_message big_text greeting_sender
  = (true,
     session_on
       (mkSocket [] [] [([x00; x10; x00; x01] ++ encode_utf8 big_text)%list]
                 10000 false)).
Proof.
  unfold SessionClient._send_framed_message, greeting_sender, session_on.
  cbn [SessionClient.socket SessionClient.set_socket].
  unfold Framing.send_frame. rewrite big_text_length.
  reflexivity.
Qed.

Lemma oversize_message_witness :
  exists sent,
    SessionClient.last_sent
      (session_on
         (mkSocket [] [] [([x00; x10; x00; x01] ++ encode_utf8 big_text)%list]
                   10000 false))
    = Some sent /\
    forall (timeout : Z) (receiver : SessionClient.client) (s : tcp_socket)
           (chunks : list bytes) (rest : list rx_event) (more : bytes),
      SessionClient.socket receiver = Some s ->
      Forall nonempty chunks ->
      rx s = delivers chunks rest ->
      concat chunks = (sent ++ more)%list ->
      exists s',
        SessionClient._receive_framed_message timeout receiver
        = (None, SessionClient.set_socket receiver (Some s')) /\
        stream_bytes (rx s')
        = (encode_utf8 big_text ++ more ++ stream_bytes rest)%list.
Proof.
  apply (@SessionClient.oversize_message_is_sent_but_refused
           big_text greeting_sender).
  - exact big_text_sent.
  - rewrite big_text_length. reflexivity.
Defined.

(** ** The line on the terminal *)

Definition last_microsecond_entry : Aggregator.LogEntry :=
  Aggregator.mkLogEntry (Aggregator.mkDatetime 2024 1 2 3 4 5 999999)
                        "CLIENT" "WARNING" "No script" None.

Lemma display_line_witness :
  Aggregator.display_line last_microsecond_entry
  = (Aggregator.esc ++ "[92m" ++ "03:04:05.999 "
     ++ string_of_list_byte [xf0; x9f; x92; xbb]
     ++ "  CLIENT: No script" ++ Aggregator.esc ++ "[0m")%string.
Proof.
  rewrite (@Aggregator.display_shows_whole_milliseconds
             last_microsecond_entry).
  - vm_compute. reflexivity.
  - vm_compute. repeat split; discriminate.
Defined.

(** ** The handshake of the tool client *)

Definition fresh_tool_client : ToolClient.client :=
  ToolClient.mkClient
    (Some (peer [Segment (frame (dumps initialize_response))] []))
    0 false (JObj []) [].

Lemma tool_initialize_witness :
  fst (ToolClient.initialize loads dumps 15%nat fresh_tool_client)
  = Return true /\
  exists sent,
    Framing.frame_of (dumps ToolClient.initialized_notification)
    = Some sent /\
    ToolClient.last_sent
      (snd (ToolClient.initialize loads dumps 15%nat fresh_tool_client))
    = Some sent.
Proof.
  destruct (@ToolClient.tool_initialize_needs_notification
              loads dumps 15%nat fresh_tool_client
              (snd (ToolClient.initialize loads dumps 15%nat
                      fresh_tool_client))
              (fst (ToolClient.initialize loads dumps 15%nat
                      fresh_tool_client)))
    as (_ & H).
  - apply surjective_pairing.
  - destruct (H eq_refl) as (Hiff & Hex). split.
    + apply Hiff. vm_compute. reflexivity.
    + apply Hex. vm_compute. reflexivity.
Defined.

End Scenarios.
